(** * AstroBio Explorer: search and classification pipeline

    A shallow embedding of the text pipeline ([services/api/main.py]), the
    record normaliser and classifier ([services/api/nasa_data/fetcher.py])
    and the persistence service ([services/api/database/service.py]),
    followed by the properties stated for them.

    Conventions of the embedding.
    - A Python [str] is a [string]; a character is a code point in the
      Latin-1 range U+0000..U+00FF (the 256 values of [ascii]).  Text with
      code points above U+00FF is outside the model.
    - A Python [int] is a [Z]; [Optional[T]] is [option T].
    - A [dict] whose iteration order matters is an association list in
      insertion order.
    - Python [float] is the kernel's binary64 type ([PrimFloat.float]).
    - The SQLAlchemy session is an explicit store that every operation takes
      and returns; a raised exception is the [Raise] result. *)

From Stdlib Require Import ZArith List String Ascii Bool Lia Permutation Sorted.
From Stdlib Require Import Floats Reals Lra.
Import ListNotations.
Open Scope string_scope.
Open Scope Z_scope.

(** ** Python string primitives *)

Module Py.

Definition code (c : ascii) : Z := Z.of_N (N_of_ascii c).

Definition chr (n : Z) : ascii := ascii_of_N (Z.to_N n).

Definition between (lo hi : Z) (c : ascii) : bool :=
  (lo <=? code c) && (code c <=? hi).

(** [\d] on Latin-1 text, and the classes of the token pattern. *)
Definition is_digit (c : ascii) : bool := between 48 57 c.
Definition is_lower_az (c : ascii) : bool := between 97 122 c.
Definition is_alnum_lower (c : ascii) : bool := is_lower_az c || is_digit c.

(** [str.lower] on Latin-1: A-Z, and U+00C0..U+00DE except the
    multiplication sign U+00D7, move up by 32. *)
Definition lower_char (c : ascii) : ascii :=
  if between 65 90 c then chr (code c + 32)
  else if between 192 222 c && negb (code c =? 215) then chr (code c + 32)
  else c.

Fixpoint lower (s : string) : string :=
  match s with
  | EmptyString => EmptyString
  | String c s' => String (lower_char c) (lower s')
  end.

(** SQLite's [lower()] folds the 26 ASCII letters only. *)
Definition ascii_lower_char (c : ascii) : ascii :=
  if between 65 90 c then chr (code c + 32) else c.

Fixpoint ascii_lower (s : string) : string :=
  match s with
  | EmptyString => EmptyString
  | String c s' => String (ascii_lower_char c) (ascii_lower s')
  end.

(** [str.isspace] per character, Latin-1 range. *)
Definition is_space (c : ascii) : bool :=
  between 9 13 c || between 28 32 c || (code c =? 133) || (code c =? 160).

Fixpoint lstrip (s : string) : string :=
  match s with
  | EmptyString => EmptyString
  | String c s' => if is_space c then lstrip s' else s
  end.

Fixpoint rstrip (s : string) : string :=
  match s with
  | EmptyString => EmptyString
  | String c s' =>
      match rstrip s' with
      | EmptyString => if is_space c then EmptyString else String c EmptyString
      | r => String c r
      end
  end.

(** [s.strip()] *)
Definition strip (s : string) : string := rstrip (lstrip s).

(** [w in t] for strings: [w] occurs in [t] as a contiguous substring. *)
Fixpoint contains (w t : string) : bool :=
  prefix w t ||
  match t with
  | EmptyString => false
  | String _ t' => contains w t'
  end.

(** [any(w in text for w in words)] *)
Definition any_in (words : list string) (text : string) : bool :=
  existsb (fun w => contains w text) words.

(** [s[:n]] for [n >= 0]. *)
Fixpoint take (n : nat) (s : string) : string :=
  match n, s with
  | S n', String c s' => String c (take n' s')
  | _, _ => EmptyString
  end.

(** Truthiness of a string: [if s:] *)
Definition truthy (s : string) : bool :=
  match s with EmptyString => false | _ => true end.

(** [int(s)] for a string of decimal digits. *)
Fixpoint int_of_digits_acc (acc : Z) (s : string) : Z :=
  match s with
  | EmptyString => acc
  | String c s' => int_of_digits_acc (10 * acc + (code c - 48)) s'
  end.

Definition int_of_digits (s : string) : Z := int_of_digits_acc 0 s.

Fixpoint all_chars (p : ascii -> bool) (s : string) : bool :=
  match s with
  | EmptyString => true
  | String c s' => p c && all_chars p s'
  end.

(** Exceptions that the modelled code can raise, and the outcome of a call
    that may raise. *)
Inductive exn : Type :=
  | ZeroDivisionError
  | IntegrityError
  | PendingRollbackError.

Inductive result (A : Type) : Type :=
  | Return (a : A)
  | Raise (e : exn).
Arguments Return {A} a.
Arguments Raise {A} e.

End Py.

(** ** Text normaliser, keyword extractor, vectoriser ([main.py]) *)

Module Main.

Definition _STOPWORDS : list string :=
  [ "the";"and";"a";"an";"in";"on";"for";"of";"to";"is";"are";"was";"were";"be";"been";"being";
    "with";"by";"as";"at";"that";"this";"these";"those";"it";"its";"from";"or";"we";"our";"you";
    "your";"their";"they";"he";"she";"his";"her";"i";"me";"my";"mine";"but";"not";"no";"yes";"can";
    "will";"would";"could";"should";"may";"might";"into";"about";"over";"under";"between";"among";"than";
    "such";"more";"most";"least";"also";"using";"use";"used";"via";"per";"each";"both";"if";"then";"else" ].

Definition is_stopword (t : string) : bool :=
  existsb (String.eqb t) _STOPWORDS.

(** [_TOKEN_SPLIT.split(s)] with [_TOKEN_SPLIT = re.compile(r"[^a-z0-9]+")]:
    the pieces between maximal separator runs, empty pieces at the two ends
    included, as [re.split] returns them. *)
Fixpoint _TOKEN_SPLIT_split (s : string) : list string :=
  match s with
  | EmptyString => [EmptyString]
  | String c s' =>
      let r := _TOKEN_SPLIT_split s' in
      if Py.is_alnum_lower c then
        match r with
        | p :: ps => String c p :: ps
        | [] => [String c EmptyString]
        end
      else
        match s' with
        | String c' _ => if Py.is_alnum_lower c' then EmptyString :: r else r
        | EmptyString => EmptyString :: r
        end
  end.

(** [def _tokens(text)] *)
Definition _tokens (text : string) : list string :=
  let toks := filter Py.truthy (_TOKEN_SPLIT_split (Py.lower text)) in
  filter (fun t => negb (is_stopword t) && (1 <? Z.of_nat (String.length t))) toks.

(** The [dict] of [_top_keywords] and [_bow]: keys in insertion order. *)
Section Dict.
Context {V : Type}.

(** [d.get(k, default)] *)
Fixpoint dict_get (d : list (string * V)) (k : string) (default : V) : V :=
  match d with
  | [] => default
  | (k', v) :: d' => if String.eqb k' k then v else dict_get d' k default
  end.

(** [d[k] = v]: an existing key keeps its position, a new one goes last. *)
Fixpoint dict_set (d : list (string * V)) (k : string) (v : V) : list (string * V) :=
  match d with
  | [] => [(k, v)]
  | (k', v') :: d' =>
      if String.eqb k' k then (k', v) :: d' else (k', v') :: dict_set d' k v
  end.

Definition dict_keys (d : list (string * V)) : list string := map fst d.
Definition dict_values (d : list (string * V)) : list V := map snd d.

(** [k in d] *)
Definition dict_mem (d : list (string * V)) (k : string) : bool :=
  existsb (String.eqb k) (dict_keys d).
End Dict.

(** The loop [for t in toks: freq[t] = freq.get(t, 0) + 1]. *)
Definition count_tokens (toks : list string) : list (string * Z) :=
  fold_left (fun freq t => dict_set freq t (dict_get freq t 0 + 1)) toks [].

(** [sorted(items, key=lambda kv: kv[1], reverse=True)]: Python's sort is
    stable, and with [reverse=True] items of equal key keep their original
    order.  Written as a stable insertion sort. *)
Fixpoint insert_desc (x : string * Z) (l : list (string * Z)) : list (string * Z) :=
  match l with
  | [] => [x]
  | y :: l' => if snd x <? snd y then y :: insert_desc x l' else x :: l
  end.

Fixpoint sorted_desc (l : list (string * Z)) : list (string * Z) :=
  match l with
  | [] => []
  | x :: l' => insert_desc x (sorted_desc l')
  end.

(** [l[:k]]: a negative [k] counts from the end. *)
Definition slice_to {A : Type} (l : list A) (k : Z) : list A :=
  if 0 <=? k then firstn (Z.to_nat k) l
  else firstn (Z.to_nat (Z.of_nat (List.length l) + k)) l.

(** [def _top_keywords(text, k=5)] *)
Definition _top_keywords (text : string) (k : Z) : list string :=
  let freq := count_tokens (_tokens text) in
  map fst (slice_to (sorted_desc freq) k).

(** *** Term vectors

    [_bow] and [_cosine_sim] compute on Python floats.  The arithmetic they
    use is gathered in one structure with two readings: [Binary64], the
    IEEE 754 double precision arithmetic that CPython runs, and [Exact],
    the real numbers, which is the reading behind "within floating
    tolerance". *)
Record Arith : Type := {
  num : Type;
  zero : num;                         (* [0.0] *)
  one : num;                          (* [1.0] *)
  add : num -> num -> num;
  mul : num -> num -> num;
  div : num -> num -> num;
  sqrt : num -> num;                  (* [math.sqrt] *)
  is_zero : num -> bool               (* [x == 0], the falsy floats *)
}.

Definition Binary64 : Arith := {|
  num := float;
  zero := PrimFloat.zero;
  one := PrimFloat.one;
  add := PrimFloat.add;
  mul := PrimFloat.mul;
  div := PrimFloat.div;
  sqrt := PrimFloat.sqrt;
  is_zero := fun x => PrimFloat.eqb x PrimFloat.zero
|}.

Definition Exact : Arith := {|
  num := R;
  zero := 0%R;
  one := 1%R;
  add := Rplus;
  mul := Rmult;
  div := Rdiv;
  sqrt := R_sqrt.sqrt;
  is_zero := fun x => if Req_dec_T x 0%R then true else false
|}.

Section TermVectors.
Context {A : Arith}.

Definition TermVector : Type := list (string * num A).

(** [def _bow(text)] *)
Definition _bow (text : string) : TermVector :=
  fold_left (fun vec t => dict_set vec t (add A (dict_get vec t (zero A)) (one A)))
            (_tokens text) [].

(** [set(q) | set(d)], listed as the keys of [q] followed by the keys of
    [d] that [q] lacks.  CPython walks the union in hash order; the sum
    below does not depend on the order when every product is exact, as
    it is for token counts. *)
Definition key_union (q d : TermVector) : list string :=
  dict_keys q ++ filter (fun t => negb (dict_mem q t)) (dict_keys d).

(** [sum(xs)]: a left fold that starts from [0].  (CPython 3.12 and later
    carry a compensation term through a sum of floats; the two agree
    whenever the partial sums are exact, as they are for token counts.) *)
Definition py_sum (xs : list (num A)) : num A :=
  fold_left (add A) xs (zero A).

Definition dot (q d : TermVector) : num A :=
  py_sum (map (fun t => mul A (dict_get q t (zero A)) (dict_get d t (zero A)))
           (key_union q d)).

(** [math.sqrt(sum(v * v for v in x.values())) or 1.0] *)
Definition magnitude (x : TermVector) : num A :=
  let n := sqrt A (py_sum (map (fun v => mul A v v) (dict_values x))) in
  if is_zero A n then one A else n.

(** [def _cosine_sim(q, d)]; Python's float division raises on a zero
    divisor. *)
Definition _cosine_sim (q d : TermVector) : Py.result (num A) :=
  let dot := dot q d in
  let nq := magnitude q in
  let nd := magnitude d in
  let den := mul A nq nd in
  if is_zero A den then Py.Raise Py.ZeroDivisionError
  else Py.Return (div A dot den).
End TermVectors.

End Main.

(** ** Record normaliser and classifier ([nasa_data/fetcher.py]) *)

Module Fetcher.

(** A value stored under a key of a raw publication [dict]: the key may be
    missing, hold [None], or hold a string. *)
Inductive field : Type :=
  | Absent
  | PyNone
  | PyStr (s : string).

(** What [f"{pub.get(key, '')}"] renders. *)
Definition fstr (f : field) : string :=
  match f with
  | Absent => ""
  | PyNone => "None"
  | PyStr s => s
  end.

(** [f"{pub.get('title', '')} {pub.get('abstract', '')}".lower()] *)
Definition text_of (title abstract : field) : string :=
  Py.lower (fstr title ++ " " ++ fstr abstract).

(** The trigger lists, in the order of the [if]/[elif] chains. *)
Definition organism_rules : list (string * list string) :=
  [ ("Human",   ["human"; "astronaut"; "crew"; "personnel"; "person"]);
    ("Plant",   ["plant"; "arabidopsis"; "crop"; "vegetation"; "botanical"]);
    ("Microbe", ["microbe"; "bacteria"; "virus"; "microbial"; "pathogen"]);
    ("Animal",  ["animal"; "mouse"; "rat"; "rodent"; "mammal"]) ].

Definition domain_rules : list (string * list string) :=
  [ ("Microgravity",         ["microgravity"; "weightless"; "zero gravity"]);
    ("Radiation",            ["radiation"; "cosmic ray"; "solar particle"]);
    ("Bone/Musculoskeletal", ["bone"; "skeleton"; "osteo"; "density"]);
    ("Immunology",           ["immune"; "immunity"; "infection"]);
    ("Cardiovascular",       ["cardiovascular"; "heart"; "circulation"]);
    ("Psychology/Behavior",  ["psychological"; "behavior"; "stress"]) ].

(** An [if any(...): return label / elif ... / else: return default] chain. *)
Fixpoint first_match (rules : list (string * list string)) (default text : string) : string :=
  match rules with
  | [] => default
  | (label, words) :: rest =>
      if Py.any_in words text then label else first_match rest default text
  end.

(** [def classify_organism_type(self, pub)] *)
Definition classify_organism_type (title abstract : field) : string :=
  first_match organism_rules "Other" (text_of title abstract).

(** [def classify_research_domain(self, pub)] *)
Definition classify_research_domain (title abstract : field) : string :=
  first_match domain_rules "General" (text_of title abstract).

(** *** Year extraction *)

Definition four_digits_here (s : string) : bool :=
  match s with
  | String a (String b (String c (String d _))) =>
      Py.is_digit a && Py.is_digit b && Py.is_digit c && Py.is_digit d
  | _ => false
  end.

(** [re.search(r'(\d{4})', s)]: group 1 of the leftmost match. *)
Fixpoint search_4_digits (s : string) : option string :=
  if four_digits_here s then Some (Py.take 4 s)
  else match s with
       | EmptyString => None
       | String _ s' => search_4_digits s'
       end.

(** [def _extract_year(self, date_str)] *)
Definition _extract_year (date_str : option string) : option Z :=
  match date_str with
  | None => None
  | Some s =>
      if negb (Py.truthy s) then None
      else
        match search_4_digits s with
        | Some m =>
            let year := Py.int_of_digits m in
            if (1900 <=? year) && (year <=? 2030) then Some year else None
        | None => None
        end
  end.

(** *** Date parsing

    [datetime.strptime] as CPython's [_strptime] implements it: the format
    is turned into a regular expression, one group per directive, compiled
    with [IGNORECASE] and matched at the start of the string; the match
    must cover the whole string; the fields found must form a valid
    [datetime].  Every failure is a [ValueError], modelled as [None]. *)

Record datetime : Type := {
  dt_year : Z; dt_month : Z; dt_day : Z;
  dt_hour : Z; dt_minute : Z; dt_second : Z; dt_microsecond : Z
}.

Inductive directive : Type :=
  | Lit (c : ascii)
  | DirY | Dirm | Dird | DirH | DirM | DirS | Dirf.

Definition directive_of (c : ascii) : option directive :=
  if Ascii.eqb c "Y" then Some DirY
  else if Ascii.eqb c "m" then Some Dirm
  else if Ascii.eqb c "d" then Some Dird
  else if Ascii.eqb c "H" then Some DirH
  else if Ascii.eqb c "M" then Some DirM
  else if Ascii.eqb c "S" then Some DirS
  else if Ascii.eqb c "f" then Some Dirf
  else None.

(** The directives of a format; [None] for a directive outside the seven
    above or a stray [%] ([ValueError] in both cases). *)
Fixpoint parse_format (fmt : string) : option (list directive) :=
  match fmt with
  | EmptyString => Some []
  | String c rest =>
      if Ascii.eqb c "%" then
        match rest with
        | EmptyString => None
        | String x rest' =>
            match directive_of x, parse_format rest' with
            | Some d, Some ds => Some (d :: ds)
            | _, _ => None
            end
        end
      else
        match parse_format rest with
        | Some ds => Some (Lit c :: ds)
        | None => None
        end
  end.

(** A regular expression alternative: one character class per position. *)
Definition alternative : Type := list (ascii -> bool).

Definition is_char (c : ascii) : ascii -> bool := fun d => Ascii.eqb c d.
Definition digit_in (lo hi : Z) : ascii -> bool := fun d => Py.between (48 + lo) (48 + hi) d.
Definition dg : ascii -> bool := Py.is_digit.

(** The alternatives of each directive, in the order the expression lists
    them:
    [%Y] [\d\d\d\d];
    [%m] [1[0-2]|0[1-9]|[1-9]];
    [%d] [3[01]|[12]\d|0[1-9]|[1-9]| [1-9]];
    [%H] [2[0-3]|[0-1]\d|\d];
    [%M] [[0-5]\d|\d];
    [%S] [6[0-1]|[0-5]\d|\d];
    [%f] [[0-9]{1,6}] (greedy: longest first);
    a literal character matches itself, case ignored. *)
Definition alternatives (d : directive) : list alternative :=
  match d with
  | Lit c => [[fun x => Ascii.eqb (Py.lower_char x) (Py.lower_char c)]]
  | DirY => [[dg; dg; dg; dg]]
  | Dirm => [[is_char "1"; digit_in 0 2]; [is_char "0"; digit_in 1 9]; [digit_in 1 9]]
  | Dird => [[is_char "3"; digit_in 0 1]; [digit_in 1 2; dg]; [is_char "0"; digit_in 1 9];
             [digit_in 1 9]; [is_char " "; digit_in 1 9]]
  | DirH => [[is_char "2"; digit_in 0 3]; [digit_in 0 1; dg]; [dg]]
  | DirM => [[digit_in 0 5; dg]; [dg]]
  | DirS => [[is_char "6"; digit_in 0 1]; [digit_in 0 5; dg]; [dg]]
  | Dirf => [[dg; dg; dg; dg; dg; dg]; [dg; dg; dg; dg; dg]; [dg; dg; dg; dg];
             [dg; dg; dg]; [dg; dg]; [dg]]
  end.

(** Match one alternative at the start of [s]: the text matched and the
    rest. *)
Fixpoint match_alt (alt : alternative) (s : string) : option (string * string) :=
  match alt with
  | [] => Some (EmptyString, s)
  | p :: alt' =>
      match s with
      | EmptyString => None
      | String c s' =>
          if p c then
            match match_alt alt' s' with
            | Some (m, rest) => Some (String c m, rest)
            | None => None
            end
          else None
      end
  end.

(** The fields [_strptime] collects, with its defaults. *)
Record fields : Type := {
  f_year : Z; f_month : Z; f_day : Z;
  f_hour : Z; f_minute : Z; f_second : Z; f_fraction : Z
}.

Definition default_fields : fields :=
  {| f_year := 1900; f_month := 1; f_day := 1;
     f_hour := 0; f_minute := 0; f_second := 0; f_fraction := 0 |}.

(** [int(found_dict[...])]: surrounding blanks are ignored by [int]. *)
Fixpoint digits_only (s : string) : string :=
  match s with
  | EmptyString => EmptyString
  | String c s' => if Py.is_digit c then String c (digits_only s') else digits_only s'
  end.

Definition int_of (m : string) : Z := Py.int_of_digits (digits_only m).

(** [%f]: the digits are padded with zeros on the right to six. *)
Definition fraction_of (m : string) : Z :=
  int_of m * 10 ^ (6 - Z.of_nat (String.length m)).

Definition store (d : directive) (m : string) (f : fields) : fields :=
  match d with
  | Lit _ => f
  | DirY => {| f_year := int_of m; f_month := f_month f; f_day := f_day f;
               f_hour := f_hour f; f_minute := f_minute f; f_second := f_second f;
               f_fraction := f_fraction f |}
  | Dirm => {| f_year := f_year f; f_month := int_of m; f_day := f_day f;
               f_hour := f_hour f; f_minute := f_minute f; f_second := f_second f;
               f_fraction := f_fraction f |}
  | Dird => {| f_year := f_year f; f_month := f_month f; f_day := int_of m;
               f_hour := f_hour f; f_minute := f_minute f; f_second := f_second f;
               f_fraction := f_fraction f |}
  | DirH => {| f_year := f_year f; f_month := f_month f; f_day := f_day f;
               f_hour := int_of m; f_minute := f_minute f; f_second := f_second f;
               f_fraction := f_fraction f |}
  | DirM => {| f_year := f_year f; f_month := f_month f; f_day := f_day f;
               f_hour := f_hour f; f_minute := int_of m; f_second := f_second f;
               f_fraction := f_fraction f |}
  | DirS => {| f_year := f_year f; f_month := f_month f; f_day := f_day f;
               f_hour := f_hour f; f_minute := f_minute f; f_second := int_of m;
               f_fraction := f_fraction f |}
  | Dirf => {| f_year := f_year f; f_month := f_month f; f_day := f_day f;
               f_hour := f_hour f; f_minute := f_minute f; f_second := f_second f;
               f_fraction := fraction_of m |}
  end.

Fixpoint first_some {X Y : Type} (f : X -> option Y) (l : list X) : option Y :=
  match l with
  | [] => None
  | x :: l' => match f x with Some y => Some y | None => first_some f l' end
  end.

(** [format_regex.match(data_string)]: the first match in backtracking
    order, with the fields it binds and the text left over. *)
Fixpoint regex_match (ds : list directive) (s : string) (acc : fields)
  : option (fields * string) :=
  match ds with
  | [] => Some (acc, s)
  | d :: ds' =>
      first_some
        (fun alt =>
           match match_alt alt s with
           | Some (m, rest) => regex_match ds' rest (store d m acc)
           | None => None
           end)
        (alternatives d)
  end.

Definition is_leap (y : Z) : bool :=
  (y mod 4 =? 0) && (negb (y mod 100 =? 0) || (y mod 400 =? 0)).

Definition days_in_month (y m : Z) : Z :=
  if m =? 2 then (if is_leap y then 29 else 28)
  else if (m =? 4) || (m =? 6) || (m =? 9) || (m =? 11) then 30
  else 31.

(** The [datetime] constructor's range checks. *)
Definition make_datetime (f : fields) : option datetime :=
  if (1 <=? f_year f) && (f_year f <=? 9999)
     && (1 <=? f_month f) && (f_month f <=? 12)
     && (1 <=? f_day f) && (f_day f <=? days_in_month (f_year f) (f_month f))
     && (0 <=? f_hour f) && (f_hour f <=? 23)
     && (0 <=? f_minute f) && (f_minute f <=? 59)
     && (0 <=? f_second f) && (f_second f <=? 59)
     && (0 <=? f_fraction f) && (f_fraction f <=? 999999)
  then Some {| dt_year := f_year f; dt_month := f_month f; dt_day := f_day f;
               dt_hour := f_hour f; dt_minute := f_minute f; dt_second := f_second f;
               dt_microsecond := f_fraction f |}
  else None.

(** [datetime.strptime(data_string, format)] *)
Definition strptime (data_string format : string) : option datetime :=
  match parse_format format with
  | None => None
  | Some ds =>
      match regex_match ds data_string default_fields with
      | Some (f, EmptyString) => make_datetime f
      | _ => None
      end
  end.

(** [fmt.replace('%f', '123456')] *)
Fixpoint replace_pct_f (fmt : string) : string :=
  match fmt with
  | EmptyString => EmptyString
  | String c rest =>
      match rest with
      | String x rest' =>
          if Ascii.eqb c "%" && Ascii.eqb x "f"
          then "123456" ++ replace_pct_f rest'
          else String c (replace_pct_f rest)
      | EmptyString => String c EmptyString
      end
  end.

Definition date_formats : list string :=
  [ "%Y-%m-%dT%H:%M:%S.%fZ";
    "%Y-%m-%dT%H:%M:%SZ";
    "%Y-%m-%d";
    "%Y/%m/%d";
    "%m/%d/%Y";
    "%Y" ].

(** One turn of the loop: [datetime.strptime(date_str[:len(...)], fmt)]. *)
Definition try_format (date_str fmt : string) : option datetime :=
  strptime (Py.take (String.length (replace_pct_f fmt)) date_str) fmt.

(** [def _parse_date(self, date_str)] *)
Definition _parse_date (date_str : option string) : option datetime :=
  match date_str with
  | None => None
  | Some s =>
      if negb (Py.truthy s) then None
      else first_some (try_format s) date_formats
  end.

End Fetcher.

(** ** Persistence service ([database/service.py], [database/models.py]) *)

Module Service.
Import Py Fetcher.

(** The keys of a [pub_data] dict that [create_publication] reads.  For the
    keys read with [get(key)] a missing key and [None] coincide. *)
Record PubData : Type := {
  pd_nasa_id : option string;
  pd_title : field;
  pd_abstract : field;
  pd_doi : option string;
  pd_url : option string;
  pd_publication_date : option datetime;
  pd_publication_year : option Z;
  pd_publication_type : field;
  pd_journal_name : option string;
  pd_authors : list string;
  pd_keywords : list string
}.

(** Rows of the tables; a nullable column is an [option]. *)
Record Publication : Type := {
  id : Z;
  nasa_id : option string;
  title : string;
  abstract : option string;
  doi : option string;
  url : option string;
  publication_date : option datetime;
  publication_year : option Z;
  publication_type : option string;
  journal_name : option string;
  organism_type : string;
  research_domain : string
}.

Record Author : Type := { author_id : Z; name : string }.

Record Keyword : Type := { keyword_id : Z; term : string; usage_count : Z }.

Record SearchIndex : Type := { publication_id : Z; content : string }.

Record DataSource : Type := { ds_name : string; total_records : Z }.

(** The session and the database behind it.  The two association tables
    hold (publication id, author id) and (publication id, keyword id);
    [publication.authors] and [publication.keywords] are read from them.
    [session_active] is false once a flush has failed: SQLAlchemy then
    refuses every further statement until [rollback()], which this code
    never calls. *)
Record DB : Type := {
  publications : list Publication;
  authors : list Author;
  keywords : list Keyword;
  publication_authors : list (Z * Z);
  publication_keywords : list (Z * Z);
  search_index : list SearchIndex;
  data_sources : list DataSource;
  session_active : bool
}.

Definition empty_db : DB :=
  {| publications := []; authors := []; keywords := [];
     publication_authors := []; publication_keywords := [];
     search_index := []; data_sources := []; session_active := true |}.

Definition set_publications (db : DB) (l : list Publication) : DB :=
  {| publications := l; authors := authors db; keywords := keywords db;
     publication_authors := publication_authors db;
     publication_keywords := publication_keywords db;
     search_index := search_index db; data_sources := data_sources db;
     session_active := session_active db |}.

Definition set_authors (db : DB) (l : list Author) : DB :=
  {| publications := publications db; authors := l; keywords := keywords db;
     publication_authors := publication_authors db;
     publication_keywords := publication_keywords db;
     search_index := search_index db; data_sources := data_sources db;
     session_active := session_active db |}.

Definition set_keywords (db : DB) (l : list Keyword) : DB :=
  {| publications := publications db; authors := authors db; keywords := l;
     publication_authors := publication_authors db;
     publication_keywords := publication_keywords db;
     search_index := search_index db; data_sources := data_sources db;
     session_active := session_active db |}.

Definition set_publication_authors (db : DB) (l : list (Z * Z)) : DB :=
  {| publications := publications db; authors := authors db; keywords := keywords db;
     publication_authors := l;
     publication_keywords := publication_keywords db;
     search_index := search_index db; data_sources := data_sources db;
     session_active := session_active db |}.

Definition set_publication_keywords (db : DB) (l : list (Z * Z)) : DB :=
  {| publications := publications db; authors := authors db; keywords := keywords db;
     publication_authors := publication_authors db;
     publication_keywords := l;
     search_index := search_index db; data_sources := data_sources db;
     session_active := session_active db |}.

Definition set_search_index (db : DB) (l : list SearchIndex) : DB :=
  {| publications := publications db; authors := authors db; keywords := keywords db;
     publication_authors := publication_authors db;
     publication_keywords := publication_keywords db;
     search_index := l; data_sources := data_sources db;
     session_active := session_active db |}.

Definition set_data_sources (db : DB) (l : list DataSource) : DB :=
  {| publications := publications db; authors := authors db; keywords := keywords db;
     publication_authors := publication_authors db;
     publication_keywords := publication_keywords db;
     search_index := search_index db; data_sources := l;
     session_active := session_active db |}.

(** A failed flush leaves the data as it was and the session unusable. *)
Definition fail_flush (db : DB) : DB :=
  {| publications := publications db; authors := authors db; keywords := keywords db;
     publication_authors := publication_authors db;
     publication_keywords := publication_keywords db;
     search_index := search_index db; data_sources := data_sources db;
     session_active := false |}.

(** The next integer primary key: one more than the largest in use. *)
Definition next_id (ids : list Z) : Z := 1 + fold_right Z.max 0 ids.

Definition opt_string_eqb (a b : option string) : bool :=
  match a, b with
  | Some x, Some y => String.eqb x y
  | None, None => true
  | _, _ => false
  end.

(** [Publication.nasa_id == v]: with [v = None] SQLAlchemy emits [IS NULL]. *)
Definition nasa_id_is (v : option string) (p : Publication) : bool :=
  opt_string_eqb (nasa_id p) v.

(** The UNIQUE constraint on [doi]: NULLs never collide. *)
Definition doi_taken (db : DB) (v : option string) : bool :=
  match v with
  | None => false
  | Some d => existsb (fun p => opt_string_eqb (doi p) (Some d)) (publications db)
  end.

(** [publication.authors] / [publication.keywords], as ids. *)
Definition linked (assoc : list (Z * Z)) (pid : Z) : list Z :=
  map snd (filter (fun r => fst r =? pid) assoc).

Definition is_linked (assoc : list (Z * Z)) (pid x : Z) : bool :=
  existsb (Z.eqb x) (linked assoc pid).

(** The body of the loop of [_add_authors_to_publication]. *)
Definition add_author (pid : Z) (db : DB) (author_name : string) : DB :=
  if negb (truthy (strip author_name)) then db
  else
    let '(db1, aid) :=
      match find (fun a => String.eqb (name a) (strip author_name)) (authors db) with
      | Some a => (db, author_id a)
      | None =>
          let aid := next_id (map author_id (authors db)) in
          (set_authors db (authors db ++ [{| author_id := aid; name := strip author_name |}]),
           aid)
      end in
    if negb (is_linked (publication_authors db1) pid aid)
    then set_publication_authors db1 (publication_authors db1 ++ [(pid, aid)])
    else db1.

(** [def _add_authors_to_publication(self, publication, author_names)] *)
Definition _add_authors_to_publication (db : DB) (pid : Z) (author_names : list string) : DB :=
  fold_left (add_author pid) author_names db.

(** [keyword.usage_count += 1] on the row with the given id. *)
Definition bump_usage (kid : Z) (k : Keyword) : Keyword :=
  if keyword_id k =? kid
  then {| keyword_id := keyword_id k; term := term k; usage_count := usage_count k + 1 |}
  else k.

(** The body of the loop of [_add_keywords_to_publication]: find or create
    the keyword, increment its counter, then attach it unless attached. *)
Definition add_keyword (pid : Z) (db : DB) (keyword_term : string) : DB :=
  if negb (truthy (strip keyword_term)) then db
  else
    let '(db1, kid) :=
      match find (fun k => String.eqb (term k) (strip keyword_term)) (keywords db) with
      | Some k => (db, keyword_id k)
      | None =>
          let kid := next_id (map keyword_id (keywords db)) in
          (set_keywords db (keywords db ++
             [{| keyword_id := kid; term := strip keyword_term; usage_count := 0 |}]),
           kid)
      end in
    let db2 := set_keywords db1 (map (bump_usage kid) (keywords db1)) in
    if negb (is_linked (publication_keywords db2) pid kid)
    then set_publication_keywords db2 (publication_keywords db2 ++ [(pid, kid)])
    else db2.

(** [def _add_keywords_to_publication(self, publication, keywords)] *)
Definition _add_keywords_to_publication (db : DB) (pid : Z) (kws : list string) : DB :=
  fold_left (add_keyword pid) kws db.

(** [def _create_search_index(self, publication)] *)
Definition _create_search_index (db : DB) (p : Publication) : DB :=
  let content := title p ++ " " ++ match abstract p with Some a => a | None => "" end in
  set_search_index db
    (search_index db ++ [{| publication_id := id p; content := strip content |}]).

(** [pub_data.get(key, default)] for a text column. *)
Definition text_column (f : field) (default : string) : option string :=
  match f with
  | Absent => Some default
  | PyNone => None
  | PyStr s => Some s
  end.

(** [def create_publication(self, pub_data)].  The INSERT of the first
    flush fails when [title] is NULL or the [doi] is taken. *)
Definition create_publication (db : DB) (pub_data : PubData) : DB * result Publication :=
  if negb (session_active db) then (db, Raise PendingRollbackError)
  else
    match find (nasa_id_is (pd_nasa_id pub_data)) (publications db) with
    | Some existing => (db, Return existing)
    | None =>
        match text_column (pd_title pub_data) "" with
        | None => (fail_flush db, Raise IntegrityError)
        | Some the_title =>
            if doi_taken db (pd_doi pub_data) then (fail_flush db, Raise IntegrityError)
            else
              let publication :=
                {| id := next_id (map id (publications db));
                   nasa_id := pd_nasa_id pub_data;
                   title := the_title;
                   abstract := text_column (pd_abstract pub_data) "";
                   doi := pd_doi pub_data;
                   url := pd_url pub_data;
                   publication_date := pd_publication_date pub_data;
                   publication_year := pd_publication_year pub_data;
                   publication_type := text_column (pd_publication_type pub_data) "unknown";
                   journal_name := pd_journal_name pub_data;
                   organism_type :=
                     classify_organism_type (pd_title pub_data) (pd_abstract pub_data);
                   research_domain :=
                     classify_research_domain (pd_title pub_data) (pd_abstract pub_data) |} in
              let db1 := set_publications db (publications db ++ [publication]) in
              let db2 := _add_authors_to_publication db1 (id publication) (pd_authors pub_data) in
              let db3 := _add_keywords_to_publication db2 (id publication) (pd_keywords pub_data) in
              let db4 := _create_search_index db3 publication in
              (db4, Return publication)
        end
    end.

(** *** Search *)

(** The [filters] dict: a key that is missing is [None]. *)
Record Filters : Type := {
  flt_organism_type : option string;
  flt_research_domain : option string;
  flt_publication_year : option Z;
  flt_publication_type : option string
}.

(** [if filters.get(key):] for a string and for a year. *)
Definition given_str (v : option string) : option string :=
  match v with
  | Some s => if truthy s then Some s else None
  | None => None
  end.

Definition given_year (v : option Z) : option Z :=
  match v with
  | Some y => if y =? 0 then None else Some y
  | None => None
  end.

(** [column == value] in SQL: never true of a NULL column. *)
Definition col_eq_str (col : option string) (v : string) : bool :=
  match col with Some c => String.eqb c v | None => false end.

Definition col_eq_year (col : option Z) (v : Z) : bool :=
  match col with Some c => c =? v | None => false end.

(** SQL [LIKE]: [%] stands for any run of characters, [_] for any one
    character, every other character for itself; no escape character. *)
Fixpoint like (pattern text : string) : bool :=
  match pattern with
  | EmptyString => negb (truthy text)
  | String c pattern' =>
      if Ascii.eqb c "%" then
        (fix any_suffix (t : string) : bool :=
           like pattern' t ||
           match t with
           | EmptyString => false
           | String _ t' => any_suffix t'
           end) text
      else
        match text with
        | EmptyString => false
        | String d text' => (Ascii.eqb c "_" || Ascii.eqb c d) && like pattern' text'
        end
  end.

(** [column.ilike(pattern)]: on SQLite, [lower(column) LIKE lower(pattern)];
    a NULL column gives NULL, which selects nothing. *)
Definition ilike (col : option string) (pattern : string) : bool :=
  match col with
  | Some c => like (ascii_lower pattern) (ascii_lower c)
  | None => false
  end.

(** [or_(title.ilike(f'%{query}%'), abstract.ilike(f'%{query}%'))] *)
Definition search_filter (query : string) (p : Publication) : bool :=
  ilike (Some (title p)) ("%" ++ query ++ "%") || ilike (abstract p) ("%" ++ query ++ "%").

(** NULL sorts below every year in SQLite. *)
Definition year_geb (a b : option Z) : bool :=
  match a, b with
  | _, None => true
  | None, Some _ => false
  | Some x, Some y => y <=? x
  end.

Definition year_ge (p q : Publication) : Prop :=
  year_geb (publication_year p) (publication_year q) = true.

(** [order_by(desc(Publication.publication_year))]: SQL fixes the result up
    to the order of rows with equal years, so any function that permutes
    its input into descending order is a model of it. *)
Class YearOrdering : Type := {
  order_by_year_desc : list Publication -> list Publication;
  order_by_permutes : forall l, Permutation l (order_by_year_desc l);
  order_by_sorts : forall l, StronglySorted year_ge (order_by_year_desc l)
}.

(** One such ordering: rows with equal years stay in table order. *)
Fixpoint insert_by_year (p : Publication) (l : list Publication) : list Publication :=
  match l with
  | [] => [p]
  | q :: l' =>
      if year_geb (publication_year p) (publication_year q) then p :: l
      else q :: insert_by_year p l'
  end.

Fixpoint stable_year_desc (l : list Publication) : list Publication :=
  match l with
  | [] => []
  | p :: l' => insert_by_year p (stable_year_desc l')
  end.

(** [OFFSET n]: a negative [n] counts as zero. *)
Definition sql_offset {X : Type} (n : Z) (l : list X) : list X :=
  skipn (Z.to_nat n) l.

(** [LIMIT n]: a negative [n] means no bound. *)
Definition sql_limit {X : Type} (n : Z) (l : list X) : list X :=
  if n <? 0 then l else firstn (Z.to_nat n) l.

Record SearchResult : Type := {
  sr_publications : list Publication;
  sr_total : Z;
  sr_offset : Z;
  sr_limit : Z
}.

(** The rows left after the [filter] calls of [search_publications]. *)
Definition apply_filters (filters : option Filters) (base : list Publication)
  : list Publication :=
  match filters with
  | None => base
  | Some f =>
      let base :=
        match given_str (flt_organism_type f) with
        | Some v => filter (fun p => String.eqb (organism_type p) v) base
        | None => base
        end in
      let base :=
        match given_str (flt_research_domain f) with
        | Some v => filter (fun p => String.eqb (research_domain p) v) base
        | None => base
        end in
      let base :=
        match given_year (flt_publication_year f) with
        | Some v => filter (fun p => col_eq_year (publication_year p) v) base
        | None => base
        end in
      match given_str (flt_publication_type f) with
      | Some v => filter (fun p => col_eq_str (publication_type p) v) base
      | None => base
      end
  end.

Definition apply_query (query : option string) (base : list Publication)
  : list Publication :=
  match given_str query with
  | Some q => filter (search_filter q) base
  | None => base
  end.

(** [def search_publications(self, query, filters, limit, offset)] *)
Definition search_publications `{YearOrdering} (db : DB) (query : option string)
    (filters : option Filters) (limit offset : Z) : result SearchResult :=
  if negb (session_active db) then Raise PendingRollbackError
  else
    let base_query := apply_query query (apply_filters filters (publications db)) in
    let total := Z.of_nat (List.length base_query) in
    let pubs := sql_limit limit (sql_offset offset (order_by_year_desc base_query)) in
    Return {| sr_publications := pubs; sr_total := total;
              sr_offset := offset; sr_limit := limit |}.

(** *** Ingestion *)

(** The three searches of [NASADataFetcher].  Each one catches its own
    network errors and returns the records it got, so to the service it is
    a function from its [limit] argument to a list of records. *)
Class NasaSources : Type := {
  search_nasa_techreports : Z -> list PubData;
  search_nasa_open_data : list PubData;
  search_pubspace : Z -> list PubData
}.

Inductive IngestError : Type :=
  | ErrorProcessing (title : string) (e : exn)
  | ErrorFetching (source : string) (e : exn).

Record IngestResult : Type := {
  ir_source : string;
  ir_ingested : Z;
  ir_errors : list IngestError
}.

(** [pub_data.get('title', 'Unknown')] inside the error message. *)
Definition title_for_message (f : field) : string :=
  match f with
  | Absent => "Unknown"
  | other => fstr other
  end.

(** The body of [for pub_data in publications:]. *)
Definition store_one (st : DB * Z * list IngestError) (pub_data : PubData)
  : DB * Z * list IngestError :=
  let '(db, ingested, errors) := st in
  match create_publication db pub_data with
  | (db', Return _) => (db', ingested + 1, errors)
  | (db', Raise e) =>
      (db', ingested,
       (errors ++ [ErrorProcessing (title_for_message (pd_title pub_data)) e])%list)
  end.

(** [def _update_data_source(self, source_name, records_count)] *)
Definition _update_data_source (db : DB) (source_name : string) (records_count : Z)
  : DB * result unit :=
  if negb (session_active db) then (db, Raise PendingRollbackError)
  else
    let rows :=
      match find (fun d => String.eqb (ds_name d) source_name) (data_sources db) with
      | Some _ => data_sources db
      | None => (data_sources db ++ [{| ds_name := source_name; total_records := 0 |}])%list
      end in
    let bump :=
      fix bump (l : list DataSource) : list DataSource :=
        match l with
        | [] => []
        | d :: l' =>
            if String.eqb (ds_name d) source_name
            then {| ds_name := ds_name d; total_records := total_records d + records_count |} :: l'
            else d :: bump l'
        end in
    (set_data_sources db (bump rows), Return tt).

(** The part of [ingest_nasa_data] after the choice of the sources. *)
Definition store_publications (db : DB) (source_name : string) (pubs : list PubData)
  : DB * IngestResult :=
  let '(db1, ingested, errors) := fold_left store_one pubs (db, 0, []) in
  match _update_data_source db1 source_name ingested with
  | (db2, Return _) =>
      (db2, {| ir_source := source_name; ir_ingested := ingested; ir_errors := errors |})
  | (db2, Raise e) =>
      (db2, {| ir_source := source_name; ir_ingested := ingested;
               ir_errors := (errors ++ [ErrorFetching source_name e])%list |})
  end.

(** The [if]/[elif]/[else] on [source_name.lower()]. *)
Definition fetch_for `{NasaSources} (source_name : string) (limit : Z) : list PubData :=
  if String.eqb (lower source_name) "ntrs" then search_nasa_techreports limit
  else if String.eqb (lower source_name) "open_data" then search_nasa_open_data
  else if String.eqb (lower source_name) "pubspace" then search_pubspace limit
  else
    (search_nasa_techreports (limit / 3) ++ search_nasa_open_data
       ++ search_pubspace (limit / 3))%list.

(** [def ingest_nasa_data(self, source_name, limit=100)] *)
Definition ingest_nasa_data `{NasaSources} (db : DB) (source_name : string) (limit : Z)
  : DB * IngestResult :=
  store_publications db source_name (fetch_for source_name limit).

End Service.

(** ** Reference definitions

    Definitions that follow the wording of the specification rather than
    the code; the theorems below relate the two. *)

Module Spec.
Import Py Main.

(** "Splits into tokens by collapsing any run of non-alphanumeric
    characters into a single separator": the words of [s] are read off
    left to right, [cur] being the word under construction. *)
Definition emit (cur : string) : list string :=
  if truthy cur then [cur] else [].

Fixpoint words_from (cur s : string) : list string :=
  match s with
  | EmptyString => emit cur
  | String c s' =>
      if is_alnum_lower c then words_from (cur ++ String c EmptyString) s'
      else (emit cur ++ words_from EmptyString s')%list
  end.

(** "Token is retained only if: not in a fixed stopword set AND
    length > 1." *)
Definition retained (t : string) : bool :=
  negb (is_stopword t) && (2 <=? Z.of_nat (String.length t)).

Definition normalize (text : string) : list string :=
  filter retained (words_from EmptyString (lower text)).

(** Position in a list: [x] stands before an occurrence of [y]. *)
Definition precedes {X : Type} (l : list X) (x y : X) : Prop :=
  exists l1 l2, l = (l1 ++ x :: l2)%list /\ In y l2.

(** "Token frequency": the number of times [t] occurs among the tokens. *)
Definition occurrences (toks : list string) (t : string) : Z :=
  Z.of_nat (count_occ string_dec toks t).

(** "First-seen order": [a] is seen before [b] when [a] makes its first
    appearance at a point where [b] has not appeared yet. *)
Definition seen_before (toks : list string) (a b : string) : Prop :=
  exists l1 l2, toks = (l1 ++ a :: l2)%list /\ ~ In a l1 /\ ~ In b l1 /\ a <> b.

(** "Sorts by descending frequency; ties broken by first-seen order". *)
Definition ranks_before (toks : list string) (a b : string) : Prop :=
  occurrences toks b < occurrences toks a \/
  (occurrences toks a = occurrences toks b /\ seen_before toks a b).

(** "TermVector: mapping from token to frequency": a token has one entry,
    and the frequency of a token that is present is positive. *)
Definition term_vector (v : list (string * R)) : Prop :=
  NoDup (dict_keys v) /\ forall t x, In (t, x) v -> (0 < x)%R.

(** A weight that is a finite, positive double. *)
Definition finite_positive (v : float) : bool :=
  PrimFloat.ltb 0 v && PrimFloat.ltb v infinity.

(** Doubles by their representation: zero, finite or infinite with the
    sign bit clear; and the same without zero. *)
Definition sf_nonneg (x : spec_float) : Prop :=
  match x with
  | S754_zero false | S754_infinity false | S754_finite false _ _ => True
  | _ => False
  end.

Definition sf_positive (x : spec_float) : Prop :=
  match x with
  | S754_infinity false | S754_finite false _ _ => True
  | _ => False
  end.

(** "Disjoint vectors": no token is a key of both. *)
Definition disjoint_keys {V : Type} (q d : list (string * V)) : Prop :=
  forall t, In t (dict_keys q) -> ~ In t (dict_keys d).

(** "Any 4-digit run": the four characters of [s] from position [i] on
    are decimal digits. *)
Definition year_window (s : string) (i : nat) (w : string) : Prop :=
  substring i 4 s = w /\ String.length w = 4%nat /\ all_chars is_digit w = true.

(** The leftmost such window. *)
Definition leftmost_year_window (s : string) (w : string) : Prop :=
  exists i, year_window s i w /\ forall j w', (j < i)%nat -> ~ year_window s j w'.

(** "Conjunctive exact-match predicates (AND across all supplied
    filters)"; a filter counts as supplied when its value is truthy. *)
Definition passes_filters (filters : option Service.Filters) (p : Service.Publication)
  : bool :=
  match filters with
  | None => true
  | Some f =>
      match Service.given_str (Service.flt_organism_type f) with
      | Some v => String.eqb (Service.organism_type p) v
      | None => true
      end &&
      match Service.given_str (Service.flt_research_domain f) with
      | Some v => String.eqb (Service.research_domain p) v
      | None => true
      end &&
      match Service.given_year (Service.flt_publication_year f) with
      | Some v => Service.col_eq_year (Service.publication_year p) v
      | None => true
      end &&
      match Service.given_str (Service.flt_publication_type f) with
      | Some v => Service.col_eq_str (Service.publication_type p) v
      | None => true
      end
  end.

(** The query as the code applies it: a [LIKE] pattern on title and
    abstract. *)
Definition passes_query (query : option string) (p : Service.Publication) : bool :=
  match Service.given_str query with
  | Some q => Service.search_filter q p
  | None => true
  end.

(** "Substring match (case-insensitive)": [q] occurs in the column, the
    ASCII letters compared without case; a NULL column contains nothing. *)
Definition icontains (q : string) (col : option string) : bool :=
  match col with
  | Some c => contains (ascii_lower q) (ascii_lower c)
  | None => false
  end.

(** A query without the two [LIKE] wildcards. *)
Definition is_wildcard (c : ascii) : bool := Ascii.eqb c "%" || Ascii.eqb c "_".

Definition wildcard_free (q : string) : bool :=
  all_chars (fun c => negb (is_wildcard c)) q.

(** The least number of characters a directive, and a list of
    directives, can match. *)
Definition min_width (d : Fetcher.directive) : nat :=
  fold_right Nat.min 6%nat (map (@List.length _) (Fetcher.alternatives d)).

Definition min_total_width (ds : list Fetcher.directive) : nat :=
  fold_right Nat.add 0%nat (map min_width ds).

(** Two states of the store with the same publication table and the same
    session state: what the helpers of [create_publication] preserve. *)
Definition same_publications (db db' : Service.DB) : Prop :=
  Service.publications db' = Service.publications db /\
  Service.session_active db' = Service.session_active db.

End Spec.

(** ** Sample data *)

Module Examples.
Import Py Fetcher Service.

(** A record as [_parse_ntrs_result] produces it. *)
Definition record (nid ttl : string) (year : Z) (names kws : list string) : PubData :=
  {| pd_nasa_id := Some nid;
     pd_title := PyStr ttl;
     pd_abstract := PyStr "";
     pd_doi := None;
     pd_url := None;
     pd_publication_date := None;
     pd_publication_year := Some year;
     pd_publication_type := PyStr "technical_report";
     pd_journal_name := None;
     pd_authors := names;
     pd_keywords := kws |}.

(** The row that [create_publication] stores for such a record. *)
Definition row (n : Z) (nid ttl : string) (year : Z) (organism domain : string)
  : Publication :=
  {| id := n;
     nasa_id := Some nid;
     title := ttl;
     abstract := Some "";
     doi := None;
     url := None;
     publication_date := None;
     publication_year := Some year;
     publication_type := Some "technical_report";
     journal_name := None;
     organism_type := organism;
     research_domain := domain |}.

Definition bone_study : PubData :=
  record "ntrs-1" "Bone loss in orbit" 2014 ["Smith, J."] ["bone"; "bone"].

Definition bone_study_resubmitted : PubData :=
  record "ntrs-1" "Bone loss in orbit (revised)" 2015 ["Smith, J."; "Lee, K."] ["bone"; "orbit"].

Definition bone_row : Publication :=
  row 1 "ntrs-1" "Bone loss in orbit" 2014 "Other" "Bone/Musculoskeletal".

(** The store after the first submission of [bone_study]. *)
Definition after_bone_study : DB :=
  {| publications := [bone_row];
     authors := [{| author_id := 1; name := "Smith, J." |}];
     keywords := [{| keyword_id := 1; term := "bone"; usage_count := 2 |}];
     publication_authors := [(1, 1)];
     publication_keywords := [(1, 1)];
     search_index := [{| publication_id := 1; content := "Bone loss in orbit" |}];
     data_sources := [];
     session_active := true |}.

(** A title that holds the first trigger of the rule with the given label
    in each list, and nothing for a default label. *)
Definition first_trigger (rules : list (string * list string)) (label : string) : string :=
  match find (fun r => String.eqb (fst r) label) rules with
  | Some (_, w :: _) => w
  | _ => EmptyString
  end.

Definition title_for (organism domain : string) : string :=
  first_trigger organism_rules organism ++ " " ++ first_trigger domain_rules domain.

(** Six stored publications, five of them about plants. *)
Definition plant (n : Z) (ttl : string) (year : Z) : Publication :=
  row n ("plant-" ++ String (Py.chr (48 + n)) EmptyString) ttl year "Plant" "General".

Definition corpus : DB :=
  {| publications :=
       [ plant 1 "Plant growth in microgravity" 2012;
         row 2 "crew-2" "Crew sleep patterns" 2020 "Human" "General";
         plant 3 "Arabidopsis root morphology" 2018;
         plant 4 "Crop yields on orbit" 2016;
         plant 5 "Botanical survey" 2019;
         plant 6 "Vegetation under LED light" 2014 ];
     authors := []; keywords := [];
     publication_authors := []; publication_keywords := [];
     search_index := []; data_sources := [];
     session_active := true |}.

Definition only_plants : Filters :=
  {| flt_organism_type := Some "Plant";
     flt_research_domain := None;
     flt_publication_year := None;
     flt_publication_type := None |}.

(** A store with one publication, titled by the single letter a, and no
    abstract. *)
Definition letter_row : Publication :=
  {| id := 1; nasa_id := Some "x-1"; title := "a"; abstract := None;
     doi := None; url := None; publication_date := None;
     publication_year := Some 2001; publication_type := None; journal_name := None;
     organism_type := "Other"; research_domain := "General" |}.

Definition letter_store : DB :=
  {| publications := [letter_row];
     authors := []; keywords := [];
     publication_authors := []; publication_keywords := [];
     search_index := []; data_sources := [];
     session_active := true |}.

(** Three sources that answer without the network: two technical
    reports (cut to the requested limit), one dataset, nothing from
    PubSpace. *)
Definition sample_sources : NasaSources :=
  {| search_nasa_techreports := fun limit =>
       firstn (Z.to_nat limit)
         [ record "ntrs-7" "Crew health in orbit" 2019 ["Brown, L."] ["crew"];
           record "ntrs-8" "Radiation and seeds" 2012 [] ["radiation"; "seeds"] ];
     search_nasa_open_data :=
       [ record "ds-1" "Plant growth dataset" 2018 ["NASA"] [] ];
     search_pubspace := fun _ => [] |}.

End Examples.

(** ** Sentence splitter and local summariser ([main.py]) *)

Module Summary.
Import Py Main.

Definition is_terminator (c : ascii) : bool :=
  Ascii.eqb c "." || Ascii.eqb c "!" || Ascii.eqb c "?".

(** Where the scan of [re.split(r"(?<=[.!?])\s+", s)] stands: inside a
    piece, right behind one of [.!?] (the look-behind holds), or inside a
    separator, a run of whitespace that started behind one of [.!?]. *)
Inductive position : Type :=
  | Inside
  | AfterTerminator
  | InSeparator.

(** Put a character in front of the piece under construction. *)
Definition extend (c : ascii) (pieces : list string) : list string :=
  match pieces with
  | p :: ps => String c p :: ps
  | [] => [String c EmptyString]
  end.

Fixpoint split_from (pos : position) (s : string) : list string :=
  match s with
  | EmptyString => [EmptyString]
  | String c s' =>
      if is_space c then
        match pos with
        | Inside => extend c (split_from Inside s')
        | AfterTerminator => EmptyString :: split_from InSeparator s'
        | InSeparator => split_from InSeparator s'
        end
      else extend c (split_from (if is_terminator c then AfterTerminator else Inside) s')
  end.

(** [re.split(r"(?<=[.!?])\s+", s)] *)
Definition sentence_split (s : string) : list string := split_from Inside s.

(** [def _sentences(text)] *)
Definition _sentences (text : string) : list string :=
  let sents := sentence_split (strip text) in
  map strip (filter (fun s => truthy (strip s)) sents).

(** [sep.join(l)] *)
Fixpoint join (sep : string) (l : list string) : string :=
  match l with
  | [] => EmptyString
  | [x] => x
  | x :: l' => x ++ sep ++ join sep l'
  end.

(** [str.title] on ASCII text, which is all that a token holds: a letter
    behind a letter is put in lower case, any other letter in upper
    case. *)
Definition is_upper_az (c : ascii) : bool := between 65 90 c.

Definition ascii_upper_char (c : ascii) : ascii :=
  if is_lower_az c then chr (code c - 32) else c.

Fixpoint title_from (behind_letter : bool) (s : string) : string :=
  match s with
  | EmptyString => EmptyString
  | String c s' =>
      if is_upper_az c || is_lower_az c then
        String (if behind_letter then ascii_lower_char c else ascii_upper_char c)
               (title_from true s')
      else String c (title_from false s')
  end.

Definition title (s : string) : string := title_from false s.

Record SummarizeRequest : Type := {
  req_text : string;
  req_language : string
}.

Record SummarizeResponse : Type := {
  resp_abstract : string;
  resp_key_takeaways : list string;
  resp_ai_tags : list string
}.

(** The language model behind [summarize].  [configure_gemini] tells
    whether a key is set; [gemini_summary lang text] is the outcome of the
    [try] block that asks the model and parses its answer: the response
    it returns, or [None] when an exception is raised on the way, which
    the code swallows before it falls through to the local path. *)
Class Gemini : Type := {
  configure_gemini : bool;
  gemini_summary : string -> string -> option SummarizeResponse
}.

(** [x or default] for a string. *)
Definition or_else (x default : string) : string :=
  if truthy x then x else default.

(** The local path: the code of [summarize] below the Gemini block. *)
Definition local_summary (text : string) : SummarizeResponse :=
  let sents := _sentences text in
  let abstract :=
    match sents with
    | [] => take 280 text
    | _ => join " " (firstn 2 sents)
    end in
  let keywords := _top_keywords text 6 in
  let key_takeaways :=
    match map (fun w => "Keyword: " ++ w) (firstn 3 keywords) with
    | [] => ["Review source text for key points."]
    | l => l
    end in
  let ai_tags := map title (firstn 5 keywords) in
  {| resp_abstract := abstract;
     resp_key_takeaways := key_takeaways;
     resp_ai_tags := ai_tags |}.

(** [def summarize(req)] *)
Definition summarize `{Gemini} (req : SummarizeRequest) : SummarizeResponse :=
  let text := strip (or_else (req_text req) "") in
  let lang := lower (or_else (req_language req) "en") in
  if negb (truthy text) then
    {| resp_abstract := ""; resp_key_takeaways := []; resp_ai_tags := [] |}
  else
    match (if configure_gemini then gemini_summary lang text else None) with
    | Some response => response
    | None => local_summary text
    end.

End Summary.

(** ** Look-ups ([database/service.py]) *)

Module Queries.
Import Py Fetcher Service.

(** [def get_publication(self, publication_id)] *)
Definition get_publication (db : DB) (publication_id : Z) : result (option Publication) :=
  if negb (session_active db) then Raise PendingRollbackError
  else Return (find (fun p => id p =? publication_id) (publications db)).

(** [publication.authors]: the rows of the author table joined to the
    publication through the association table. *)
Definition authors_of (db : DB) (pid : Z) : list Author :=
  flat_map (fun aid => filter (fun a => author_id a =? aid) (authors db))
           (linked (publication_authors db) pid).

End Queries.

(** ** Routes ([main.py]) *)

Module Api.
Import Py Fetcher Service Queries.

(** The outcome of a request: a body, an [HTTPException] raised by the
    route, or an exception that the route does not handle. *)
Inductive response (A : Type) : Type :=
  | Ok (body : A)
  | HTTPException (status_code : Z) (detail : string)
  | Unhandled (e : exn).
Arguments Ok {A} body.
Arguments HTTPException {A} status_code detail.
Arguments Unhandled {A} e.

Record PublicationResponse : Type := {
  pr_id : Z;
  pr_title : string;
  pr_abstract : option string;
  pr_authors : list string;
  pr_publication_year : option Z;
  pr_organism_type : option string;
  pr_research_domain : option string;
  pr_url : option string
}.

Record PublicationListResponse : Type := {
  plr_publications : list PublicationResponse;
  plr_total : Z;
  plr_offset : Z;
  plr_limit : Z
}.

(** The keys of [req.filters] that [search] reads, a missing key being
    [None]; the organism and the mission are strings, the year a JSON
    integer. *)
Record RequestFilters : Type := {
  rf_organism : option string;
  rf_mission : option string;
  rf_year : option Z
}.

Record SearchRequest : Type := {
  sreq_query : string;
  sreq_filters : option RequestFilters;
  sreq_limit : Z;
  sreq_offset : Z
}.

(** The conversion of a row that [search] and [get_publication] share. *)
Definition publication_response (db : DB) (pub : Publication) : PublicationResponse :=
  {| pr_id := id pub;
     pr_title := title pub;
     pr_abstract := abstract pub;
     pr_authors := map name (authors_of db (id pub));
     pr_publication_year := publication_year pub;
     pr_organism_type := Some (organism_type pub);
     pr_research_domain := Some (research_domain pub);
     pr_url := url pub |}.

(** "Convert old filter format to new format": the [db_filters] dict. *)
Definition db_filters (req : SearchRequest) : Filters :=
  match sreq_filters req with
  | None =>
      {| flt_organism_type := None; flt_research_domain := None;
         flt_publication_year := None; flt_publication_type := None |}
  | Some f =>
      {| flt_organism_type := rf_organism f;
         flt_research_domain := rf_mission f;
         flt_publication_year := rf_year f;
         flt_publication_type := None |}
  end.

(** [def search(req, db)] *)
Definition search `{YearOrdering} (db : DB) (req : SearchRequest)
  : response PublicationListResponse :=
  match search_publications db (Some (sreq_query req)) (Some (db_filters req))
          (sreq_limit req) (sreq_offset req) with
  | Raise e => Unhandled e
  | Return search_result =>
      Ok {| plr_publications :=
              map (publication_response db) (sr_publications search_result);
            plr_total := sr_total search_result;
            plr_offset := sr_offset search_result;
            plr_limit := sr_limit search_result |}
  end.

(** [def get_publication(publication_id, db)] *)
Definition get_publication (db : DB) (publication_id : Z)
  : response PublicationResponse :=
  match Queries.get_publication db publication_id with
  | Raise e => Unhandled e
  | Return None => HTTPException 404 "Publication not found"
  | Return (Some publication) => Ok (publication_response db publication)
  end.

End Api.

(** ** Statistics ([database/service.py]) *)

Module Statistics.
Import Py Fetcher Service.

Record Stats : Type := {
  total_publications : Z;
  by_organism : list (string * Z);
  by_domain : list (string * Z);
  by_year : list (Z * Z)
}.

(** [SELECT column, count(id) FROM publications GROUP BY column] on a text
    column without NULLs, turned into a [dict]: one entry per value, with
    the number of rows that hold it.  SQL leaves the order of the groups
    open; they are listed in order of first appearance, and the
    properties below read the [dict] by key only. *)
Definition group_count (values : list string) : list (string * Z) :=
  fold_left (fun groups v => Main.dict_set groups v (Main.dict_get groups v 0 + 1))
            values [].

(** One more row for the year [y] in groups kept in ascending order. *)
Fixpoint count_year (y : Z) (groups : list (Z * Z)) : list (Z * Z) :=
  match groups with
  | [] => [(y, 1)]
  | (k, n) :: groups' =>
      if y <? k then (y, 1) :: groups
      else if y =? k then (k, n + 1) :: groups'
      else (k, n) :: count_year y groups'
  end.

(** [... GROUP BY publication_year ORDER BY publication_year] *)
Definition group_years (years : list Z) : list (Z * Z) :=
  fold_left (fun groups y => count_year y groups) years [].

(** [filter(Publication.publication_year >= current_year - 10)]: a NULL
    year compares to NULL and is left out. *)
Definition recent_years (current_year : Z) (rows : list Publication) : list Z :=
  flat_map (fun p => match publication_year p with
                     | Some y => if current_year - 10 <=? y then [y] else []
                     | None => []
                     end) rows.

(** [def get_publication_stats(self)]; [current_year] is
    [datetime.now().year]. *)
Definition get_publication_stats (current_year : Z) (db : DB) : result Stats :=
  if negb (session_active db) then Raise PendingRollbackError
  else
    Return {| total_publications := Z.of_nat (List.length (publications db));
              by_organism := group_count (map organism_type (publications db));
              by_domain := group_count (map research_domain (publications db));
              by_year := group_years (recent_years current_year (publications db)) |}.

(** [sum(d.values())] *)
Definition total {K : Type} (d : list (K * Z)) : Z :=
  fold_right Z.add 0 (map snd d).

End Statistics.

(** ** Initialisation script ([init_database.py]) *)

Module Init.
Import Py Fetcher Service.

Record Mission : Type := {
  mission_name : string;
  mission_description : string;
  mission_type : string;
  mission_status : string;
  mission_start_date : option datetime;
  mission_end_date : option datetime
}.

(** [datetime(y, m, d)] *)
Definition date (y m d : Z) : datetime :=
  {| dt_year := y; dt_month := m; dt_day := d;
     dt_hour := 0; dt_minute := 0; dt_second := 0; dt_microsecond := 0 |}.

Definition missions : list Mission :=
  [ {| mission_name := "ISS";
       mission_description :=
         "International Space Station - ongoing laboratory in low Earth orbit";
       mission_type := "Space Station";
       mission_status := "active";
       mission_start_date := Some (date 1998 11 20);
       mission_end_date := None |};
    {| mission_name := "Apollo";
       mission_description := "Apollo lunar exploration program";
       mission_type := "Lunar";
       mission_status := "completed";
       mission_start_date := Some (date 1969 7 16);
       mission_end_date := Some (date 1975 7 24) |};
    {| mission_name := "Shuttle";
       mission_description := "Space Shuttle program";
       mission_type := "Transport";
       mission_status := "completed";
       mission_start_date := Some (date 1981 4 12);
       mission_end_date := Some (date 2011 7 21) |};
    {| mission_name := "Artemis";
       mission_description := "Artemis lunar exploration program";
       mission_type := "Lunar";
       mission_status := "planned";
       mission_start_date := Some (date 2024 1 1);
       mission_end_date := None |} ].

(** The names of the [sources] list; of a row of [data_sources] the name
    and the counter are kept, as in the service. *)
Definition sources : list string := ["NTRS"; "NASA Open Data"; "PubSpace"].

(** The database together with the mission table, which only this script
    writes. *)
Record Store : Type := {
  store_db : DB;
  store_missions : list Mission
}.

(** The rows of [seeds] whose key is not in the table.  The loops of the
    script ask the database for each name in turn and add the missing
    rows to the session; the session does not flush before a query, so
    each name is looked up among the rows present at the start. *)
Definition missing {X : Type} (key : X -> string) (table seeds : list X) : list X :=
  filter (fun x => negb (existsb (fun r => String.eqb (key r) (key x)) table)) seeds.

(** [def init_missions(db_session)] *)
Definition init_missions (s : Store) : Store * result unit :=
  if negb (session_active (store_db s)) then (s, Raise PendingRollbackError)
  else
    ({| store_db := store_db s;
        store_missions :=
          (store_missions s ++ missing mission_name (store_missions s) missions)%list |},
     Return tt).

(** [def init_data_sources(db_session)] *)
Definition init_data_sources (db : DB) : DB * result unit :=
  if negb (session_active db) then (db, Raise PendingRollbackError)
  else
    (set_data_sources db
       (data_sources db ++
        missing ds_name (data_sources db)
          (map (fun n => {| ds_name := n; total_records := 0 |}) sources))%list,
     Return tt).

(** A sample publication of [seed_sample_publications]. *)
Definition sample (nid ttl abs : string) (names : list string) (year : Z)
    (kind : string) (kws : list string) : PubData :=
  {| pd_nasa_id := Some nid;
     pd_title := PyStr ttl;
     pd_abstract := PyStr abs;
     pd_doi := None;
     pd_url := None;
     pd_publication_date := None;
     pd_publication_year := Some year;
     pd_publication_type := PyStr kind;
     pd_journal_name := None;
     pd_authors := names;
     pd_keywords := kws |}.

Definition sample_pubs : list PubData :=
  [ sample "sample-1" "Microgravity Effects on Human Bone Density"
      "Microgravity accelerates bone density loss in astronauts. Countermeasures include resistance exercise and nutritional interventions."
      ["Smith, J."; "Johnson, M."] 2014 "journal_article"
      ["microgravity"; "bone density"; "astronauts"; "exercise"];
    sample "sample-2" "Plant Growth Dynamics in Spaceflight"
      "Arabidopsis exhibits altered root morphology and gene expression in microgravity. Light directionality affects auxin transport and growth."
      ["Davis, K."; "Wilson, P."] 2018 "journal_article"
      ["arabidopsis"; "microgravity"; "plant growth"; "auxin"];
    sample "sample-3" "Immune Response Modulation under Space Conditions"
      "Spaceflight suppresses certain immune pathways while upregulating stress responses. Findings inform crew health risk assessments."
      ["Brown, L."; "Taylor, R."] 2019 "technical_report"
      ["immune response"; "spaceflight"; "stress"; "crew health"] ].

(** [def seed_sample_publications(db_session)]: an exception of
    [create_publication] is printed and the loop goes on. *)
Definition seed_sample_publications (db : DB) : DB :=
  fold_left (fun d pub_data => fst (create_publication d pub_data)) sample_pubs db.

(** [SessionLocal()]: a new session on the same database. *)
Definition open_session (db : DB) : DB :=
  {| publications := publications db; authors := authors db; keywords := keywords db;
     publication_authors := publication_authors db;
     publication_keywords := publication_keywords db;
     search_index := search_index db; data_sources := data_sources db;
     session_active := true |}.

(** [def main()]: the three steps in turn; an exception ends the run. *)
Definition main (s : Store) : Store :=
  let s0 := {| store_db := open_session (store_db s);
               store_missions := store_missions s |} in
  match init_missions s0 with
  | (s1, Raise _) => s1
  | (s1, Return _) =>
      match init_data_sources (store_db s1) with
      | (db2, Raise _) => {| store_db := db2; store_missions := store_missions s1 |}
      | (db2, Return _) =>
          {| store_db := seed_sample_publications db2;
             store_missions := store_missions s1 |}
      end
  end.

End Init.

(** ** Reference definitions for the further properties *)

Module SummarySpec.
Import Py Summary.

(** A string that starts, and one that ends, with a character other than
    whitespace. *)
Definition starts_visible (s : string) : bool :=
  match s with
  | EmptyString => false
  | String c _ => negb (is_space c)
  end.

Fixpoint ends_visible (s : string) : bool :=
  match s with
  | EmptyString => false
  | String c EmptyString => negb (is_space c)
  | String _ s' => ends_visible s'
  end.

(** A string without outer whitespace that is not empty. *)
Definition visible (s : string) : bool := starts_visible s && ends_visible s.

(** A string that ends with one of [.!?]. *)
Fixpoint ends_sentence (s : string) : bool :=
  match s with
  | EmptyString => false
  | String c EmptyString => is_terminator c
  | String _ s' => ends_sentence s'
  end.

(** Every member of the list but the last one satisfies [p]. *)
Fixpoint all_but_last {X : Type} (p : X -> bool) (l : list X) : bool :=
  match l with
  | [] => true
  | [_] => true
  | x :: l' => p x && all_but_last p l'
  end.

(** The pieces with a separator between each two neighbours. *)
Fixpoint weave (pieces seps : list string) : string :=
  match pieces, seps with
  | [], _ => EmptyString
  | p :: _, [] => p
  | p :: pieces', s :: seps' => p ++ s ++ weave pieces' seps'
  end.

(** A non-empty run of whitespace. *)
Definition blank_run (s : string) : bool := truthy s && all_chars is_space s.

End SummarySpec.

Module DateSpec.
Import Py.

(** What stands behind a calendar date: nothing, or a character other
    than the letter T that opens the time of day. *)
Definition no_time_of_day (rest : string) : bool :=
  match rest with
  | EmptyString => true
  | String c _ => negb (Ascii.eqb (lower_char c) "t")
  end.

End DateSpec.

Module VectorSpec.

(** A finite sum of real numbers. *)
Definition Rsum (xs : list R) : R := fold_right Rplus 0%R xs.

End VectorSpec.

(** *** Consistency of the store

    What the tables of a store hold when they are read together: the
    constraints that the schema declares, and the ones that the service
    relies on. *)

Module StoreSpec.
Import Py Fetcher Service.

(** Primary keys. *)
Definition keys_unique (db : DB) : Prop :=
  NoDup (map id (publications db)) /\
  NoDup (map author_id (authors db)) /\
  NoDup (map keyword_id (keywords db)).

(** One row per author name and per keyword term. *)
Definition names_unique (db : DB) : Prop :=
  NoDup (map name (authors db)) /\ NoDup (map term (keywords db)).

(** Foreign keys of the two association tables. *)
Definition links_resolve (db : DB) : Prop :=
  (forall pid aid, In (pid, aid) (publication_authors db) ->
     In pid (map id (publications db)) /\ In aid (map author_id (authors db))) /\
  (forall pid kid, In (pid, kid) (publication_keywords db) ->
     In pid (map id (publications db)) /\ In kid (map keyword_id (keywords db))).

(** No link is stored twice. *)
Definition links_unique (db : DB) : Prop :=
  NoDup (publication_authors db) /\ NoDup (publication_keywords db).

Definition consistent (db : DB) : Prop :=
  keys_unique db /\ names_unique db /\ links_resolve db /\ links_unique db.

(** The number of publications a keyword is linked to. *)
Definition link_count (db : DB) (kid : Z) : Z :=
  Z.of_nat (List.length (filter (fun r => snd r =? kid) (publication_keywords db))).

(** No usage counter is below the number of links of its keyword. *)
Definition counters_cover (db : DB) : Prop :=
  forall k, In k (keywords db) -> link_count db (keyword_id k) <= usage_count k.

(** One row of the search index per publication, in the same order. *)
Definition indexed (db : DB) : Prop :=
  map publication_id (search_index db) = map id (publications db).

(** The labels of the two classifiers. *)
Definition organism_labels : list string :=
  (map fst organism_rules ++ ["Other"])%list.

Definition domain_labels : list string :=
  (map fst domain_rules ++ ["General"])%list.

Definition labelled (db : DB) : Prop :=
  Forall (fun p => In (organism_type p) organism_labels /\
                   In (research_domain p) domain_labels) (publications db).

(** A record whose [nasa_id] is carried by a stored publication. *)
Definition stored (db : DB) (pub_data : PubData) : Prop :=
  find (nasa_id_is (pd_nasa_id pub_data)) (publications db) <> None.

(** The number of records counted so far for a source: the counter of the
    first row of that name. *)
Definition tally (db : DB) (source_name : string) : Z :=
  match find (fun d => String.eqb (ds_name d) source_name) (data_sources db) with
  | Some d => total_records d
  | None => 0
  end.

(** The usage counter of a term: that of the first keyword row with the
    term, zero when there is none. *)
Definition usage (db : DB) (t : string) : Z :=
  match find (fun k => String.eqb (term k) t) (keywords db) with
  | Some k => usage_count k
  | None => 0
  end.

End StoreSpec.

(** ** Further sample data *)

Module Samples.
Import Py Fetcher Service Summary.

(** No key is set: the language model is never asked. *)
Definition no_model : Gemini :=
  {| configure_gemini := false; gemini_summary := fun _ _ => None |}.

Definition bone_request : SummarizeRequest :=
  {| req_text := "  Bone loss in orbit. Bone density drops! More data?  ";
     req_language := "EN" |}.

(** A record whose title is null: the database refuses it. *)
Definition untitled : PubData :=
  {| pd_nasa_id := Some "ntrs-2";
     pd_title := PyNone;
     pd_abstract := PyStr "An abstract without a title";
     pd_doi := None;
     pd_url := None;
     pd_publication_date := None;
     pd_publication_year := Some 2016;
     pd_publication_type := PyStr "technical_report";
     pd_journal_name := None;
     pd_authors := ["Lee, K."];
     pd_keywords := ["orbit"] |}.

Definition orbit_study : PubData :=
  Examples.record "ntrs-3" "Sleep in orbit" 2017 ["Lee, K."] ["orbit"; "sleep"].

(** A search for the mission ISS. *)
Definition iss_request : Api.SearchRequest :=
  {| Api.sreq_query := "";
     Api.sreq_filters :=
       Some {| Api.rf_organism := None; Api.rf_mission := Some "ISS"; Api.rf_year := None |};
     Api.sreq_limit := 20;
     Api.sreq_offset := 0 |}.

End Samples.

(** ** Properties *)

Import Py.

(** *** Text normaliser *)

Section Tokens.
Import Main Spec.

Lemma append_empty_r (s : string) : s ++ "" = s.
Proof. induction s as [|c s IH]; simpl; [reflexivity | now rewrite IH]. Qed.

Lemma append_assoc (a b c : string) : (a ++ b) ++ c = a ++ (b ++ c).
Proof. induction a as [|x a IH]; simpl; [reflexivity | now rewrite IH]. Qed.

Lemma split_not_nil (s : string) : _TOKEN_SPLIT_split s <> [].
Proof.
  induction s as [|c s IH]; simpl; [discriminate |].
  destruct (is_alnum_lower c).
  - destruct (_TOKEN_SPLIT_split s); discriminate.
  - destruct s as [|c' s']; [discriminate |].
    destruct (is_alnum_lower c'); [discriminate | exact IH].
Qed.

Lemma split_cons_alnum (c : ascii) (s : string) :
  is_alnum_lower c = true ->
  _TOKEN_SPLIT_split (String c s) =
  match _TOKEN_SPLIT_split s with
  | p :: ps => String c p :: ps
  | [] => [String c ""]
  end.
Proof. intros Hc. simpl. now rewrite Hc. Qed.

Lemma split_cons_separator (c : ascii) (s : string) :
  is_alnum_lower c = false ->
  _TOKEN_SPLIT_split (String c s) =
  match s with
  | String c' _ =>
      if is_alnum_lower c' then "" :: _TOKEN_SPLIT_split s else _TOKEN_SPLIT_split s
  | EmptyString => "" :: _TOKEN_SPLIT_split s
  end.
Proof. intros Hc. simpl. rewrite Hc. now destruct s. Qed.

(** A text that starts with a separator splits with an empty first piece. *)
Lemma split_head_separator (c : ascii) (s : string) :
  is_alnum_lower c = false ->
  exists tl, _TOKEN_SPLIT_split (String c s) = "" :: tl.
Proof.
  revert c. induction s as [|c' s IH]; intros c Hc;
    rewrite (split_cons_separator c _ Hc).
  - now eexists.
  - destruct (is_alnum_lower c') eqn:Hc'; [now eexists | exact (IH c' Hc')].
Qed.

(** Gluing the word under construction onto the first piece gives the
    words of the reference definition. *)
Lemma glue_split_words (s cur : string) :
  filter truthy
    match _TOKEN_SPLIT_split s with
    | p :: ps => (cur ++ p) :: ps
    | [] => [cur]
    end = words_from cur s.
Proof.
  revert cur. induction s as [|c s IH]; intros cur.
  - simpl. rewrite append_empty_r. unfold emit. now destruct (truthy cur).
  - destruct (is_alnum_lower c) eqn:Hc.
    + simpl words_from. rewrite Hc, <- IH, (split_cons_alnum c s Hc).
      pose proof (split_not_nil s) as Hne.
      destruct (_TOKEN_SPLIT_split s) as [|p ps]; [congruence |].
      now rewrite append_assoc.
    + simpl words_from. rewrite Hc, <- (IH ""), (split_cons_separator c s Hc).
      assert (Hemit : forall l, filter truthy ((cur ++ "") :: l)
                                = (emit cur ++ filter truthy l)%list).
      { intros l. rewrite append_empty_r. unfold emit. simpl. now destruct (truthy cur). }
      pose proof (split_not_nil s) as Hne.
      destruct s as [|c' s'].
      * rewrite Hemit. destruct (_TOKEN_SPLIT_split ""); [congruence | reflexivity].
      * destruct (is_alnum_lower c') eqn:Hc'.
        -- rewrite Hemit.
           destruct (_TOKEN_SPLIT_split (String c' s')); [congruence | reflexivity].
        -- destruct (split_head_separator c' s' Hc') as [tl ->].
           rewrite Hemit. reflexivity.
Qed.

Lemma nonempty_pieces_are_words (s : string) :
  filter truthy (_TOKEN_SPLIT_split s) = words_from "" s.
Proof.
  rewrite <- glue_split_words.
  pose proof (split_not_nil s). destruct (_TOKEN_SPLIT_split s); [congruence | reflexivity].
Qed.

Lemma tokens_normalize (text : string) : _tokens text = normalize text.
Proof.
  unfold _tokens, normalize. rewrite nonempty_pieces_are_words.
  apply filter_ext. intros t. unfold retained. f_equal.
  destruct (Z.ltb_spec 1 (Z.of_nat (String.length t)));
    destruct (Z.leb_spec 2 (Z.of_nat (String.length t))); (reflexivity || lia).
Qed.

Lemma all_chars_app (p : ascii -> bool) (a b : string) :
  all_chars p (a ++ b) = all_chars p a && all_chars p b.
Proof. induction a as [|c a IH]; simpl; [reflexivity | now rewrite IH, andb_assoc]. Qed.

Lemma words_from_alnum (s cur : string) :
  all_chars is_alnum_lower cur = true ->
  Forall (fun w => all_chars is_alnum_lower w = true) (words_from cur s).
Proof.
  revert cur. induction s as [|c s IH]; intros cur Hcur; simpl.
  - unfold emit. destruct (truthy cur); auto.
  - destruct (is_alnum_lower c) eqn:Hc.
    + apply IH. rewrite all_chars_app, Hcur. simpl. now rewrite Hc.
    + apply Forall_app. split; [unfold emit; destruct (truthy cur); auto | now apply IH].
Qed.

(** C7: tokenisation lower-cases the text, splits it at runs of characters
    outside [a-z0-9], and keeps a token exactly when it is no stopword and
    longer than one character; the example sentence gives cat, dog. *)
Theorem tokens_lowercase_split_filter :
  (forall text, _tokens text = normalize text) /\
  (forall text t, In t (_tokens text) ->
     In t (words_from "" (lower text)) /\
     is_stopword t = false /\ (1 < String.length t)%nat /\
     all_chars is_alnum_lower t = true) /\
  (forall text t, In t (words_from "" (lower text)) ->
     is_stopword t = false -> (1 < String.length t)%nat -> In t (_tokens text)) /\
  _tokens "The Cat and THE dog." = ["cat"; "dog"].
Proof.
  split; [exact tokens_normalize |]. split; [| split].
  - intros text t Hin. rewrite tokens_normalize in Hin.
    unfold normalize in Hin. apply filter_In in Hin. destruct Hin as [Hw Hr].
    unfold retained in Hr. apply andb_true_iff in Hr. destruct Hr as [Hs Hl].
    repeat split.
    + exact Hw.
    + now apply negb_true_iff.
    + apply Z.leb_le in Hl. lia.
    + pose proof (words_from_alnum (lower text) "" eq_refl) as Hall.
      rewrite Forall_forall in Hall. now apply Hall.
  - intros text t Hw Hs Hl. rewrite tokens_normalize. unfold normalize.
    apply filter_In. split; [exact Hw |].
    unfold retained. rewrite Hs. simpl. apply Z.leb_le. lia.
  - reflexivity.
Qed.

End Tokens.

(** *** Keyword extractor *)

Section TopKeywords.
Import Main Spec.

Lemma StronglySorted_weaken {X : Type} (R R' : X -> X -> Prop) (l : list X) :
  (forall a b, R a b -> R' a b) -> StronglySorted R l -> StronglySorted R' l.
Proof.
  intros Himp Hs. induction Hs as [|x l Hs IH Hall]; constructor; [exact IH |].
  eapply Forall_impl; [| exact Hall]. intros b. apply Himp.
Qed.

Lemma insert_desc_perm (x : string * Z) (l : list (string * Z)) :
  Permutation (x :: l) (insert_desc x l).
Proof.
  induction l as [|y l IH]; simpl; [reflexivity |].
  destruct (snd x <? snd y); [| reflexivity].
  rewrite perm_swap. now constructor.
Qed.

Lemma sorted_desc_perm (l : list (string * Z)) : Permutation l (sorted_desc l).
Proof.
  induction l as [|x l IH]; simpl; [constructor |].
  rewrite <- insert_desc_perm. now constructor.
Qed.

Lemma insert_desc_sorted (R : string * Z -> string * Z -> Prop) x s :
  (forall a b, R a b -> snd b <= snd a) ->
  StronglySorted R s ->
  (forall y, In y s -> snd x < snd y -> R y x) ->
  (forall y, In y s -> snd y <= snd x -> R x y) ->
  StronglySorted R (insert_desc x s).
Proof.
  intros Hmono Hs Hgt Hle. induction Hs as [|y s Hs IH Hall]; simpl.
  - repeat constructor.
  - destruct (Z.ltb_spec (snd x) (snd y)) as [Hlt | Hge].
    + constructor.
      * apply IH; intros z Hz; [apply Hgt | apply Hle]; now right.
      * rewrite Forall_forall. intros z Hz.
        apply (Permutation_in _ (Permutation_sym (insert_desc_perm x s))) in Hz.
        destruct Hz as [<- | Hz]; [apply Hgt; [now left | exact Hlt] |].
        rewrite Forall_forall in Hall. now apply Hall.
    + constructor; [now constructor |].
      rewrite Forall_forall. intros z [<- | Hz].
      * apply Hle; [now left | lia].
      * apply Hle; [now right |].
        rewrite Forall_forall in Hall. specialize (Hmono _ _ (Hall z Hz)). lia.
Qed.

(** The stable sort: larger counts first, and among equal counts the
    order of the input. *)
Lemma sorted_desc_stable (l : list (string * Z)) :
  StronglySorted
    (fun x y => snd y < snd x \/ (snd x = snd y /\ precedes l x y))
    (sorted_desc l).
Proof.
  induction l as [|x l IH]; simpl; [constructor |].
  apply insert_desc_sorted.
  - intros a b [H | [H _]]; lia.
  - eapply StronglySorted_weaken; [| exact IH].
    intros a b [H | [H (l1 & l2 & -> & Hin)]]; [now left | right].
    split; [exact H |]. now exists (x :: l1), l2.
  - intros y _ Hlt. now left.
  - intros y Hy Hle.
    destruct (Z.eq_dec (snd y) (snd x)) as [Heq | Hne]; [right | left; lia].
    split; [now symmetry |]. exists [], l. split; [reflexivity |].
    now apply (Permutation_in _ (Permutation_sym (sorted_desc_perm l))).
Qed.

(** Facts about the insertion-ordered [dict]. *)

Lemma dict_mem_In {V : Type} (d : list (string * V)) (k : string) :
  dict_mem d k = true <-> In k (dict_keys d).
Proof.
  unfold dict_mem. rewrite existsb_exists. split.
  - intros (x & Hx & Heq). apply String.eqb_eq in Heq. now subst.
  - intros H. exists k. split; [exact H | apply String.eqb_refl].
Qed.

Lemma dict_set_new {V : Type} (d : list (string * V)) (k : string) (v : V) :
  ~ In k (dict_keys d) -> dict_set d k v = (d ++ [(k, v)])%list.
Proof.
  induction d as [|[k' v'] d IH]; simpl; intros Hk; [reflexivity |].
  destruct (String.eqb_spec k' k) as [-> | Hne]; [tauto |].
  rewrite IH; [reflexivity | tauto].
Qed.

Lemma dict_set_keys {V : Type} (d : list (string * V)) (k : string) (v : V) :
  In k (dict_keys d) -> dict_keys (dict_set d k v) = dict_keys d.
Proof.
  induction d as [|[k' v'] d IH]; simpl; intros Hk; [tauto |].
  destruct (String.eqb_spec k' k) as [-> | Hne]; simpl; [reflexivity |].
  rewrite IH; [reflexivity | tauto].
Qed.

Lemma dict_set_entries {V : Type} (d : list (string * V)) (k : string) (v : V) t c :
  NoDup (dict_keys d) ->
  In (t, c) (dict_set d k v) ->
  (t = k /\ c = v) \/ (t <> k /\ In (t, c) d).
Proof.
  induction d as [|[k' v'] d IH]; simpl; intros Hnd Hin.
  - destruct Hin as [[= <- <-] | []]. now left.
  - inversion Hnd as [|? ? Hk' Hnd']; subst.
    destruct (String.eqb_spec k' k) as [-> | Hne].
    + destruct Hin as [[= <- <-] | Hin]; [now left | right].
      split; [| now right]. intros Heq. apply Hk'.
      apply (in_map fst) in Hin. simpl in Hin. now rewrite <- Heq.
    + destruct Hin as [[= <- <-] | Hin]; [right; split; [exact Hne | now left] |].
      destruct (IH Hnd' Hin) as [? | [? ?]]; [now left | right; split; [assumption | now right]].
Qed.

Lemma dict_get_entry {V : Type} (d : list (string * V)) (t : string) (c default : V) :
  NoDup (dict_keys d) -> In (t, c) d -> dict_get d t default = c.
Proof.
  induction d as [|[k' v'] d IH]; simpl; intros Hnd Hin; [tauto |].
  inversion Hnd as [|? ? Hk' Hnd']; subst.
  destruct Hin as [[= -> ->] | Hin]; [now rewrite String.eqb_refl |].
  destruct (String.eqb_spec k' t) as [-> | Hne]; [| now apply IH].
  exfalso. apply Hk'. apply (in_map fst) in Hin. exact Hin.
Qed.

Lemma dict_get_absent {V : Type} (d : list (string * V)) (t : string) (default : V) :
  ~ In t (dict_keys d) -> dict_get d t default = default.
Proof.
  induction d as [|[k' v'] d IH]; simpl; intros Hk; [reflexivity |].
  destruct (String.eqb_spec k' t) as [-> | Hne]; [tauto | apply IH; tauto].
Qed.

Lemma count_tokens_snoc (toks : list string) (t : string) :
  count_tokens (toks ++ [t]) =
  dict_set (count_tokens toks) t (dict_get (count_tokens toks) t 0 + 1).
Proof. unfold count_tokens. now rewrite fold_left_app. Qed.

Lemma occurrences_snoc (toks : list string) (t x : string) :
  occurrences (toks ++ [t]) x = occurrences toks x + (if string_dec t x then 1 else 0).
Proof.
  unfold occurrences. rewrite count_occ_app. simpl.
  destruct (string_dec t x); lia.
Qed.

Lemma occurrences_absent (toks : list string) (t : string) :
  ~ In t toks -> occurrences toks t = 0.
Proof.
  intros H. unfold occurrences.
  now rewrite (proj1 (count_occ_not_In string_dec toks t) H).
Qed.

Lemma occurrences_present (toks : list string) (t : string) :
  In t toks -> 0 < occurrences toks t.
Proof.
  intros H. unfold occurrences.
  apply (count_occ_In string_dec) in H. lia.
Qed.

(** The first occurrence of a member splits the list. *)
Lemma first_occurrence (toks : list string) (a : string) :
  In a toks -> exists l1 l2, toks = (l1 ++ a :: l2)%list /\ ~ In a l1.
Proof.
  induction toks as [|x toks IH]; [intros [] |]. intros Hin.
  destruct (string_dec x a) as [-> | Hne].
  - exists [], toks. now split.
  - destruct Hin as [-> | Hin]; [congruence |].
    destruct (IH Hin) as (l1 & l2 & -> & Hl1).
    exists (x :: l1), l2. split; [reflexivity |]. intros [-> | H]; tauto.
Qed.

Lemma seen_before_snoc (toks : list string) (t a b : string) :
  seen_before toks a b -> seen_before (toks ++ [t]) a b.
Proof.
  intros (l1 & l2 & -> & H). exists l1, (l2 ++ [t])%list.
  split; [now rewrite <- app_assoc | exact H].
Qed.

Lemma precedes_snoc {X : Type} (l : list X) (z a b : X) :
  precedes (l ++ [z]) a b -> precedes l a b \/ (In a l /\ b = z).
Proof.
  intros (l1 & l2 & Heq & Hin).
  destruct (exists_last (l := l2)) as (l2' & y & ->).
  { intros ->. destruct Hin. }
  change (l1 ++ a :: l2' ++ [y])%list with (l1 ++ (a :: l2') ++ [y])%list in Heq.
  rewrite app_assoc in Heq. apply app_inj_tail in Heq. destruct Heq as [-> ->].
  apply in_app_or in Hin. destruct Hin as [Hin | [-> | []]].
  - left. now exists l1, l2'.
  - right. split; [| reflexivity]. apply in_or_app. right. now left.
Qed.

(** What the counting loop has built after reading [toks]: one entry per
    distinct token, in order of first appearance, holding its number of
    occurrences. *)
Lemma count_tokens_invariant (toks : list string) :
  NoDup (dict_keys (count_tokens toks)) /\
  (forall t, In t (dict_keys (count_tokens toks)) <-> In t toks) /\
  (forall t c, In (t, c) (count_tokens toks) -> c = occurrences toks t) /\
  (forall a b, precedes (dict_keys (count_tokens toks)) a b -> seen_before toks a b).
Proof.
  induction toks as [|t toks IH] using rev_ind.
  - simpl. repeat split; try constructor; try tauto.
    intros a b (l1 & l2 & Heq & _). now destruct l1.
  - destruct IH as (Hnd & Hkeys & Hcnt & Hord).
    rewrite count_tokens_snoc.
    set (l := count_tokens toks) in *.
    destruct (in_dec string_dec t (dict_keys l)) as [Hin | Hnin].
    + (* a token seen before: its entry is updated in place *)
      assert (Hget : dict_get l t 0 = occurrences toks t).
      { apply in_map_iff in Hin. destruct Hin as ([t' c] & Ht & Hin). simpl in Ht. subst t'.
        rewrite (dict_get_entry l t c 0 Hnd Hin). now apply Hcnt. }
      rewrite (dict_set_keys l t _ Hin). repeat split.
      * exact Hnd.
      * intros H. apply in_or_app. left. now apply Hkeys.
      * intros H. apply in_app_or in H. destruct H as [H | [<- | []]];
          [now apply Hkeys | exact Hin].
      * intros x c Hx. apply (dict_set_entries l t _ x c Hnd) in Hx.
        rewrite occurrences_snoc. destruct Hx as [[-> ->] | [Hne Hx]].
        -- rewrite Hget. destruct (string_dec t t); [reflexivity | congruence].
        -- rewrite (Hcnt x c Hx). destruct (string_dec t x); [congruence | lia].
      * intros a b H. apply seen_before_snoc. now apply Hord.
    + (* a new token: its entry goes last *)
      assert (Hnew : ~ In t toks) by (intros H; apply Hnin; now apply Hkeys).
      rewrite (dict_set_new l t _ Hnin), (dict_get_absent l t 0 Hnin).
      unfold dict_keys in *. rewrite map_app. simpl. repeat split.
      * apply NoDup_app_remove_l with (l := []). simpl.
        apply Permutation_NoDup with (l := t :: map fst l).
        -- apply Permutation_cons_append.
        -- now constructor.
      * intros H. apply in_app_or in H. apply in_or_app.
        destruct H as [H | H]; [left; now apply Hkeys | now right].
      * intros H. apply in_app_or in H. apply in_or_app.
        destruct H as [H | H]; [left; now apply Hkeys | now right].
      * intros x c Hx. rewrite occurrences_snoc.
        apply in_app_or in Hx. destruct Hx as [Hx | [[= <- <-] | []]].
        -- rewrite (Hcnt x c Hx). destruct (string_dec t x) as [<- | ?]; [| lia].
           exfalso. apply Hnin. apply (in_map fst) in Hx. exact Hx.
        -- rewrite (occurrences_absent toks t Hnew).
           destruct (string_dec t t); [reflexivity | congruence].
      * intros a b H. apply precedes_snoc in H. destruct H as [H | [Ha ->]].
        -- apply seen_before_snoc. now apply Hord.
        -- apply Hkeys in Ha.
           destruct (first_occurrence toks a Ha) as (l1 & l2 & -> & Hl1).
           exists l1, (l2 ++ [t])%list. split; [now rewrite <- app_assoc |].
           split; [exact Hl1 |]. split.
           ++ intros H. apply Hnew. apply in_or_app. now left.
           ++ intros ->. apply Hnew. apply in_or_app. right. now left.
Qed.

Lemma StronglySorted_weaken_in {X : Type} (R R' : X -> X -> Prop) (l : list X) :
  (forall a b, In a l -> In b l -> R a b -> R' a b) ->
  StronglySorted R l -> StronglySorted R' l.
Proof.
  intros Himp Hs. induction Hs as [|x l Hs IH Hall]; constructor.
  - apply IH. intros a b Ha Hb. apply Himp; now right.
  - rewrite Forall_forall in *. intros b Hb.
    apply Himp; [now left | now right | now apply Hall].
Qed.

Lemma StronglySorted_map {X Y : Type} (f : X -> Y) (R : Y -> Y -> Prop) (l : list X) :
  StronglySorted (fun a b => R (f a) (f b)) l -> StronglySorted R (map f l).
Proof.
  intros Hs. induction Hs as [|x l Hs IH Hall]; simpl; constructor; [exact IH |].
  rewrite Forall_forall in *. intros y Hy.
  apply in_map_iff in Hy. destruct Hy as (b & <- & Hb). now apply Hall.
Qed.

Lemma StronglySorted_firstn {X : Type} (R : X -> X -> Prop) (n : nat) (l : list X) :
  StronglySorted R l -> StronglySorted R (firstn n l).
Proof.
  intros Hs. revert n. induction Hs as [|x l Hs IH Hall]; intros [|n]; simpl;
    try constructor; [apply IH |].
  rewrite Forall_forall in *. intros y Hy. apply Hall.
  rewrite <- (firstn_skipn n l). apply in_or_app. now left.
Qed.

Lemma StronglySorted_across {X : Type} (R : X -> X -> Prop) (n : nat) (l : list X) a b :
  StronglySorted R l -> In a (firstn n l) -> In b (skipn n l) -> R a b.
Proof.
  intros Hs. revert n. induction Hs as [|x l Hs IH Hall]; intros [|n]; simpl; try tauto.
  intros [<- | Ha] Hb.
  - rewrite Forall_forall in Hall. apply Hall.
    rewrite <- (firstn_skipn n l). apply in_or_app. now right.
  - now apply (IH n).
Qed.

Lemma precedes_map {X Y : Type} (f : X -> Y) (l : list X) (x y : X) :
  precedes l x y -> precedes (map f l) (f x) (f y).
Proof.
  intros (l1 & l2 & -> & Hin). exists (map f l1), (map f l2).
  split; [now rewrite map_app | now apply in_map].
Qed.

(** The full ranking: every distinct token, larger counts first, equal
    counts in order of first appearance. *)
Lemma ranking_sorted (toks : list string) :
  StronglySorted (ranks_before toks) (map fst (sorted_desc (count_tokens toks))).
Proof.
  destruct (count_tokens_invariant toks) as (_ & _ & Hcnt & Hord).
  apply StronglySorted_map.
  eapply StronglySorted_weaken_in; [| apply sorted_desc_stable].
  intros [a ca] [b cb] Ha Hb Hab. simpl in *.
  apply (Permutation_in _ (Permutation_sym (sorted_desc_perm _))) in Ha, Hb.
  rewrite (Hcnt a ca Ha), (Hcnt b cb Hb) in Hab.
  destruct Hab as [Hlt | [Heq Hpre]]; [now left | right].
  split; [exact Heq |]. apply Hord.
  apply (precedes_map fst) in Hpre. exact Hpre.
Qed.

Lemma ranking_members (toks : list string) :
  NoDup (map fst (sorted_desc (count_tokens toks))) /\
  (forall t, In t (map fst (sorted_desc (count_tokens toks))) <-> In t toks).
Proof.
  destruct (count_tokens_invariant toks) as (Hnd & Hkeys & _ & _).
  assert (Hp : Permutation (dict_keys (count_tokens toks))
                           (map fst (sorted_desc (count_tokens toks)))).
  { unfold dict_keys. apply Permutation_map, sorted_desc_perm. }
  split.
  - exact (Permutation_NoDup Hp Hnd).
  - intros t. rewrite <- Hkeys. split; intros H.
    + exact (Permutation_in _ (Permutation_sym Hp) H).
    + exact (Permutation_in _ Hp H).
Qed.

Lemma ranking_length (toks : list string) :
  List.length (map fst (sorted_desc (count_tokens toks)))
  = List.length (nodup string_dec toks).
Proof.
  destruct (ranking_members toks) as (Hnd & Hin).
  apply Permutation_length, NoDup_Permutation.
  - exact Hnd.
  - apply NoDup_nodup.
  - intros t. rewrite Hin. symmetry. apply nodup_In.
Qed.

Lemma top_keywords_nonneg (text : string) (k : Z) :
  0 <= k ->
  _top_keywords text k
  = firstn (Z.to_nat k) (map fst (sorted_desc (count_tokens (_tokens text)))).
Proof.
  intros Hk. unfold _top_keywords, slice_to.
  destruct (Z.leb_spec 0 k); [| lia]. now rewrite firstn_map.
Qed.

(** C8, as amended: for [k >= 0] the extractor returns the first [k]
    entries of the ranking of the distinct retained tokens (all of them
    when there are fewer than [k]), ordered by descending frequency with
    ties in order of first appearance; for [k >= 1] a token that occurs
    more often than every other one comes first, in particular one that
    occurs five times among tokens that occur once. *)
Theorem top_keywords_ranked (text : string) (k : Z) :
  0 <= k ->
  let toks := _tokens text in
  let out := _top_keywords text k in
  Z.of_nat (List.length out) = Z.min k (Z.of_nat (List.length (nodup string_dec toks))) /\
  Z.of_nat (List.length out) <= k /\
  StronglySorted (ranks_before toks) out /\
  NoDup out /\
  (forall t, In t out -> In t toks) /\
  (forall a b, In a out -> In b toks -> ~ In b out -> ranks_before toks a b) /\
  (forall w, 1 <= k -> In w toks ->
     (forall t, In t toks -> t <> w -> occurrences toks t < occurrences toks w) ->
     hd_error out = Some w) /\
  (forall w, 1 <= k -> occurrences toks w = 5 ->
     (forall t, In t toks -> t <> w -> occurrences toks t = 1) ->
     hd_error out = Some w).
Proof.
  intros Hk toks out. subst out. rewrite (top_keywords_nonneg text k Hk). fold toks.
  set (ranking := map fst (sorted_desc (count_tokens toks))).
  pose proof (ranking_sorted toks) as Hsorted. fold ranking in Hsorted.
  destruct (ranking_members toks) as (Hnd & Hin). fold ranking in Hnd, Hin.
  pose proof (ranking_length toks) as Hlen. fold ranking in Hlen.
  assert (Hhead : forall w, 1 <= k -> In w toks ->
     (forall t, In t toks -> t <> w -> occurrences toks t < occurrences toks w) ->
     hd_error (firstn (Z.to_nat k) ranking) = Some w).
  { intros w Hk1 Hw Hmax. apply Hin in Hw.
    destruct (Z.to_nat k) as [|n] eqn:Hn; [lia |].
    destruct ranking as [|x rest]; [destruct Hw |]. simpl. f_equal.
    destruct (string_dec x w) as [-> | Hne]; [reflexivity | exfalso].
    destruct Hw as [-> | Hw]; [congruence |].
    inversion Hsorted as [|? ? _ Hall]; subst. rewrite Forall_forall in Hall.
    assert (Hx : In x toks) by (apply Hin; now left).
    specialize (Hmax x Hx Hne).
    destruct (Hall w Hw) as [H | [H _]]; lia. }
  repeat split.
  - rewrite length_firstn, <- Hlen. lia.
  - rewrite length_firstn. lia.
  - now apply StronglySorted_firstn.
  - rewrite <- (firstn_skipn (Z.to_nat k) ranking) in Hnd.
    now apply NoDup_app_remove_r in Hnd.
  - intros t Ht. apply Hin. rewrite <- (firstn_skipn (Z.to_nat k) ranking).
    apply in_or_app. now left.
  - intros a b Ha Hb Hnb. apply (StronglySorted_across _ (Z.to_nat k) ranking); trivial.
    apply Hin in Hb. rewrite <- (firstn_skipn (Z.to_nat k) ranking) in Hb.
    apply in_app_or in Hb. tauto.
  - exact Hhead.
  - intros w Hk1 H5 H1. apply Hhead; trivial.
    + destruct (in_dec string_dec w toks) as [H | H]; [exact H |].
      rewrite (occurrences_absent toks w H) in H5. discriminate.
    + intros t Ht Hne. rewrite (H1 t Ht Hne), H5. lia.
Qed.

Lemma top_keywords_ranked_witness :
  0 <= 3 /\
  Z.of_nat (List.length (_top_keywords "owl cat dog cat emu cat cat fox cat" 3)) <= 3 /\
  hd_error (_top_keywords "owl cat dog cat emu cat cat fox cat" 3) = Some "cat".
Proof.
  split; [lia |].
  destruct (top_keywords_ranked "owl cat dog cat emu cat cat fox cat" 3 ltac:(lia))
    as (_ & Hlen & _ & _ & _ & _ & _ & Hfive).
  split; [exact Hlen |].
  apply Hfive; [lia | reflexivity |].
  intros t Ht Hne. vm_compute in Ht.
  repeat (destruct Ht as [<- | Ht]; [first [reflexivity | congruence] |]).
  destruct Ht.
Defined.

(** C8, as stated, fails outside [k >= 1]: a negative [k] makes the slice
    drop entries from the end of the ranking, so two tokens come back for
    [k = -1]; and for [k = 0] nothing comes back, the repeated token
    included. *)
Lemma top_keywords_small_k :
  _top_keywords "aa bb cc" (-1) = ["aa"; "bb"] /\
  ~ (Z.of_nat (List.length (_top_keywords "aa bb cc" (-1))) <= -1) /\
  hd_error (_top_keywords "cat cat cat cat cat dog emu fox owl" 0) = None.
Proof.
  split; [reflexivity |]. split; [| reflexivity].
  vm_compute. intros H. now apply H.
Qed.

End TopKeywords.

(** *** Cosine similarity *)

(** Facts about the double precision arithmetic, from the specification
    of the primitive operations. *)
Section CosineBinary64.
Import Main Spec.

Lemma key_union_In {A : Arith} (q d : list (string * num A)) (t : string) :
  In t (key_union q d) <-> In t (dict_keys q) \/ In t (dict_keys d).
Proof.
  unfold key_union. rewrite in_app_iff, filter_In, negb_true_iff. split.
  - tauto.
  - intros [H | H]; [now left |].
    destruct (dict_mem q t) eqn:Hm; [left; now apply dict_mem_In | now right].
Qed.

Lemma finite_positive_spec (v : float) :
  finite_positive v = true -> exists m e, Prim2SF v = S754_finite false m e.
Proof.
  unfold finite_positive. rewrite andb_true_iff, !FloatAxioms.ltb_spec.
  replace (Prim2SF 0) with (S754_zero false) by reflexivity.
  replace (Prim2SF infinity) with (S754_infinity false) by reflexivity.
  unfold SFltb, SFcompare.
  destruct (Prim2SF v) as [s | s | | s m e]; intros [H1 H2]; try discriminate.
  - destruct s; discriminate.
  - destruct s; [discriminate | eauto].
Qed.

Lemma shr_1_nonneg (mrs : shr_record) : 0 <= shr_m mrs -> 0 <= shr_m (shr_1 mrs).
Proof.
  destruct mrs as [m r s]. destruct m as [|p|p]; simpl; intros H; try lia.
  - destruct p; simpl; lia.
Qed.

Lemma iter_shr_1_nonneg (p : positive) (mrs : shr_record) :
  0 <= shr_m mrs -> 0 <= shr_m (SpecFloat.iter_pos shr_1 p mrs).
Proof.
  revert mrs. induction p as [p IH | p IH |]; intros mrs H; simpl.
  - apply IH, IH, shr_1_nonneg, H.
  - apply IH, IH, H.
  - apply shr_1_nonneg, H.
Qed.

Lemma shr_fexp_nonneg (m e : Z) (l : location) :
  0 <= m -> 0 <= shr_m (fst (shr_fexp prec emax m e l)).
Proof.
  intros H. unfold shr_fexp, shr.
  assert (H0 : 0 <= shr_m (shr_record_of_loc m l)) by (destruct l as [|[]]; exact H).
  destruct (fexp prec emax (Zdigits2 m + e) - e); simpl; trivial.
  now apply iter_shr_1_nonneg.
Qed.

Lemma round_nearest_even_nonneg (m : Z) (l : location) :
  0 <= m -> 0 <= round_nearest_even m l.
Proof.
  intros H. destruct l as [|[]]; simpl; try lia. destruct (Z.even m); lia.
Qed.

Lemma binary_round_aux_nonneg (m e : Z) (l : location) :
  0 <= m -> sf_nonneg (binary_round_aux prec emax false m e l).
Proof.
  intros H. unfold binary_round_aux.
  pose proof (shr_fexp_nonneg m e l H) as H1.
  destruct (shr_fexp prec emax m e l) as [mrs' e']. simpl in H1.
  pose proof (shr_fexp_nonneg _ e' loc_Exact
                (round_nearest_even_nonneg _ (loc_of_shr_record mrs') H1)) as H2.
  destruct (shr_fexp prec emax _ e' loc_Exact) as [mrs'' e'']. simpl in H2.
  destruct (shr_m mrs'') as [|p|p]; [exact I | | lia].
  match goal with |- context [if ?c then _ else _] => destruct c end; exact I.
Qed.

Lemma SFmul_positive (x y : spec_float) :
  sf_positive x -> sf_positive y -> sf_nonneg (SF64mul x y).
Proof.
  destruct x as [[]|[]| |[] mx ex]; try (intros []; fail);
  destruct y as [[]|[]| |[] my ey]; try (intros _ []; fail); intros _ _;
    try exact I.
  apply binary_round_aux_nonneg. lia.
Qed.

Lemma binary_normalize_nonneg (m e : Z) :
  0 <= m -> sf_nonneg (binary_normalize prec emax m e false).
Proof.
  intros H. destruct m as [|p|p]; [exact I | | lia].
  unfold binary_normalize, binary_round.
  destruct (shl_align p e _) as [mz ez]. apply binary_round_aux_nonneg. lia.
Qed.

Lemma SFadd_nonneg (x y : spec_float) :
  sf_nonneg x -> sf_nonneg y -> sf_nonneg (SF64add x y).
Proof.
  destruct x as [[]|[]| |[] mx ex]; try (intros []; fail);
  destruct y as [[]|[]| |[] my ey]; try (intros _ []; fail); intros _ _;
    try exact I.
  unfold SF64add, SFadd. apply binary_normalize_nonneg. simpl. lia.
Qed.

Lemma SFsqrt_nonneg (x : spec_float) : sf_nonneg x -> sf_nonneg (SF64sqrt x).
Proof.
  destruct x as [[]|[]| |[] mx ex]; try (intros []; fail); intros _; try exact I.
  unfold SF64sqrt, SFsqrt.
  destruct (SFsqrt_core_binary prec emax (Z.pos mx) ex) as [[mz ez] lz] eqn:Hcore.
  apply binary_round_aux_nonneg.
  unfold SFsqrt_core_binary in Hcore.
  match type of Hcore with
  | context [Z.sqrtrem ?n] =>
      pose proof (Z.sqrtrem_sqrt n) as Hs; destruct (Z.sqrtrem n) as [q r]
  end.
  simpl in Hs. injection Hcore as <- _ _. subst q. apply Z.sqrt_nonneg.
Qed.


Lemma digits2_pos_shift52 (m : positive) :
  Z.pos (digits2_pos (m~0~0~0~0~0~0~0~0~0~0~0~0~0~0~0~0~0~0~0~0~0~0~0~0~0~0~0~0~0~0~0~0~0~0~0~0~0~0~0~0~0~0~0~0~0~0~0~0~0~0~0~0))
  = Z.pos (digits2_pos m) + 52.
Proof. cbn [digits2_pos]. lia. Qed.

Lemma one_mul_finite (m : positive) (e : Z) :
  valid_binary (S754_finite false m e) = true ->
  SF64mul (S754_finite false 4503599627370496 (-52)) (S754_finite false m e)
  = S754_finite false m e.
Proof.
  intros Hv. unfold valid_binary, SpecFloat.valid_binary, bounded, canonical_mantissa in Hv.
  apply andb_true_iff in Hv. destruct Hv as [Hc Hb]. apply Z.eqb_eq in Hc.
  unfold SF64mul, SFmul. cbn [xorb Pos.mul].
  unfold binary_round_aux, shr_fexp at 1.
  cbn [Zdigits2]. rewrite digits2_pos_shift52.
  replace (Z.pos (digits2_pos m) + 52 + (-52 + e)) with (Z.pos (digits2_pos m) + e) by lia.
  rewrite Hc. replace (e - (-52 + e)) with 52 by lia.
  cbn [shr shr_record_of_loc SpecFloat.iter_pos shr_1 orb].
  cbn [shr_m loc_of_shr_record round_nearest_even].
  replace (-52 + e + 52) with e by lia.
  unfold shr_fexp. cbn [Zdigits2]. rewrite Hc, Z.sub_diag. cbn [shr shr_m shr_record_of_loc].
  now rewrite Hb.
Qed.

Lemma one_mul_positive (x : float) :
  sf_positive (Prim2SF x) -> PrimFloat.mul 1 x = x.
Proof.
  intros Hx. apply Prim2SF_inj. rewrite FloatAxioms.mul_spec.
  replace (Prim2SF 1) with (S754_finite false 4503599627370496 (-52)) by reflexivity.
  pose proof (Prim2SF_valid x) as Hv.
  destruct (Prim2SF x) as [s | [] | | [] m e]; try destruct Hx.
  - reflexivity.
  - now apply one_mul_finite.
Qed.

Lemma zero_mul_finite_positive (v : float) :
  finite_positive v = true -> PrimFloat.mul 0 v = 0%float.
Proof.
  intros Hv. destruct (finite_positive_spec v Hv) as (m & e & Hsf).
  apply Prim2SF_inj. rewrite FloatAxioms.mul_spec, Hsf. reflexivity.
Qed.

Lemma square_nonneg (v : float) :
  finite_positive v = true -> sf_nonneg (Prim2SF (PrimFloat.mul v v)).
Proof.
  intros Hv. destruct (finite_positive_spec v Hv) as (m & e & Hsf).
  rewrite FloatAxioms.mul_spec, Hsf. now apply SFmul_positive.
Qed.

Lemma sum_squares_nonneg (vs : list float) (acc : float) :
  sf_nonneg (Prim2SF acc) ->
  Forall (fun v => finite_positive v = true) vs ->
  sf_nonneg (Prim2SF (fold_left PrimFloat.add (map (fun v => PrimFloat.mul v v) vs) acc)).
Proof.
  intros Hacc Hvs. revert acc Hacc. induction Hvs as [|v vs Hv _ IH]; intros acc Hacc; simpl.
  - exact Hacc.
  - apply IH. rewrite FloatAxioms.add_spec. apply SFadd_nonneg; [exact Hacc | now apply square_nonneg].
Qed.

(** The clamped magnitude of a vector of finite positive weights is a
    positive number, possibly infinite. *)
Lemma magnitude_positive (d : list (string * float)) :
  (forall t v, In (t, v) d -> finite_positive v = true) ->
  sf_positive (Prim2SF (magnitude (A := Binary64) d)).
Proof.
  intros Hd. unfold magnitude, py_sum. cbn [sqrt mul add zero one is_zero Binary64].
  assert (Hs : sf_nonneg (Prim2SF (PrimFloat.sqrt
             (fold_left PrimFloat.add (map (fun v => PrimFloat.mul v v) (dict_values d)) 0%float)))).
  { rewrite FloatAxioms.sqrt_spec. apply SFsqrt_nonneg, sum_squares_nonneg; [exact I |].
    rewrite Forall_forall. intros v Hv. apply in_map_iff in Hv.
    destruct Hv as ([t v'] & <- & Hin). now apply (Hd t). }
  set (n := PrimFloat.sqrt _) in *.
  destruct (PrimFloat.eqb n PrimFloat.zero) eqn:Hz; [exact I |].
  rewrite FloatAxioms.eqb_spec in Hz.
  replace (Prim2SF PrimFloat.zero) with (S754_zero false) in Hz by reflexivity.
  destruct (Prim2SF n) as [[] | [] | | [] m e]; try destruct Hs; try exact I.
  discriminate.
Qed.

Lemma zero_div_positive (x : float) :
  sf_positive (Prim2SF x) -> PrimFloat.div 0 x = 0%float.
Proof.
  intros Hx. apply Prim2SF_inj. rewrite FloatAxioms.div_spec.
  replace (Prim2SF 0) with (S754_zero false) by reflexivity.
  destruct (Prim2SF x) as [s | [] | | [] m e]; try destruct Hx; reflexivity.
Qed.

Lemma positive_not_zero (x : float) :
  sf_positive (Prim2SF x) -> PrimFloat.eqb x 0 = false.
Proof.
  intros Hx. rewrite FloatAxioms.eqb_spec.
  replace (Prim2SF 0) with (S754_zero false) by reflexivity.
  destruct (Prim2SF x) as [s | [] | | [] m e]; try destruct Hx; reflexivity.
Qed.

Lemma mul_zero_finite_positive (v : float) :
  finite_positive v = true -> PrimFloat.mul v 0 = 0%float.
Proof.
  intros Hv. destruct (finite_positive_spec v Hv) as (m & e & Hsf).
  apply Prim2SF_inj. rewrite FloatAxioms.mul_spec, Hsf. reflexivity.
Qed.

Lemma dict_get_finite_positive (d : list (string * float)) (k : string) :
  (forall t v, In (t, v) d -> finite_positive v = true) ->
  In k (dict_keys d) -> finite_positive (dict_get d k 0%float) = true.
Proof.
  intros Hd Hk. induction d as [|[k' v'] d IH]; [destruct Hk |].
  simpl. destruct (String.eqb_spec k' k) as [-> | Hne].
  - apply (Hd k). now left.
  - apply IH.
    + intros t x Hx. apply (Hd t). now right.
    + destruct Hk as [Hk | Hk]; [simpl in Hk; congruence | exact Hk].
Qed.

Lemma fold_add_zeros (xs : list float) :
  Forall (fun x => x = 0%float) xs -> fold_left PrimFloat.add xs 0%float = 0%float.
Proof.
  induction 1 as [|x xs -> _ IH]; [reflexivity |]. simpl.
  change (PrimFloat.add 0 0) with 0%float. exact IH.
Qed.

(** Vectors without a common key have the dot product [0.0]: every
    product has a factor [0.0] and a finite one. *)
Lemma dot_disjoint_binary64 (q d : list (string * float)) :
  (forall t v, In (t, v) q -> finite_positive v = true) ->
  (forall t v, In (t, v) d -> finite_positive v = true) ->
  disjoint_keys q d ->
  dot (A := Binary64) q d = 0%float.
Proof.
  intros Hq Hd Hdis. unfold dot, py_sum. cbn [mul add zero Binary64].
  apply fold_add_zeros. rewrite Forall_forall. intros x Hx.
  apply in_map_iff in Hx. destruct Hx as (t & <- & Ht).
  apply (key_union_In (A := Binary64)) in Ht. unfold PrimFloat.zero.
  destruct (in_dec string_dec t (dict_keys q)) as [Hin | Hnin].
  - rewrite (dict_get_absent d t _ (Hdis t Hin)).
    apply mul_zero_finite_positive. now apply dict_get_finite_positive.
  - rewrite (dict_get_absent q t _ Hnin).
    apply zero_mul_finite_positive. apply dict_get_finite_positive; [exact Hd | tauto].
Qed.

Lemma nonneg_not_zero_positive (x : float) :
  sf_nonneg (Prim2SF x) -> PrimFloat.eqb x 0 = false -> sf_positive (Prim2SF x).
Proof.
  intros Hx Hz. rewrite FloatAxioms.eqb_spec in Hz.
  replace (Prim2SF 0) with (S754_zero false) in Hz by reflexivity.
  destruct (Prim2SF x) as [[] | [] | | [] m e]; try destruct Hx; try exact I.
  discriminate.
Qed.

(** A score that is returned for vectors without a common key is [0.0]. *)
Lemma cosine_disjoint_binary64 (q d : list (string * float)) (x : float) :
  (forall t v, In (t, v) q -> finite_positive v = true) ->
  (forall t v, In (t, v) d -> finite_positive v = true) ->
  disjoint_keys q d ->
  _cosine_sim (A := Binary64) q d = Return x -> x = 0%float.
Proof.
  intros Hq Hd Hdis. unfold _cosine_sim. rewrite (dot_disjoint_binary64 q d Hq Hd Hdis).
  cbn [mul div is_zero zero Binary64]. unfold PrimFloat.zero.
  destruct (PrimFloat.eqb _ 0) eqn:Hz; [discriminate |]. intros [= <-].
  apply zero_div_positive, nonneg_not_zero_positive; [| exact Hz].
  rewrite FloatAxioms.mul_spec. apply SFmul_positive; now apply magnitude_positive.
Qed.

(** The empty vector scores [0.0] against every vector of finite positive
    weights: the clamp makes the divisor the magnitude of the other
    vector, which is not zero. *)
Lemma cosine_empty_binary64 (d : list (string * float)) :
  (forall t v, In (t, v) d -> finite_positive v = true) ->
  _cosine_sim (A := Binary64) [] d = Return 0%float.
Proof.
  intros Hd.
  assert (Hdot : dot (A := Binary64) [] d = 0%float).
  { apply dot_disjoint_binary64; [intros t v [] | exact Hd | intros t []]. }
  unfold _cosine_sim. rewrite Hdot.
  replace (magnitude (A := Binary64) []) with 1%float by reflexivity.
  pose proof (magnitude_positive d Hd) as Hm.
  cbn [mul div is_zero zero Binary64]. unfold PrimFloat.zero.
  rewrite (one_mul_positive _ Hm), (positive_not_zero _ Hm), (zero_div_positive _ Hm).
  reflexivity.
Qed.

End CosineBinary64.

Section CosineExact.
Import Main Spec.
Local Open Scope R_scope.

(** The sums of the exact reading are ordinary finite sums. *)
Lemma fold_left_Rplus (xs : list R) (acc : R) :
  fold_left Rplus xs acc = acc + fold_right Rplus 0 xs.
Proof.
  revert acc. induction xs as [|x xs IH]; intros acc; simpl; [lra |].
  rewrite IH. lra.
Qed.

Lemma sum_exact (xs : list R) : py_sum (A := Exact) xs = fold_right Rplus 0 xs.
Proof. unfold py_sum. simpl. rewrite fold_left_Rplus. lra. Qed.

Lemma Rsum_permutation (xs ys : list R) :
  Permutation xs ys -> fold_right Rplus 0 xs = fold_right Rplus 0 ys.
Proof. induction 1; simpl; lra. Qed.

Lemma Rsum_all_zero (xs : list R) :
  Forall (fun x => x = 0) xs -> fold_right Rplus 0 xs = 0.
Proof. induction 1; simpl; lra. Qed.

Lemma Rsum_nonneg (xs : list R) :
  Forall (fun x => 0 <= x) xs -> 0 <= fold_right Rplus 0 xs.
Proof. induction 1; simpl; lra. Qed.

Lemma key_union_NoDup (q d : list (string * R)) :
  NoDup (dict_keys q) -> NoDup (dict_keys d) -> NoDup (key_union (A := Exact) q d).
Proof.
  intros Hq Hd. unfold key_union. apply NoDup_app; [exact Hq | now apply NoDup_filter |].
  intros t Ht Hf. apply filter_In in Hf. destruct Hf as [_ Hf].
  apply negb_true_iff in Hf. change (num Exact) with R in Hf.
  apply (dict_mem_In q t) in Ht. congruence.
Qed.

Lemma key_union_comm (q d : list (string * R)) :
  NoDup (dict_keys q) -> NoDup (dict_keys d) ->
  Permutation (key_union (A := Exact) q d) (key_union (A := Exact) d q).
Proof.
  intros Hq Hd. apply NoDup_Permutation; try now apply key_union_NoDup.
  intros t. rewrite !key_union_In. tauto.
Qed.

Lemma dot_comm (q d : list (string * R)) :
  NoDup (dict_keys q) -> NoDup (dict_keys d) ->
  dot (A := Exact) q d = dot (A := Exact) d q.
Proof.
  intros Hq Hd. unfold dot. rewrite !sum_exact.
  rewrite (Rsum_permutation _ _
             (Permutation_map _ (key_union_comm q d Hq Hd))).
  f_equal. apply map_ext. intros t. simpl. apply Rmult_comm.
Qed.

Lemma dot_disjoint (q d : list (string * R)) :
  disjoint_keys q d -> dot (A := Exact) q d = 0.
Proof.
  intros Hdis. unfold dot. rewrite sum_exact. apply Rsum_all_zero.
  rewrite Forall_forall. intros x Hx. apply in_map_iff in Hx.
  destruct Hx as (t & <- & Ht). simpl.
  destruct (in_dec string_dec t (dict_keys q)) as [Hq | Hq].
  - rewrite (dict_get_absent d t 0 (Hdis t Hq)). lra.
  - rewrite (dict_get_absent q t 0 Hq). lra.
Qed.

(** The clamp: a magnitude is never zero. *)
Lemma magnitude_nonzero (x : list (string * R)) : magnitude (A := Exact) x <> 0.
Proof.
  unfold magnitude. simpl.
  destruct (Req_dec_T _ 0) as [H | H]; [lra | exact H].
Qed.

Lemma cosine_exact_returns (q d : list (string * R)) :
  _cosine_sim (A := Exact) q d
  = Return (dot (A := Exact) q d
            / (magnitude (A := Exact) q * magnitude (A := Exact) d)).
Proof.
  unfold _cosine_sim. simpl.
  destruct (Req_dec_T _ 0) as [H | H]; [| reflexivity].
  apply Rmult_integral in H. destruct H as [H | H]; now apply magnitude_nonzero in H.
Qed.

Lemma self_key_union (a : list (string * R)) :
  key_union (A := Exact) a a = dict_keys a.
Proof.
  unfold key_union. rewrite <- app_nil_r. f_equal.
  assert (H : forall l, incl l (dict_keys a) ->
                        filter (fun t => negb (dict_mem a t)) l = []).
  { induction l as [|t l IH]; intros Hincl; simpl; [reflexivity |].
    rewrite (proj2 (dict_mem_In a t)); [| apply Hincl; now left]. simpl.
    apply IH. intros x Hx. apply Hincl. now right. }
  apply H, incl_refl.
Qed.

Lemma self_products (a : list (string * R)) :
  NoDup (dict_keys a) ->
  map (fun t => dict_get a t 0 * dict_get a t 0) (dict_keys a)
  = map (fun v => v * v) (dict_values a).
Proof.
  intros Hnd. unfold dict_keys, dict_values. rewrite !map_map.
  apply map_ext_in. intros [t v] Hin. simpl.
  now rewrite (dict_get_entry a t v 0 Hnd Hin).
Qed.

Lemma squares_positive (a : list (string * R)) :
  a <> [] -> (forall t x, In (t, x) a -> 0 < x) ->
  0 < fold_right Rplus 0 (map (fun v => v * v) (dict_values a)).
Proof.
  intros Hne Hpos. destruct a as [|[t v] a]; [congruence |]. simpl.
  assert (0 < v) by (apply (Hpos t); now left).
  assert (0 <= fold_right Rplus 0 (map (fun v => v * v) (dict_values a))).
  { apply Rsum_nonneg. rewrite Forall_forall. intros x Hx.
    apply in_map_iff in Hx. destruct Hx as (y & <- & _). nra. }
  nra.
Qed.

Lemma bow_snoc {A : Arith} (toks : list string) (t : string) :
  fold_left (fun vec t => dict_set vec t (add A (dict_get vec t (zero A)) (one A)))
            (toks ++ [t]) []
  = let vec := fold_left (fun vec t => dict_set vec t (add A (dict_get vec t (zero A)) (one A)))
                         toks [] in
    dict_set vec t (add A (dict_get vec t (zero A)) (one A)).
Proof. now rewrite fold_left_app. Qed.

(** What [_bow] builds is a term vector: one entry per token, each count
    positive. *)
Lemma bow_exact_term_vector (text : string) : term_vector (_bow (A := Exact) text).
Proof.
  unfold _bow. generalize (_tokens text) as toks.
  induction toks as [|t toks IH] using rev_ind.
  - split; [constructor | intros t x []].
  - rewrite bow_snoc. cbv zeta.
    set (vec := fold_left _ toks []) in *. destruct IH as [Hnd Hpos].
    destruct (in_dec string_dec t (dict_keys vec)) as [Hin | Hnin].
    + split; [now rewrite dict_set_keys |].
      intros u x Hx. apply (dict_set_entries vec t _ u x Hnd) in Hx.
      destruct Hx as [[-> ->] | [_ Hx]]; [| now apply (Hpos u)].
      apply in_map_iff in Hin. destruct Hin as ([t' v] & Ht & Hin). simpl in Ht. subst t'.
      rewrite (dict_get_entry vec t v _ Hnd Hin). simpl.
      specialize (Hpos t v Hin). lra.
    + rewrite (dict_set_new vec t _ Hnin), (dict_get_absent vec t _ Hnin). split.
      * unfold dict_keys. rewrite map_app. simpl.
        apply (Permutation_NoDup (Permutation_cons_append _ _)). now constructor.
      * intros u x Hx. apply in_app_or in Hx.
        destruct Hx as [Hx | [[= <- <-] | []]]; [now apply (Hpos u) | simpl; lra].
Qed.




End CosineExact.

(** *** Record classifier *)

Section Classifier.
Import Fetcher.

Lemma prefix_app_l (a b t : string) : prefix (a ++ b) t = true -> prefix a t = true.
Proof.
  revert t. induction a as [|c a IH]; intros t H; [now destruct t |].
  destruct t as [|d t]; simpl in *; [discriminate |].
  destruct (Ascii.ascii_dec c d); [now apply IH | discriminate].
Qed.

Lemma contains_unfold (w t : string) :
  contains w t =
  prefix w t || match t with EmptyString => false | String _ t' => contains w t' end.
Proof. now destruct t. Qed.

Lemma contains_app_l (a b t : string) : contains (a ++ b) t = true -> contains a t = true.
Proof.
  induction t as [|d t IH]; rewrite (contains_unfold (a ++ b)), (contains_unfold a);
    intros H; apply orb_true_iff in H; apply orb_true_iff; destruct H as [H | H].
  - left. now apply prefix_app_l in H.
  - discriminate.
  - left. now apply prefix_app_l in H.
  - right. now apply IH.
Qed.

Lemma any_in_true (words : list string) (text w : string) :
  In w words -> contains w text = true -> any_in words text = true.
Proof. intros Hin Hc. apply existsb_exists. now exists w. Qed.

(** First match wins: the label of the first rule with a trigger in the
    text, whatever the later rules say. *)
Lemma first_match_wins rules default text i label words :
  nth_error rules i = Some (label, words) ->
  any_in words text = true ->
  (forall j l w, (j < i)%nat -> nth_error rules j = Some (l, w) -> any_in w text = false) ->
  first_match rules default text = label.
Proof.
  revert i. induction rules as [|[l0 w0] rules IH]; intros [|i] Hnth Hany Hearlier;
    simpl in *; try discriminate.
  - injection Hnth as -> ->. now rewrite Hany.
  - rewrite (Hearlier 0%nat l0 w0); [| lia | reflexivity].
    apply (IH i); trivial.
    intros j l w Hj Hn. apply (Hearlier (S j) l w); [lia | exact Hn].
Qed.

Lemma first_match_default rules default text :
  (forall l w, In (l, w) rules -> any_in w text = false) ->
  first_match rules default text = default.
Proof.
  induction rules as [|[l0 w0] rules IH]; intros H; simpl; [reflexivity |].
  rewrite (H l0 w0); [| now left]. apply IH. intros l w Hin. apply (H l w). now right.
Qed.

(** C2: both labels are computed from the lower-cased title, a blank and
    the abstract, by the first rule that has a trigger in the text, in the
    listed order, with defaults Other and General; astronaut gives Human;
    human with bone density, and no trigger of Microgravity or Radiation,
    gives Human and Bone/Musculoskeletal; and every organism label occurs
    together with every domain label. *)
Theorem classification_first_match_wins (title abstract : field) :
  let text := lower (fstr title ++ " " ++ fstr abstract) in
  classify_organism_type title abstract =
    (if any_in ["human"; "astronaut"; "crew"; "personnel"; "person"] text then "Human"
     else if any_in ["plant"; "arabidopsis"; "crop"; "vegetation"; "botanical"] text then "Plant"
     else if any_in ["microbe"; "bacteria"; "virus"; "microbial"; "pathogen"] text then "Microbe"
     else if any_in ["animal"; "mouse"; "rat"; "rodent"; "mammal"] text then "Animal"
     else "Other") /\
  classify_research_domain title abstract =
    (if any_in ["microgravity"; "weightless"; "zero gravity"] text then "Microgravity"
     else if any_in ["radiation"; "cosmic ray"; "solar particle"] text then "Radiation"
     else if any_in ["bone"; "skeleton"; "osteo"; "density"] text then "Bone/Musculoskeletal"
     else if any_in ["immune"; "immunity"; "infection"] text then "Immunology"
     else if any_in ["cardiovascular"; "heart"; "circulation"] text then "Cardiovascular"
     else if any_in ["psychological"; "behavior"; "stress"] text then "Psychology/Behavior"
     else "General") /\
  (forall i label words,
     nth_error organism_rules i = Some (label, words) ->
     any_in words text = true ->
     (forall j l w, (j < i)%nat -> nth_error organism_rules j = Some (l, w) ->
                    any_in w text = false) ->
     classify_organism_type title abstract = label) /\
  (forall i label words,
     nth_error domain_rules i = Some (label, words) ->
     any_in words text = true ->
     (forall j l w, (j < i)%nat -> nth_error domain_rules j = Some (l, w) ->
                    any_in w text = false) ->
     classify_research_domain title abstract = label) /\
  (contains "astronaut" text = true -> classify_organism_type title abstract = "Human") /\
  (contains "human" text = true -> contains "bone density" text = true ->
   any_in ["microgravity"; "weightless"; "zero gravity"] text = false ->
   any_in ["radiation"; "cosmic ray"; "solar particle"] text = false ->
   classify_organism_type title abstract = "Human" /\
   classify_research_domain title abstract = "Bone/Musculoskeletal") /\
  (forall organism domain,
     In organism ["Human"; "Plant"; "Microbe"; "Animal"; "Other"] ->
     In domain ["Microgravity"; "Radiation"; "Bone/Musculoskeletal"; "Immunology";
                "Cardiovascular"; "Psychology/Behavior"; "General"] ->
     classify_organism_type (PyStr (Examples.title_for organism domain)) Absent = organism /\
     classify_research_domain (PyStr (Examples.title_for organism domain)) Absent = domain).
Proof.
  intros text. unfold classify_organism_type, classify_research_domain, text_of.
  fold text. split; [reflexivity |]. split; [reflexivity |].
  split; [intros i label words; apply first_match_wins |].
  split; [intros i label words; apply first_match_wins |].
  assert (Hhuman : forall w, In w ["human"; "astronaut"; "crew"; "personnel"; "person"] ->
                             contains w text = true ->
                             first_match organism_rules "Other" text = "Human").
  { intros w Hin Hc.
    apply (first_match_wins organism_rules "Other" text 0
             "Human" ["human"; "astronaut"; "crew"; "personnel"; "person"]).
    - reflexivity.
    - exact (any_in_true _ text w Hin Hc).
    - intros j l w' Hj. lia. }
  split; [| split].
  3: { intros organism domain Ho Hd. simpl in Ho, Hd.
       repeat (destruct Ho as [<- | Ho]);
         repeat (destruct Hd as [<- | Hd]); try tauto;
         split; vm_compute; reflexivity. }
  - apply Hhuman. simpl. tauto.
  - intros Hh Hb Hm Hr. split; [apply (Hhuman "human"); [simpl; tauto | exact Hh] |].
    apply (first_match_wins domain_rules "General" text 2
             "Bone/Musculoskeletal" ["bone"; "skeleton"; "osteo"; "density"]).
    + reflexivity.
    + apply (any_in_true _ text "bone"); [now left |].
      apply (contains_app_l "bone" " density"). exact Hb.
    + intros [|[|j]] l w Hj Hn; simpl in Hn; try lia; now injection Hn as <- <-.
Qed.

Lemma classification_first_match_wins_witness :
  contains "human" (lower ("Human bone density in orbit" ++ " " ++ "")) = true /\
  classify_organism_type (PyStr "Human bone density in orbit") Absent = "Human" /\
  classify_research_domain (PyStr "Human bone density in orbit") Absent
  = "Bone/Musculoskeletal".
Proof.
  split; [reflexivity |].
  apply (classification_first_match_wins (PyStr "Human bone density in orbit") Absent);
    reflexivity.
Defined.

End Classifier.

(** *** Year extraction *)

Section ExtractYear.
Import Fetcher Spec.

Lemma take_is_substring (n : nat) (s : string) : take n s = substring 0 n s.
Proof.
  revert s. induction n as [|n IH]; intros [|c s]; simpl; try reflexivity.
  now rewrite IH.
Qed.

Lemma four_digits_here_window (s : string) :
  four_digits_here s = true <-> year_window s 0 (take 4 s).
Proof.
  unfold year_window. rewrite take_is_substring.
  destruct s as [|a [|b [|c [|d s]]]]; simpl;
    try (split; [discriminate | intros (_ & H & _); discriminate]).
  replace (substring 0 0 s) with EmptyString by now destruct s.
  simpl. rewrite !andb_true_iff. intuition.
Qed.

Lemma year_window_0 (s w : string) : year_window s 0 w -> w = take 4 s.
Proof. intros (H & _). now rewrite take_is_substring. Qed.

Lemma year_window_S (c : ascii) (s : string) (i : nat) (w : string) :
  year_window (String c s) (S i) w <-> year_window s i w.
Proof. unfold year_window. simpl. tauto. Qed.

Lemma year_window_empty (i : nat) (w : string) : ~ year_window "" i w.
Proof. intros (H & Hl & _). destruct i; simpl in H; subst w; discriminate. Qed.

(** [re.search] finds the leftmost window, and only that one. *)
Lemma search_4_digits_leftmost (s w : string) :
  search_4_digits s = Some w <-> leftmost_year_window s w.
Proof.
  revert w. induction s as [|c s IH]; intros w.
  - simpl. split; [discriminate |]. intros (i & H & _). now apply year_window_empty in H.
  - cbn [search_4_digits]. destruct (four_digits_here (String c s)) eqn:Hh.
    + apply four_digits_here_window in Hh. split.
      * intros [= <-]. exists 0%nat. split; [exact Hh | intros j w' Hj; lia].
      * intros ([|i] & Hw & Hmin).
        -- now rewrite (year_window_0 _ _ Hw).
        -- exfalso. apply (Hmin 0%nat _ (Nat.lt_0_succ i) Hh).
    + rewrite IH. split.
      * intros (i & Hw & Hmin). exists (S i). split; [exact (proj2 (year_window_S _ _ _ _) Hw) |].
        intros [|j] w' Hj Hw'.
        -- apply not_true_iff_false in Hh. apply Hh. apply four_digits_here_window.
           now rewrite <- (year_window_0 _ _ Hw').
        -- apply (proj1 (year_window_S _ _ _ _)) in Hw'. apply (Hmin j w'); [lia | exact Hw'].
      * intros ([|i] & Hw & Hmin).
        -- exfalso. apply not_true_iff_false in Hh. apply Hh.
           apply four_digits_here_window. now rewrite <- (year_window_0 _ _ Hw).
        -- exists i. split; [exact (proj1 (year_window_S _ _ _ _) Hw) |].
           intros j w' Hj Hw'. apply (Hmin (S j) w'); [lia | exact (proj2 (year_window_S _ _ _ _) Hw')].
Qed.

Lemma search_4_digits_none (s : string) :
  search_4_digits s = None <-> forall i w, ~ year_window s i w.
Proof.
  induction s as [|c s IH].
  - simpl. split; [intros _ i w; apply year_window_empty | reflexivity].
  - cbn [search_4_digits]. destruct (four_digits_here (String c s)) eqn:Hh.
    + apply four_digits_here_window in Hh. split; [discriminate |].
      intros H. exfalso. exact (H _ _ Hh).
    + rewrite IH. split.
      * intros H [|i] w Hw.
        -- apply not_true_iff_false in Hh. apply Hh. apply four_digits_here_window.
           now rewrite <- (year_window_0 _ _ Hw).
        -- exact (H i w (proj1 (year_window_S _ _ _ _) Hw)).
      * intros H i w Hw. exact (H (S i) w (proj2 (year_window_S _ _ _ _) Hw)).
Qed.

(** C6, as amended: year extraction looks at the leftmost run of four
    digits only and returns its value when that lies in [1900, 2030], and
    null otherwise, also when a later run would be in range or the date
    does not parse; the three sample inputs give 2015, null and null. *)
Theorem extract_year_leftmost_window :
  (forall s y, _extract_year (Some s) = Some y <->
     exists w, leftmost_year_window s w /\ y = int_of_digits w /\ 1900 <= y <= 2030) /\
  (forall s, (forall i w, ~ year_window s i w) -> _extract_year (Some s) = None) /\
  (forall s w, leftmost_year_window s w ->
     ~ (1900 <= int_of_digits w <= 2030) -> _extract_year (Some s) = None) /\
  _extract_year None = None /\
  _extract_year (Some "2015-03-01T00:00:00Z") = Some 2015 /\
  _extract_year (Some "not a date") = None /\
  _extract_year (Some "1875") = None /\
  _parse_date (Some "2015-3-15 noon") <> None /\
  _extract_year (Some "2015-3-15 noon") = Some 2015 /\
  _parse_date (Some "March 2015") = None /\
  _extract_year (Some "March 2015") = Some 2015.
Proof.
  assert (Hempty : forall s, truthy s = false -> search_4_digits s = None).
  { intros [|c s]; [reflexivity | discriminate]. }
  split; [| split; [| split]].
  - intros s y. unfold _extract_year.
    destruct (truthy s) eqn:Ht; simpl.
    + destruct (search_4_digits s) as [m |] eqn:Hm.
      * apply search_4_digits_leftmost in Hm.
        destruct (Z.leb_spec 1900 (int_of_digits m)); destruct (Z.leb_spec (int_of_digits m) 2030);
          simpl; split;
          try (intros [= <-]; exists m; repeat split; trivial; lia);
          try discriminate;
          intros (w & Hw & -> & Hr);
          apply search_4_digits_leftmost in Hm, Hw;
          assert (w = m) by congruence; subst w; solve [reflexivity | lia].
      * split; [discriminate |]. intros (w & Hw & _).
        apply search_4_digits_leftmost in Hw. congruence.
    + split; [discriminate |]. intros (w & Hw & _).
      apply search_4_digits_leftmost in Hw. rewrite (Hempty s Ht) in Hw. discriminate.
  - intros s Hnone. apply search_4_digits_none in Hnone. unfold _extract_year.
    rewrite Hnone. now destruct (negb (truthy s)).
  - intros s w Hw Hr. apply search_4_digits_leftmost in Hw. unfold _extract_year.
    rewrite Hw. destruct (negb (truthy s)); [reflexivity |].
    destruct (Z.leb_spec 1900 (int_of_digits w)); destruct (Z.leb_spec (int_of_digits w) 2030);
      simpl; try reflexivity. lia.
  - repeat split; try reflexivity; vm_compute; discriminate.
Qed.

Lemma extract_year_leftmost_window_witness :
  leftmost_year_window "1875" "1875" /\
  ~ (1900 <= int_of_digits "1875" <= 2030) /\
  _extract_year (Some "1875") = None.
Proof.
  assert (Hw : leftmost_year_window "1875" "1875").
  { exists 0%nat. split; [repeat split | intros j w' Hj; lia]. }
  assert (Hr : ~ (1900 <= int_of_digits "1875" <= 2030)) by (vm_compute; intuition discriminate).
  split; [exact Hw |]. split; [exact Hr |].
  exact (proj1 (proj2 (proj2 extract_year_leftmost_window)) "1875" "1875" Hw Hr).
Defined.

(** C6, as stated, fails: a string may hold a 4-digit run in range and
    still give no year, because an earlier run is out of range. *)
Lemma extract_year_later_run_ignored :
  year_window "1875-2015" 5 "2015" /\
  1900 <= int_of_digits "2015" <= 2030 /\
  _extract_year (Some "1875-2015") = None /\
  year_window "01032015" 4 "2015" /\
  _extract_year (Some "01032015") = None.
Proof. vm_compute. intuition discriminate. Qed.

End ExtractYear.

(** *** Date parsing *)

Section ParseDate.
Import Fetcher.

Lemma take_length (n : nat) (s : string) : (String.length (take n s) <= n)%nat.
Proof.
  revert s. induction n as [|n IH]; intros [|c s]; simpl; try lia.
  specialize (IH s). lia.
Qed.

(** A match of one alternative consumes one character per class. *)
Lemma match_alt_length (alt : alternative) (s m rest : string) :
  match_alt alt s = Some (m, rest) ->
  String.length s = (List.length alt + String.length rest)%nat.
Proof.
  revert s m rest. induction alt as [|p alt IH]; intros s m rest; simpl.
  - now intros [= _ <-].
  - destruct s as [|c s]; [discriminate |]. destruct (p c); [| discriminate].
    destruct (match_alt alt s) as [[m' rest'] |] eqn:Hm; [| discriminate].
    intros [= _ <-]. simpl. now rewrite (IH _ _ _ Hm).
Qed.

(** [%Y] asks for four digits; the two characters left by the truncation
    cannot provide them. *)
Lemma year_only_never_parses (s : string) : try_format s "%Y" = None.
Proof.
  unfold try_format, strptime. simpl parse_format. cbn [regex_match alternatives first_some].
  destruct (match_alt [dg; dg; dg; dg] (take (String.length (replace_pct_f "%Y")) s))
    as [[m rest] |] eqn:Hm; [| reflexivity].
  apply match_alt_length in Hm.
  pose proof (take_length (String.length (replace_pct_f "%Y")) s) as Hl.
  simpl in Hm, Hl. lia.
Qed.

Lemma first_some_snoc_none {X Y : Type} (f : X -> option Y) (l : list X) (x : X) :
  f x = None -> first_some f (l ++ [x]) = first_some f l.
Proof.
  intros Hx. induction l as [|y l IH]; simpl; [now rewrite Hx |].
  now destruct (f y).
Qed.

Lemma parse_date_five_formats (s : string) :
  _parse_date (Some s) =
  if truthy s then first_some (try_format s) (firstn 5 date_formats) else None.
Proof.
  unfold _parse_date. destruct (truthy s); [| reflexivity]. cbn [negb].
  change date_formats with (firstn 5 date_formats ++ ["%Y"])%list at 1.
  apply first_some_snoc_none, year_only_never_parses.
Qed.

Lemma first_some_In {X Y : Type} (f : X -> option Y) (l : list X) (y : Y) :
  first_some f l = Some y -> exists x, In x l /\ f x = Some y.
Proof.
  induction l as [|x l IH]; simpl; [discriminate |].
  destruct (f x) as [y' |] eqn:Hx.
  - intros [= <-]. exists x. split; [now left | exact Hx].
  - intros H. destruct (IH H) as (x' & Hin & Hf). exists x'. split; [now right | exact Hf].
Qed.

Lemma min_width_le (d : directive) (alt : alternative) :
  In alt (alternatives d) -> (Spec.min_width d <= List.length alt)%nat.
Proof.
  unfold Spec.min_width. generalize (alternatives d) as alts.
  induction alts as [|a alts IH]; [intros [] |]. simpl.
  intros [-> | Hin]; [lia | specialize (IH Hin); lia].
Qed.

(** A match needs at least the least width of each directive. *)
Lemma regex_match_width (ds : list directive) (s rest : string) (acc f : fields) :
  regex_match ds s acc = Some (f, rest) ->
  (Spec.min_total_width ds + String.length rest <= String.length s)%nat.
Proof.
  revert s acc. induction ds as [|d ds IH]; intros s acc; simpl.
  - intros [= _ <-]. unfold Spec.min_total_width. simpl. lia.
  - intros H. apply first_some_In in H. destruct H as (alt & Hin & H).
    destruct (match_alt alt s) as [[m rest1] |] eqn:Hm; [| discriminate].
    apply match_alt_length in Hm. apply IH in H. apply min_width_le in Hin.
    unfold Spec.min_total_width in *. simpl. lia.
Qed.

(** No string of fewer than eight characters parses. *)
Lemma parse_date_needs_eight (s : string) :
  _parse_date (Some s) <> None -> (8 <= String.length s)%nat.
Proof.
  rewrite parse_date_five_formats. destruct (truthy s); [| congruence].
  intros H. destruct (first_some (try_format s) (firstn 5 date_formats)) as [dt |] eqn:Hf;
    [clear H | congruence].
  apply first_some_In in Hf. destruct Hf as (fmt & Hin & Hfmt).
  assert (Hw : exists ds, parse_format fmt = Some ds /\ (8 <= Spec.min_total_width ds)%nat).
  { unfold date_formats in Hin. cbn [firstn] in Hin.
    repeat (destruct Hin as [<- | Hin];
            [eexists; split; [vm_compute; reflexivity | vm_compute; lia] |]).
    destruct Hin. }
  destruct Hw as (ds & Hds & Hwidth).
  unfold try_format, strptime in Hfmt. rewrite Hds in Hfmt.
  destruct (regex_match ds _ default_fields) as [[f rest] |] eqn:Hm; [| discriminate].
  apply regex_match_width in Hm.
  assert (Ht2 : (String.length (take (String.length (replace_pct_f fmt)) s)
                 <= String.length s)%nat).
  { generalize (String.length (replace_pct_f fmt)) as n. clear. intros n. revert s.
    induction n as [|n IH]; intros [|c s]; simpl; try lia. specialize (IH s). lia. }
  lia.
Qed.

(** C10, as amended: each attempt sees the input cut to the length of the
    pattern text, [%f] counted as six characters (25, 18, 8, 8, 8 and 2);
    the last attempt, [%Y] on two characters, never parses; the ISO
    timestamp of the example fails every pattern and gives null, as does
    the two-digit string 20 and every other string of fewer than eight
    characters; a non-null result comes from one of the five multi-field
    patterns, as for 2015-3-1 or a timestamp with a short fraction. *)
Theorem parse_date_truncates_to_pattern_length :
  map (fun fmt => String.length (replace_pct_f fmt)) date_formats
    = [25; 18; 8; 8; 8; 2]%nat /\
  (forall s, try_format s "%Y" = None) /\
  (forall s, _parse_date (Some s) =
             if truthy s then first_some (try_format s) (firstn 5 date_formats) else None) /\
  (forall s, _parse_date (Some s) <> None -> (8 <= String.length s)%nat) /\
  (forall fmt, In fmt date_formats -> try_format "2015-03-01T00:00:00Z" fmt = None) /\
  _parse_date (Some "2015-03-01T00:00:00Z") = None /\
  _parse_date (Some "20") = None /\
  _parse_date (Some "2015-03-01") = None /\
  _parse_date (Some "2015-3-1")
    = Some {| dt_year := 2015; dt_month := 3; dt_day := 1; dt_hour := 0;
              dt_minute := 0; dt_second := 0; dt_microsecond := 0 |} /\
  _parse_date (Some "2015-03-01T00:00:00.123Z")
    = Some {| dt_year := 2015; dt_month := 3; dt_day := 1; dt_hour := 0;
              dt_minute := 0; dt_second := 0; dt_microsecond := 123000 |} /\
  strptime "2015-03-01T00:00:00Z" "%Y-%m-%dT%H:%M:%SZ"
    = Some {| dt_year := 2015; dt_month := 3; dt_day := 1; dt_hour := 0;
              dt_minute := 0; dt_second := 0; dt_microsecond := 0 |}.
Proof.
  split; [vm_compute; reflexivity |].
  split; [exact year_only_never_parses |].
  split; [exact parse_date_five_formats |].
  split; [exact parse_date_needs_eight |].
  split.
  - intros fmt Hin. unfold date_formats in Hin.
    repeat (destruct Hin as [<- | Hin]; [vm_compute; reflexivity |]). destruct Hin.
  - repeat split; vm_compute; reflexivity.
Qed.

(** C10, as stated, fails: the ISO timestamp does not parse to a datetime
    of year 20 but to null, and a string that starts with the two digits
    20 gives null as well. *)
Lemma parse_date_iso_timestamp_is_null :
  _parse_date (Some "2015-03-01T00:00:00Z") = None /\
  (forall dt, _parse_date (Some "2015-03-01T00:00:00Z") = Some dt -> dt_year dt <> 20) /\
  all_chars is_digit (take 2 "20") = true /\
  1 <= int_of_digits (take 2 "20") /\
  _parse_date (Some "20") = None.
Proof.
  assert (H : _parse_date (Some "2015-03-01T00:00:00Z") = None) by (vm_compute; reflexivity).
  split; [exact H |]. split; [intros dt Hdt; rewrite H in Hdt; discriminate |].
  repeat split; vm_compute; (reflexivity || discriminate).
Qed.

End ParseDate.

(** *** Ingestion of one record *)

Section CreatePublication.
Import Fetcher Service Spec.

Lemma same_publications_refl (db : DB) : same_publications db db.
Proof. now split. Qed.

Lemma same_publications_trans (a b c : DB) :
  same_publications a b -> same_publications b c -> same_publications a c.
Proof. intros [H1 H2] [H3 H4]. split; congruence. Qed.

Lemma fold_left_same_publications {X : Type} (step : DB -> X -> DB) (xs : list X) (db : DB) :
  (forall d x, same_publications d (step d x)) ->
  same_publications db (fold_left step xs db).
Proof.
  intros Hstep. revert db. induction xs as [|x xs IH]; intros db; simpl.
  - apply same_publications_refl.
  - eapply same_publications_trans; [apply Hstep | apply IH].
Qed.

Lemma add_author_same_publications (pid : Z) (db : DB) (author_name : string) :
  same_publications db (add_author pid db author_name).
Proof.
  unfold add_author. destruct (negb (truthy (strip author_name))); [now split |].
  destruct (find _ (authors db)) as [a |];
    match goal with |- context [if ?c then _ else _] => destruct c end; now split.
Qed.

Lemma add_keyword_same_publications (pid : Z) (db : DB) (keyword_term : string) :
  same_publications db (add_keyword pid db keyword_term).
Proof.
  unfold add_keyword. destruct (negb (truthy (strip keyword_term))); [now split |].
  destruct (find _ (keywords db)) as [k |];
    match goal with |- context [if ?c then _ else _] => destruct c end; now split.
Qed.

Lemma helpers_same_publications (db : DB) (pid : Z) (names kws : list string)
    (q : Publication) :
  same_publications db
    (_create_search_index
       (_add_keywords_to_publication (_add_authors_to_publication db pid names) pid kws) q).
Proof.
  unfold _add_keywords_to_publication, _add_authors_to_publication.
  eapply same_publications_trans;
    [apply (fold_left_same_publications (add_author pid)), add_author_same_publications |].
  eapply same_publications_trans;
    [apply (fold_left_same_publications (add_keyword pid)), add_keyword_same_publications |].
  now split.
Qed.

Lemma find_app_last {X : Type} (f : X -> bool) (l : list X) (x : X) :
  find f l = None -> f x = true -> find f (l ++ [x]) = Some x.
Proof.
  induction l as [|y l IH]; simpl; intros Hl Hx; [now rewrite Hx |].
  destruct (f y); [discriminate | now apply IH].
Qed.

Lemma opt_string_eqb_refl (a : option string) : opt_string_eqb a a = true.
Proof. destruct a; simpl; [apply String.eqb_refl | reflexivity]. Qed.

Lemma opt_string_eqb_eq (a b : option string) : opt_string_eqb a b = true <-> a = b.
Proof.
  destruct a, b; simpl; try (split; [discriminate | discriminate]); try tauto.
  rewrite String.eqb_eq. split; congruence.
Qed.

(** What a call that returns has done: either it found the record, and
    the store is as before, or it appended a new last row that carries the
    identifier. *)
Lemma create_publication_returns (db db1 : DB) (pub_data : PubData) (p : Publication) :
  create_publication db pub_data = (db1, Return p) ->
  session_active db = true /\
  session_active db1 = true /\
  nasa_id p = pd_nasa_id pub_data /\
  ((db1 = db /\ find (nasa_id_is (pd_nasa_id pub_data)) (publications db) = Some p) \/
   (find (nasa_id_is (pd_nasa_id pub_data)) (publications db) = None /\
    publications db1 = (publications db ++ [p])%list)).
Proof.
  unfold create_publication.
  destruct (session_active db) eqn:Hact; simpl; [| discriminate].
  destruct (find _ (publications db)) as [existing |] eqn:Hfind.
  - intros [= <- <-]. repeat split; trivial; [| now left].
    apply find_some in Hfind. destruct Hfind as [_ Hid].
    now apply opt_string_eqb_eq in Hid.
  - destruct (text_column (pd_title pub_data) "") as [the_title |]; [| discriminate].
    destruct (doi_taken db (pd_doi pub_data)); [discriminate |].
    intros [= <- <-].
    match goal with
    | |- context [_create_search_index
                    (_add_keywords_to_publication
                       (_add_authors_to_publication ?d0 ?pid ?names) _ ?kws) ?q] =>
        destruct (helpers_same_publications d0 pid names kws q) as [Hpubs Hses]
    end.
    simpl in Hpubs, Hses.
    repeat split; simpl; try congruence. right. split; [reflexivity | exact Hpubs].
Qed.

(** C1: when a call of [create_publication] returns a record, a second
    call with the same [nasa_id], whatever its other fields, returns that
    same record and leaves every table as it was: no second publication,
    no new author or keyword row or link, no counter changed; and the
    identifiers of the stored publications stay distinct. *)
Theorem create_publication_idempotent
    (db db1 : DB) (pub_data again : PubData) (p : Publication) :
  create_publication db pub_data = (db1, Return p) ->
  pd_nasa_id again = pd_nasa_id pub_data ->
  create_publication db1 again = (db1, Return p) /\
  In p (publications db1) /\
  nasa_id p = pd_nasa_id pub_data /\
  (NoDup (map nasa_id (publications db)) -> NoDup (map nasa_id (publications db1))).
Proof.
  intros Hfirst Hid.
  destruct (create_publication_returns db db1 pub_data p Hfirst)
    as (Hact & Hact1 & Hpid & [[-> Hfind] | [Hfind Hpubs]]).
  - split; [| split; [| split]]; trivial.
    + unfold create_publication. now rewrite Hact, Hid, Hfind.
    + now apply find_some in Hfind.
  - split; [| split; [| split]]; trivial.
    + unfold create_publication. rewrite Hact1, Hid, Hpubs. simpl.
      rewrite (find_app_last _ _ p Hfind); [reflexivity |].
      unfold nasa_id_is. rewrite Hpid. apply opt_string_eqb_refl.
    + rewrite Hpubs. apply in_or_app. right. now left.
    + intros Hnd. rewrite Hpubs, map_app. simpl.
      apply (Permutation_NoDup (Permutation_cons_append _ _)). constructor; [| exact Hnd].
      intros Hin. apply in_map_iff in Hin. destruct Hin as (q & Hq & Hin).
      apply (find_none _ _ Hfind) in Hin. unfold nasa_id_is in Hin.
      rewrite Hq, Hpid, opt_string_eqb_refl in Hin. discriminate.
Qed.

Lemma create_publication_idempotent_witness :
  create_publication empty_db Examples.bone_study
    = (Examples.after_bone_study, Return Examples.bone_row) /\
  create_publication Examples.after_bone_study Examples.bone_study_resubmitted
    = (Examples.after_bone_study, Return Examples.bone_row).
Proof.
  assert (H : create_publication empty_db Examples.bone_study
              = (Examples.after_bone_study, Return Examples.bone_row))
    by (vm_compute; reflexivity).
  split; [exact H |].
  exact (proj1 (create_publication_idempotent _ _ _ Examples.bone_study_resubmitted _
                  H eq_refl)).
Defined.

(** The counter of a keyword that is found and already linked to the
    publication goes up all the same: the increment comes before the test
    that guards the link. *)
Lemma add_keyword_counts_linked_keyword
    (db : DB) (pid : Z) (keyword_term : string) (k : Keyword) :
  truthy (strip keyword_term) = true ->
  find (fun k => String.eqb (term k) (strip keyword_term)) (keywords db) = Some k ->
  is_linked (publication_keywords db) pid (keyword_id k) = true ->
  keywords (add_keyword pid db keyword_term)
    = map (bump_usage (keyword_id k)) (keywords db) /\
  publication_keywords (add_keyword pid db keyword_term) = publication_keywords db.
Proof.
  intros Ht Hfind Hlinked. unfold add_keyword. rewrite Ht, Hfind. simpl.
  rewrite Hlinked. simpl. now split.
Qed.

(** C5 fails on the code: a record whose keyword list names the same term
    twice leaves the keyword linked once to the publication, with a usage
    counter of 2. *)
Theorem keyword_counter_counts_every_occurrence :
  let db := fst (create_publication empty_db Examples.bone_study) in
  pd_keywords Examples.bone_study = ["bone"; "bone"] /\
  publication_keywords db = [(1, 1)] /\
  keywords db = [{| keyword_id := 1; term := "bone"; usage_count := 2 |}] /\
  (forall d pid t k,
     truthy (strip t) = true ->
     find (fun k => String.eqb (term k) (strip t)) (keywords d) = Some k ->
     is_linked (publication_keywords d) pid (keyword_id k) = true ->
     keywords (add_keyword pid d t) = map (bump_usage (keyword_id k)) (keywords d) /\
     publication_keywords (add_keyword pid d t) = publication_keywords d).
Proof.
  repeat split; try (vm_compute; reflexivity);
    eapply add_keyword_counts_linked_keyword; eassumption.
Qed.

End CreatePublication.

(** *** Query engine *)

Section Search.
Import Fetcher Service Spec.

(** [LIKE] with a leading [%]: try the rest of the pattern at every
    suffix. *)
Lemma like_percent (pattern text : string) :
  like (String "%" pattern) text =
  like pattern text ||
  match text with
  | EmptyString => false
  | String _ text' => like (String "%" pattern) text'
  end.
Proof. now destruct text. Qed.

Lemma like_char (c : ascii) (pattern text : string) :
  Ascii.eqb c "%" = false ->
  like (String c pattern) text =
  match text with
  | EmptyString => false
  | String d text' => (Ascii.eqb c "_" || Ascii.eqb c d) && like pattern text'
  end.
Proof. intros Hc. simpl. now rewrite Hc. Qed.

Lemma like_only_percent (text : string) : like "%" text = true.
Proof.
  induction text as [|d text IH]; [reflexivity |].
  rewrite like_percent, IH. apply orb_true_r.
Qed.

Lemma is_wildcard_false (c : ascii) :
  is_wildcard c = false -> Ascii.eqb c "%" = false /\ Ascii.eqb c "_" = false.
Proof. unfold is_wildcard. now intros H%orb_false_iff. Qed.

(** Without wildcards, a pattern followed by [%] is a prefix test. *)
Lemma like_prefix (q text : string) :
  wildcard_free q = true -> like (q ++ "%") text = prefix q text.
Proof.
  revert text. induction q as [|c q IH]; intros text Hq.
  - simpl append. rewrite like_only_percent. now destruct text.
  - simpl in Hq. apply andb_true_iff in Hq. destruct Hq as [Hc Hq].
    apply negb_true_iff, is_wildcard_false in Hc. destruct Hc as [Hp Hu].
    simpl append. rewrite (like_char c _ _ Hp), Hu.
    destruct text as [|d text]; [reflexivity |]. simpl.
    rewrite (IH text Hq).
    destruct (Ascii.eqb_spec c d) as [-> | Hne].
    + destruct (ascii_dec d d); [reflexivity | congruence].
    + destruct (ascii_dec c d); [congruence | reflexivity].
Qed.

(** ... and between two [%] it is a substring test. *)
Lemma like_substring (q text : string) :
  wildcard_free q = true -> like ("%" ++ q ++ "%") text = contains q text.
Proof.
  intros Hq. simpl append.
  induction text as [|d text IH]; rewrite like_percent, contains_unfold, (like_prefix q _ Hq).
  - reflexivity.
  - now rewrite IH.
Qed.

Lemma ascii_lower_app (a b : string) : ascii_lower (a ++ b) = ascii_lower a ++ ascii_lower b.
Proof. induction a as [|c a IH]; simpl; [reflexivity | now rewrite IH]. Qed.

Lemma ascii_lower_char_wildcard (c : ascii) :
  is_wildcard (ascii_lower_char c) = is_wildcard c.
Proof.
  destruct c as [[] [] [] [] [] [] [] []]; reflexivity.
Qed.

Lemma ascii_lower_wildcard_free (q : string) :
  wildcard_free (ascii_lower q) = wildcard_free q.
Proof.
  unfold wildcard_free. induction q as [|c q IH]; [reflexivity |].
  cbn [ascii_lower all_chars]. now rewrite IH, ascii_lower_char_wildcard.
Qed.

(** For a query without wildcards, [ilike] is the substring test. *)
Lemma ilike_icontains (q : string) (col : option string) :
  wildcard_free q = true -> ilike col ("%" ++ q ++ "%") = icontains q col.
Proof.
  intros Hq. destruct col as [c |]; [| reflexivity]. simpl ilike. unfold icontains.
  change ("%" ++ q ++ "%") with (String "%" (q ++ "%")). simpl ascii_lower.
  rewrite ascii_lower_app.
  change (String (ascii_lower_char "%") (ascii_lower q ++ ascii_lower "%"))
    with ("%" ++ ascii_lower q ++ "%").
  apply like_substring. now rewrite ascii_lower_wildcard_free.
Qed.

Lemma filter_filter_and {X : Type} (f g : X -> bool) (l : list X) :
  filter g (filter f l) = filter (fun x => f x && g x) l.
Proof.
  induction l as [|x l IH]; simpl; [reflexivity |].
  destruct (f x); simpl; [destruct (g x) |]; now rewrite IH.
Qed.

Lemma filter_true {X : Type} (l : list X) : filter (fun _ => true) l = l.
Proof. induction l as [|x l IH]; simpl; [reflexivity | now rewrite IH]. Qed.

(** The chain of [filter] calls keeps the rows that pass every supplied
    filter and the query. *)
Lemma filters_are_conjunctive (query : option string) (filters : option Filters)
    (rows : list Publication) :
  apply_query query (apply_filters filters rows)
  = filter (fun p => passes_filters filters p && passes_query query p) rows.
Proof.
  assert (Hq : forall l, apply_query query l = filter (passes_query query) l).
  { intros l. unfold apply_query, passes_query.
    destruct (given_str query); [reflexivity | now rewrite filter_true]. }
  rewrite Hq, <- filter_filter_and. f_equal.
  unfold apply_filters, passes_filters. destruct filters as [f |];
    [| now rewrite filter_true].
  assert (Hopt : forall {V} (o : option V) (test : V -> Publication -> bool) l,
             match o with Some v => filter (test v) l | None => l end
             = filter (fun p => match o with Some v => test v p | None => true end) l).
  { intros V [v |] test l; [reflexivity | now rewrite filter_true]. }
  rewrite (Hopt _ (given_str (flt_organism_type f))
             (fun v p => String.eqb (organism_type p) v)).
  rewrite (Hopt _ (given_str (flt_research_domain f))
             (fun v p => String.eqb (research_domain p) v)).
  rewrite (Hopt _ (given_year (flt_publication_year f))
             (fun v p => col_eq_year (publication_year p) v)).
  rewrite (Hopt _ (given_str (flt_publication_type f))
             (fun v p => col_eq_str (publication_type p) v)).
  rewrite !filter_filter_and. apply filter_ext. intros p.
  now rewrite !andb_assoc.
Qed.

Lemma year_geb_total (a b : option Z) : year_geb a b = false -> year_geb b a = true.
Proof.
  destruct a as [x |], b as [y |]; simpl; try discriminate; try reflexivity.
  intros H. apply Z.leb_gt in H. apply Z.leb_le. lia.
Qed.

Lemma year_geb_trans (a b c : option Z) :
  year_geb a b = true -> year_geb b c = true -> year_geb a c = true.
Proof.
  destruct a as [x |], b as [y |], c as [z |]; simpl; try discriminate; try reflexivity.
  rewrite !Z.leb_le. lia.
Qed.

Lemma insert_by_year_perm (p : Publication) (l : list Publication) :
  Permutation (p :: l) (insert_by_year p l).
Proof.
  induction l as [|q l IH]; simpl; [reflexivity |].
  destruct (year_geb (publication_year p) (publication_year q)); [reflexivity |].
  rewrite perm_swap. now constructor.
Qed.

Lemma stable_year_desc_perm (l : list Publication) : Permutation l (stable_year_desc l).
Proof.
  induction l as [|p l IH]; simpl; [constructor |].
  rewrite <- insert_by_year_perm. now constructor.
Qed.

Lemma insert_by_year_sorted (p : Publication) (l : list Publication) :
  StronglySorted year_ge l -> StronglySorted year_ge (insert_by_year p l).
Proof.
  intros Hs. induction Hs as [|q l Hs IH Hall]; simpl; [repeat constructor |].
  destruct (year_geb (publication_year p) (publication_year q)) eqn:Hpq.
  - constructor; [now constructor |]. constructor; [exact Hpq |].
    eapply Forall_impl; [| exact Hall]. intros r Hr. unfold year_ge in *.
    eapply year_geb_trans; eassumption.
  - constructor; [exact IH |]. rewrite Forall_forall in *. intros r Hr.
    apply (Permutation_in _ (Permutation_sym (insert_by_year_perm p l))) in Hr.
    destruct Hr as [<- | Hr]; [now apply year_geb_total | now apply Hall].
Qed.

Lemma stable_year_desc_sorted (l : list Publication) :
  StronglySorted year_ge (stable_year_desc l).
Proof.
  induction l as [|p l IH]; simpl; [constructor | now apply insert_by_year_sorted].
Qed.

(** The ordering that keeps rows with equal years in table order. *)
#[local] Instance stable_ordering : YearOrdering :=
  {| order_by_year_desc := stable_year_desc;
     order_by_permutes := stable_year_desc_perm;
     order_by_sorts := stable_year_desc_sorted |}.




End Search.

(** *** Ingestion from the sources *)

Section Ingest.
Import Fetcher Service Spec.

(** A record with a title and no DOI is always stored (or found), and the
    session stays usable. *)
Lemma create_publication_succeeds (db : DB) (pub_data : PubData) :
  session_active db = true ->
  pd_title pub_data <> PyNone ->
  pd_doi pub_data = None ->
  exists db' p,
    create_publication db pub_data = (db', Return p) /\ session_active db' = true.
Proof.
  intros Hact Htitle Hdoi. unfold create_publication. rewrite Hact. cbn [negb].
  destruct (find _ (publications db)) as [existing |]; [now eauto |].
  destruct (pd_title pub_data) as [| |t] eqn:Ht; [| congruence |];
    cbn [text_column]; rewrite Hdoi; cbn [doi_taken];
    eexists; eexists; (split; [reflexivity |]);
    match goal with
    | |- session_active
           (_create_search_index
              (_add_keywords_to_publication
                 (_add_authors_to_publication ?d0 ?pid ?names) _ ?kws) ?q) = true =>
        destruct (helpers_same_publications d0 pid names kws q) as [_ Hses];
        rewrite Hses; exact Hact
    end.
Qed.

Lemma store_all_succeeds (pubs : list PubData) (db : DB) (n : Z) :
  session_active db = true ->
  (forall pd, In pd pubs -> pd_title pd <> PyNone /\ pd_doi pd = None) ->
  exists db',
    fold_left store_one pubs (db, n, []) = (db', n + Z.of_nat (List.length pubs), [])
    /\ session_active db' = true.
Proof.
  revert db n. induction pubs as [|pd pubs IH]; intros db n Hact Hok.
  - exists db. simpl. split; [f_equal; f_equal; lia | exact Hact].
  - destruct (Hok pd (or_introl eq_refl)) as [Ht Hd].
    destruct (create_publication_succeeds db pd Hact Ht Hd) as (db1 & p & Hc & Hact1).
    destruct (IH db1 (n + 1) Hact1) as (db' & Hfold & Hact').
    { intros x Hx. apply Hok. now right. }
    exists db'. split; [| exact Hact'].
    cbn [fold_left]. unfold store_one at 2. rewrite Hc, Hfold.
    f_equal. f_equal. cbn [List.length]. lia.
Qed.



End Ingest.

(** *** Sentences and the local summary *)

Section Sentences.
Import Summary SummarySpec.

Lemma lstrip_visible (s : string) :
  lstrip s = "" \/ starts_visible (lstrip s) = true.
Proof.
  induction s as [|c s IH]; simpl; [now left |].
  destruct (is_space c) eqn:Hc; [exact IH |]. right. simpl. now rewrite Hc.
Qed.

Lemma rstrip_visible (s : string) :
  rstrip s = "" \/ ends_visible (rstrip s) = true.
Proof.
  induction s as [|c s IH]; simpl; [now left |].
  destruct (rstrip s) as [|d r] eqn:Hr.
  - destruct (is_space c) eqn:Hc; [now left |]. right. simpl. now rewrite Hc.
  - right. destruct IH as [IH | IH]; [discriminate |]. exact IH.
Qed.

Lemma rstrip_starts (s : string) :
  starts_visible s = true -> starts_visible (rstrip s) = true.
Proof.
  destruct s as [|c s]; simpl; [discriminate |]. intros Hc.
  destruct (rstrip s); [| exact Hc].
  apply negb_true_iff in Hc. rewrite Hc. simpl. now rewrite Hc.
Qed.

Lemma rstrip_ends_visible (s : string) : ends_visible s = true -> rstrip s = s.
Proof.
  induction s as [|c s IH]; simpl; [reflexivity |].
  destruct s as [|d s].
  - intros Hc. apply negb_true_iff in Hc. simpl. now rewrite Hc.
  - intros H. rewrite (IH H). reflexivity.
Qed.

Lemma lstrip_starts_visible (s : string) : starts_visible s = true -> lstrip s = s.
Proof.
  destruct s as [|c s]; simpl; [reflexivity |]. intros Hc.
  apply negb_true_iff in Hc. now rewrite Hc.
Qed.

Lemma strip_visible (s : string) : strip s = "" \/ visible (strip s) = true.
Proof.
  unfold strip, visible. destruct (lstrip_visible s) as [-> | Hl]; [now left |].
  destruct (rstrip_visible (lstrip s)) as [-> | Hr]; [now left |].
  right. now rewrite (rstrip_starts _ Hl), Hr.
Qed.

Lemma visible_strip (s : string) : visible s = true -> strip s = s /\ s <> "".
Proof.
  unfold visible, strip. intros H. apply andb_true_iff in H. destruct H as [Hs He].
  rewrite (lstrip_starts_visible s Hs), (rstrip_ends_visible s He).
  split; [reflexivity |]. intros ->. discriminate.
Qed.

Lemma split_from_nonempty (pos : position) (s : string) : split_from pos s <> [].
Proof.
  revert pos. induction s as [|c s IH]; intros pos; simpl; [discriminate |].
  destruct (is_space c).
  - destruct pos; [| discriminate | apply IH].
    specialize (IH Inside). destruct (split_from Inside s); [congruence | discriminate].
  - match goal with |- extend _ (split_from ?p _) <> _ => specialize (IH p);
      destruct (split_from p s); [congruence | discriminate] end.
Qed.

Lemma ends_visible_cons (c : ascii) (s : string) :
  s <> "" -> ends_visible (String c s) = ends_visible s.
Proof. destruct s; [congruence | reflexivity]. Qed.

Lemma ends_sentence_cons (c : ascii) (s : string) :
  s <> "" -> ends_sentence (String c s) = ends_sentence s.
Proof. destruct s; [congruence | reflexivity]. Qed.

Lemma ends_sentence_nonempty (s : string) : ends_sentence s = true -> s <> "".
Proof. destruct s; [discriminate | discriminate]. Qed.

Lemma terminator_visible (c : ascii) : is_terminator c = true -> is_space c = false.
Proof.
  unfold is_terminator. intros H.
  apply orb_true_iff in H. destruct H as [H | H];
    [apply orb_true_iff in H; destruct H as [H | H] |];
    apply Ascii.eqb_eq in H; subst; reflexivity.
Qed.

(** What the scan yields from a position on, for text that ends with a
    visible character. *)
Lemma split_from_shape (s : string) (pos : position) :
  ends_visible s = true ->
  exists h tl,
    split_from pos s = h :: tl /\
    Forall (fun p => visible p = true) tl /\
    (tl <> [] -> ends_sentence h = true \/ (h = "" /\ pos = AfterTerminator)) /\
    all_but_last ends_sentence tl = true /\
    (h = "" \/ ends_visible h = true) /\
    (pos = InSeparator -> visible h = true) /\
    (starts_visible s = true -> starts_visible h = true) /\
    (pos = Inside -> h <> "").
Proof.
  revert pos. induction s as [|c s IH]; intros pos Hend; [discriminate |].
  destruct s as [|d s'].
  - (* the last character, which is visible *)
    simpl in Hend. apply negb_true_iff in Hend. simpl. rewrite Hend. simpl.
    exists (String c ""), [].
    split; [reflexivity |]. split; [constructor |]. split; [congruence |].
    split; [reflexivity |]. split; [right; simpl; now rewrite Hend |].
    split; [intros _; unfold visible; simpl; now rewrite Hend |].
    split; [intros _; simpl; now rewrite Hend | discriminate].
  - set (s := String d s') in *.
    assert (Hend' : ends_visible s = true) by exact Hend.
    cbn [split_from]. destruct (is_space c) eqn:Hc.
    + destruct pos.
      * destruct (IH Inside Hend') as (h & tl & Heq & Htl & Hclose & Hterm & Hh & _ & _ & Hne).
        rewrite Heq. simpl. exists (String c h), tl.
        specialize (Hne eq_refl).
        split; [reflexivity |]. split; [exact Htl |]. split.
        { intros Hnil. left. rewrite ends_sentence_cons by exact Hne.
          destruct (Hclose Hnil) as [H | [_ H]]; [exact H | discriminate]. }
        split; [exact Hterm |]. split.
        { right. rewrite ends_visible_cons by exact Hne.
          destruct Hh as [Hh | Hh]; [contradiction | exact Hh]. }
        split; [discriminate |].
        split; [simpl; rewrite Hc; discriminate | discriminate].
      * destruct (IH InSeparator Hend') as (h & tl & Heq & Htl & Hclose & Hterm & Hh & Hv & _ & _).
        rewrite Heq. exists "", (h :: tl). specialize (Hv eq_refl).
        split; [reflexivity |]. split; [now constructor |].
        split; [intros _; now right |]. split.
        { simpl. destruct tl as [|x tl]; [reflexivity |].
          destruct (Hclose ltac:(discriminate)) as [H | [_ H]]; [| discriminate].
          rewrite H. exact Hterm. }
        split; [now left |]. split; [discriminate |].
        split; [simpl; rewrite Hc; discriminate | discriminate].
      * destruct (IH InSeparator Hend') as (h & tl & Heq & Htl & Hclose & Hterm & Hh & Hv & _ & _).
        exists h, tl. specialize (Hv eq_refl).
        split; [exact Heq |]. split; [exact Htl |]. split.
        { intros Hnil. destruct (Hclose Hnil) as [H | [_ H]]; [now left | discriminate]. }
        split; [exact Hterm |]. split; [exact Hh |]. split; [intros _; exact Hv |].
        split; [simpl; rewrite Hc; discriminate | discriminate].
    + set (pos' := if is_terminator c then AfterTerminator else Inside).
      destruct (IH pos' Hend') as (h & tl & Heq & Htl & Hclose & Hterm & Hh & _ & _ & _).
      rewrite Heq. simpl. exists (String c h), tl.
      assert (Hvis : visible (String c h) = true).
      { unfold visible. simpl starts_visible. rewrite Hc. simpl.
        destruct h as [|x h]; [simpl; now rewrite Hc |].
        destruct Hh as [Hh | Hh]; [discriminate | exact Hh]. }
      split; [reflexivity |]. split; [exact Htl |]. split.
      { intros Hnil. left. destruct (Hclose Hnil) as [H | [-> H]].
        - rewrite ends_sentence_cons; [exact H | now apply ends_sentence_nonempty].
        - subst pos'. simpl. destruct (is_terminator c); [reflexivity | discriminate]. }
      split; [exact Hterm |]. split.
      { right. unfold visible in Hvis. apply andb_true_iff in Hvis. tauto. }
      split; [intros _; exact Hvis |].
      split; [intros _; simpl; now rewrite Hc | discriminate].
Qed.

(** The pieces of a text without outer whitespace. *)
Lemma sentence_split_visible (s : string) :
  visible s = true ->
  Forall (fun p => visible p = true) (sentence_split s) /\
  all_but_last ends_sentence (sentence_split s) = true.
Proof.
  unfold visible. intros H. apply andb_true_iff in H. destruct H as [Hs He].
  unfold sentence_split.
  destruct (split_from_shape s Inside He)
    as (h & tl & -> & Htl & Hclose & Hterm & Hh & _ & Hstart & Hne).
  specialize (Hstart Hs). specialize (Hne eq_refl). split.
  - constructor; [| exact Htl]. unfold visible. rewrite Hstart.
    destruct Hh as [Hh | Hh]; [contradiction | exact Hh].
  - destruct tl as [|x tl]; [reflexivity |]. cbn [all_but_last].
    destruct (Hclose ltac:(discriminate)) as [H | [_ H]]; [| discriminate].
    now rewrite H.
Qed.

Lemma filter_all {X : Type} (f : X -> bool) (l : list X) :
  Forall (fun x => f x = true) l -> filter f l = l.
Proof.
  induction 1 as [|x l Hx _ IH]; simpl; [reflexivity | now rewrite Hx, IH].
Qed.

Lemma map_fixed {X : Type} (f : X -> X) (l : list X) :
  Forall (fun x => f x = x) l -> map f l = l.
Proof.
  induction 1 as [|x l Hx _ IH]; simpl; [reflexivity | now rewrite Hx, IH].
Qed.

(** [_sentences] returns nothing for blank text, and otherwise the pieces
    of the stripped text as they are: the two [strip] calls and the test
    of the comprehension change nothing. *)
Lemma sentences_pieces (text : string) :
  (strip text = "" /\ _sentences text = []) \/
  (visible (strip text) = true /\ _sentences text = sentence_split (strip text)).
Proof.
  unfold _sentences. destruct (strip_visible text) as [-> | Hv]; [now left | right].
  split; [exact Hv |].
  destruct (sentence_split_visible _ Hv) as [Hall _].
  rewrite filter_all, map_fixed; trivial.
  - eapply Forall_impl; [| exact Hall]. intros p Hp. now apply visible_strip.
  - eapply Forall_impl; [| exact Hall]. intros p Hp.
    destruct (visible_strip p Hp) as [-> Hne]. now destruct p.
Qed.

Lemma sentences_nonempty (text : string) :
  _sentences text = [] <-> strip text = "".
Proof.
  destruct (sentences_pieces text) as [[Hs ->] | [Hv ->]].
  - tauto.
  - split.
    + intros H. now apply split_from_nonempty in H.
    + intros H. rewrite H in Hv. discriminate.
Qed.

(** X1: sentences are never empty, carry no outer whitespace, and each one
    but the last ends with a full stop, an exclamation mark or a question
    mark; there is no sentence exactly when the text is blank. *)
Theorem sentences_end_with_terminators (text : string) :
  let sents := _sentences text in
  Forall (fun s => s <> "" /\ strip s = s /\
                   starts_visible s = true /\ ends_visible s = true) sents /\
  all_but_last ends_sentence sents = true /\
  (sents = [] <-> strip text = "").
Proof.
  intros sents. split; [| split].
  - subst sents. destruct (sentences_pieces text) as [[_ ->] | [Hv ->]]; [constructor |].
    destruct (sentence_split_visible _ Hv) as [Hall _].
    eapply Forall_impl; [| exact Hall]. intros p Hp.
    destruct (visible_strip p Hp) as [H1 H2]. unfold visible in Hp.
    apply andb_true_iff in Hp. tauto.
  - subst sents. destruct (sentences_pieces text) as [[_ ->] | [Hv ->]]; [reflexivity |].
    now destruct (sentence_split_visible _ Hv).
  - apply sentences_nonempty.
Qed.

Lemma all_chars_space_cons (c : ascii) (s : string) :
  is_space c = true -> all_chars is_space s = true ->
  blank_run (String c s) = true.
Proof. intros Hc Hs. unfold blank_run. simpl. now rewrite Hc, Hs. Qed.

(** The pieces and the separators between them make up the text. *)
Lemma split_from_weave (s : string) (pos : position) :
  exists lead seps,
    s = lead ++ weave (split_from pos s) seps /\
    all_chars is_space lead = true /\
    (pos <> InSeparator -> lead = "") /\
    S (List.length seps) = List.length (split_from pos s) /\
    Forall (fun x => blank_run x = true) seps.
Proof.
  revert pos. induction s as [|c s IH]; intros pos.
  - exists "", []. simpl. repeat split; auto.
  - cbn [split_from]. destruct (is_space c) eqn:Hc.
    + destruct pos.
      * destruct (IH Inside) as (lead & seps & Heq & _ & Hlead & Hlen & Hseps).
        rewrite (Hlead ltac:(discriminate)) in Heq. simpl in Heq.
        exists "", seps. pose proof (split_from_nonempty Inside s) as Hne.
        destruct (split_from Inside s) as [|h tl]; [congruence |].
        simpl. repeat split; auto.
        destruct seps as [|x seps]; simpl in *; now rewrite Heq at 1.
      * destruct (IH InSeparator) as (lead & seps & Heq & Hsp & _ & Hlen & Hseps).
        exists "", (String c lead :: seps). simpl. repeat split; auto.
        -- now rewrite Heq at 1.
        -- constructor; [now apply all_chars_space_cons | exact Hseps].
      * destruct (IH InSeparator) as (lead & seps & Heq & Hsp & _ & Hlen & Hseps).
        exists (String c lead), seps. simpl. repeat split; auto.
        -- now rewrite Heq at 1.
        -- now rewrite Hc, Hsp.
        -- congruence.
    + set (pos' := if is_terminator c then AfterTerminator else Inside).
      destruct (IH pos') as (lead & seps & Heq & _ & Hlead & Hlen & Hseps).
      rewrite Hlead in Heq by (subst pos'; destruct (is_terminator c); discriminate).
      simpl in Heq. exists "", seps.
      pose proof (split_from_nonempty pos' s) as Hne.
      destruct (split_from pos' s) as [|h tl]; [congruence |].
      simpl. repeat split; auto.
      destruct seps as [|x seps]; simpl in *; now rewrite Heq at 1.
Qed.

(** X2: the sentences are the stripped text cut at runs of whitespace: put
    back together with a suitable non-empty run of whitespace between each
    two neighbours, they give the stripped text. *)
Theorem sentences_partition_text (text : string) :
  exists seps,
    weave (_sentences text) seps = strip text /\
    List.length seps = Nat.pred (List.length (_sentences text)) /\
    Forall (fun x => blank_run x = true) seps.
Proof.
  destruct (sentences_pieces text) as [[Hs ->] | [Hv ->]].
  - exists []. rewrite Hs. repeat split; auto.
  - destruct (split_from_weave (strip text) Inside)
      as (lead & seps & Heq & _ & Hlead & Hlen & Hseps).
    rewrite (Hlead ltac:(discriminate)) in Heq. simpl in Heq.
    exists seps. unfold sentence_split. repeat split; auto.
    rewrite <- Hlen. reflexivity.
Qed.

End Sentences.

Section LocalSummary.
Import Main Spec Summary SummarySpec Samples.

Lemma or_else_empty (s : string) : or_else s "" = s.
Proof. now destruct s. Qed.

Lemma join_nonempty (sep : string) (l : list string) :
  l <> [] -> Forall (fun s => s <> "") l -> join sep l <> "".
Proof.
  destruct l as [|x l]; [congruence |]. intros _ Hall.
  inversion Hall as [|? ? Hx _]; subst.
  destruct x as [|c x]; [congruence |].
  destruct l; simpl; discriminate.
Qed.

Lemma firstn_firstn_min {X : Type} (i j : nat) (l : list X) :
  (i <= j)%nat -> firstn i (firstn j l) = firstn i l.
Proof. intros H. rewrite firstn_firstn. f_equal. lia. Qed.

Lemma Forall_prefix {X : Type} (P : X -> Prop) (n : nat) (l : list X) :
  Forall P l -> Forall P (firstn n l).
Proof.
  intros H. rewrite <- (firstn_skipn n l) in H. now apply Forall_app in H.
Qed.

Lemma top_keywords_prefix (text : string) (i j : Z) :
  0 <= i <= j ->
  firstn (Z.to_nat i) (_top_keywords text j) = _top_keywords text i.
Proof.
  intros H. rewrite !top_keywords_nonneg by lia.
  apply firstn_firstn_min. lia.
Qed.

Lemma top_keywords_length (text : string) (k : Z) :
  0 <= k ->
  List.length (_top_keywords text k)
  = Nat.min (Z.to_nat k) (List.length (nodup string_dec (_tokens text))).
Proof.
  intros H. rewrite top_keywords_nonneg by exact H.
  now rewrite length_firstn, ranking_length.
Qed.

Lemma nodup_nil_iff (l : list string) : nodup string_dec l = [] <-> l = [].
Proof.
  split; [| now intros ->]. destruct l as [|x l]; [reflexivity |]. intros H.
  assert (Hin : In x (nodup string_dec (x :: l))) by (apply nodup_In; now left).
  rewrite H in Hin. destruct Hin.
Qed.

(** X3: for text that is not blank, when no language model is configured
    or its branch raises, the summary is built locally: the abstract is
    the first two sentences joined by a space, never empty and never the
    280-character cut of the text; the takeaways name the three best
    keywords, or hold the one fallback sentence when the text has no
    keyword; the tags are the five best keywords in title case. *)
Theorem summarize_local_path `{Gemini} (req : SummarizeRequest) :
  let text := strip (req_text req) in
  text <> "" ->
  (configure_gemini = false \/
   gemini_summary (lower (or_else (req_language req) "en")) text = None) ->
  let r := summarize req in
  resp_abstract r = join " " (firstn 2 (_sentences text)) /\
  resp_abstract r <> "" /\
  (1 <= List.length (resp_key_takeaways r) <= 3)%nat /\
  List.length (resp_ai_tags r)
    = Nat.min 5 (List.length (nodup string_dec (_tokens text))) /\
  resp_ai_tags r = map title (_top_keywords text 5) /\
  (_tokens text = [] ->
   resp_key_takeaways r = ["Review source text for key points."]) /\
  (_tokens text <> [] ->
   resp_key_takeaways r = map (fun w => "Keyword: " ++ w) (_top_keywords text 3)).
Proof.
  intros text Htext Hmodel r.
  assert (Hr : r = local_summary text).
  { subst r. unfold summarize. rewrite or_else_empty. fold text.
    destruct text as [|c t] eqn:Ht; [congruence |]. cbn [truthy negb].
    destruct Hmodel as [-> | Hm]; [reflexivity |].
    destruct configure_gemini; [now rewrite Hm | reflexivity]. }
  assert (Hsents : _sentences text <> []).
  { intros Hnil. apply sentences_nonempty in Hnil.
    destruct (strip_visible (req_text req)) as [Hb | Hv]; [contradiction |].
    destruct (visible_strip _ Hv) as [Hfix _]. fold text in Hfix. congruence. }
  assert (Habs : resp_abstract r = join " " (firstn 2 (_sentences text))).
  { rewrite Hr. unfold local_summary. cbn [resp_abstract].
    destruct (_sentences text); [congruence | reflexivity]. }
  assert (H3 : firstn 3 (_top_keywords text 6) = _top_keywords text 3)
    by (apply (top_keywords_prefix text 3 6); lia).
  assert (H5 : firstn 5 (_top_keywords text 6) = _top_keywords text 5)
    by (apply (top_keywords_prefix text 5 6); lia).
  pose proof (top_keywords_length text 3 ltac:(lia)) as L3.
  pose proof (top_keywords_length text 5 ltac:(lia)) as L5.
  assert (Hkt : resp_key_takeaways r =
                match map (fun w => "Keyword: " ++ w) (_top_keywords text 3) with
                | [] => ["Review source text for key points."]
                | l => l
                end).
  { rewrite Hr. unfold local_summary. cbn [resp_key_takeaways]. now rewrite H3. }
  assert (Htags : resp_ai_tags r = map title (_top_keywords text 5)).
  { rewrite Hr. unfold local_summary. cbn [resp_ai_tags]. now rewrite H5. }
  split; [exact Habs |]. split.
  { rewrite Habs. apply join_nonempty.
    - destruct (_sentences text) as [|a [|b l]]; [congruence | discriminate | discriminate].
    - destruct (sentences_pieces (req_text req)) as [[Hb _] | [Hv _]]; [contradiction |].
      destruct (visible_strip _ Hv) as [Hfix _]. fold text in Hfix.
      destruct (sentences_pieces text) as [[Hb _] | [Hv' Heq]]; [congruence |].
      rewrite Heq. apply Forall_prefix.
      destruct (sentence_split_visible _ Hv') as [Hall _].
      eapply Forall_impl; [| exact Hall]. intros p Hp. now apply visible_strip. }
  split.
  { rewrite Hkt. destruct (_top_keywords text 3) as [|w l] eqn:Hk; [simpl; lia |].
    cbn [map List.length]. rewrite length_map.
    change (Z.to_nat 3) with 3%nat in L3. cbn [List.length] in L3. lia. }
  split; [rewrite Htags, length_map; exact L5 |].
  split; [exact Htags |]. split.
  - intros Hnone. rewrite Hkt.
    destruct (_top_keywords text 3) as [|w l] eqn:Hk; [reflexivity |].
    rewrite Hnone in L3. cbn in L3. discriminate.
  - intros Hsome. rewrite Hkt.
    destruct (_top_keywords text 3) as [|w l] eqn:Hk; [| reflexivity].
    destruct (nodup string_dec (_tokens text)) as [|x n] eqn:Hn.
    + exfalso. apply Hsome. now apply nodup_nil_iff.
    + cbn in L3. discriminate.
Qed.

Lemma summarize_local_path_witness :
  strip (req_text bone_request) <> "" /\
  resp_abstract (summarize (H := no_model) bone_request)
    = "Bone loss in orbit. Bone density drops!" /\
  resp_ai_tags (summarize (H := no_model) bone_request)
    = ["Bone"; "Loss"; "Orbit"; "Density"; "Drops"].
Proof.
  assert (H : strip (req_text bone_request) <> "") by (vm_compute; discriminate).
  destruct (summarize_local_path (H := no_model) bone_request H (or_introl eq_refl))
    as (Habs & _ & _ & _ & Htags & _).
  split; [exact H |]. split.
  - rewrite Habs. vm_compute. reflexivity.
  - rewrite Htags. vm_compute. reflexivity.
Defined.

End LocalSummary.

(** *** Laws of the tokeniser *)

Section TokenLaws.
Import Main Spec Summary.

Lemma lower_app (a b : string) : lower (a ++ b) = lower a ++ lower b.
Proof. induction a as [|c a IH]; simpl; [reflexivity | now rewrite IH]. Qed.

Lemma lower_char_idempotent (c : ascii) : lower_char (lower_char c) = lower_char c.
Proof. destruct c as [[] [] [] [] [] [] [] []]; reflexivity. Qed.

Lemma lower_idempotent (s : string) : lower (lower s) = lower s.
Proof.
  induction s as [|c s IH]; simpl; [reflexivity |].
  now rewrite lower_char_idempotent, IH.
Qed.

Lemma alnum_lower_fixed (c : ascii) : is_alnum_lower c = true -> lower_char c = c.
Proof. destruct c as [[] [] [] [] [] [] [] []]; (reflexivity || discriminate). Qed.

Lemma lower_alnum (w : string) : all_chars is_alnum_lower w = true -> lower w = w.
Proof.
  induction w as [|c w IH]; simpl; [reflexivity |]. intros H.
  apply andb_true_iff in H. destruct H as [Hc Hw].
  now rewrite (alnum_lower_fixed c Hc), (IH Hw).
Qed.

(** A separator ends the word under construction. *)
Lemma words_from_separator (a r cur : string) (c : ascii) :
  is_alnum_lower c = false ->
  words_from cur (a ++ String c r) = (words_from cur a ++ words_from "" r)%list.
Proof.
  intros Hc. revert cur. induction a as [|x a IH]; intros cur; simpl.
  - now rewrite Hc.
  - destruct (is_alnum_lower x); [apply IH |].
    now rewrite IH, app_assoc.
Qed.

Lemma words_from_leading_separators (sep b : string) :
  all_chars (fun c => negb (is_alnum_lower c)) sep = true ->
  words_from "" (sep ++ b) = words_from "" b.
Proof.
  induction sep as [|c sep IH]; simpl; [reflexivity |]. intros H.
  apply andb_true_iff in H. destruct H as [Hc Hs].
  apply negb_true_iff in Hc. rewrite Hc. simpl. now apply IH.
Qed.

Lemma all_chars_lower (p : ascii -> bool) (s : string) :
  all_chars p (lower s) = all_chars (fun c => p (lower_char c)) s.
Proof. induction s as [|c s IH]; simpl; [reflexivity | now rewrite IH]. Qed.

(** The words of two texts with a separator between them. *)
Lemma words_of_separated_texts (a sep b : string) :
  sep <> "" ->
  all_chars (fun c => negb (is_alnum_lower (lower_char c))) sep = true ->
  words_from "" (lower (a ++ sep ++ b))
  = (words_from "" (lower a) ++ words_from "" (lower b))%list.
Proof.
  intros Hne Hsep. rewrite !lower_app.
  destruct sep as [|c sep]; [congruence |]. simpl in Hsep |- *.
  apply andb_true_iff in Hsep. destruct Hsep as [Hc Hs]. apply negb_true_iff in Hc.
  rewrite (words_from_separator _ _ _ _ Hc). f_equal.
  apply words_from_leading_separators. now rewrite all_chars_lower.
Qed.

(** X4: tokenisation works piece by piece: when two texts are put together
    with a separator between them, a non-empty string without a letter or
    a digit, the tokens are those of the first text followed by those of
    the second. *)
Theorem tokens_of_separated_texts (a sep b : string) :
  sep <> "" ->
  all_chars (fun c => negb (is_alnum_lower (lower_char c))) sep = true ->
  _tokens (a ++ sep ++ b) = (_tokens a ++ _tokens b)%list.
Proof.
  intros Hne Hsep. rewrite !tokens_normalize. unfold normalize.
  rewrite (words_of_separated_texts a sep b Hne Hsep). apply filter_app.
Qed.

Lemma tokens_of_separated_texts_witness :
  _tokens ("Bone loss" ++ ". " ++ "In ORBIT")
  = (_tokens "Bone loss" ++ _tokens "In ORBIT")%list.
Proof.
  apply tokens_of_separated_texts; [discriminate | reflexivity].
Defined.

Lemma words_from_word (w cur : string) :
  all_chars is_alnum_lower w = true -> words_from cur w = emit (cur ++ w).
Proof.
  revert cur. induction w as [|c w IH]; intros cur; simpl.
  - now rewrite append_empty_r.
  - intros H. apply andb_true_iff in H. destruct H as [Hc Hw].
    rewrite Hc, (IH _ Hw), append_assoc. reflexivity.
Qed.

Lemma tokens_of_token (w : string) :
  all_chars is_alnum_lower w = true -> retained w = true -> _tokens w = [w].
Proof.
  intros Hw Hr. rewrite tokens_normalize. unfold normalize.
  rewrite (lower_alnum w Hw), (words_from_word w "" Hw). simpl.
  unfold emit. destruct w as [|c w]; [discriminate |]. simpl. now rewrite Hr.
Qed.

Lemma tokens_are_words (text : string) :
  Forall (fun w => all_chars is_alnum_lower w = true /\ retained w = true) (_tokens text).
Proof.
  rewrite tokens_normalize. unfold normalize. apply Forall_forall. intros w Hin.
  apply filter_In in Hin. destruct Hin as [Hin Hr]. split; [| exact Hr].
  pose proof (words_from_alnum (lower text) "" eq_refl) as Hall.
  rewrite Forall_forall in Hall. now apply Hall.
Qed.

Lemma tokens_of_joined_words (l : list string) :
  Forall (fun w => all_chars is_alnum_lower w = true /\ retained w = true) l ->
  _tokens (join " " l) = l.
Proof.
  induction 1 as [|w l [Hw Hr] Hl IH]; [reflexivity |].
  destruct l as [|x l]; [now apply tokens_of_token |].
  change (join " " (w :: x :: l)) with (w ++ " " ++ join " " (x :: l)).
  rewrite tokens_normalize. unfold normalize.
  rewrite words_of_separated_texts; [| discriminate | reflexivity].
  rewrite filter_app. fold (normalize w). fold (normalize (join " " (x :: l))).
  rewrite <- !tokens_normalize. now rewrite IH, tokens_of_token.
Qed.

(** X5: normalised text is stable: the tokens of a text do not depend on
    the case of its letters, and the tokens joined by spaces tokenise to
    themselves, so that tokenising twice is the same as tokenising
    once. *)
Theorem tokens_stable (text : string) :
  _tokens (lower text) = _tokens text /\
  _tokens (join " " (_tokens text)) = _tokens text /\
  _top_keywords (join " " (_tokens text)) = _top_keywords text.
Proof.
  assert (H : _tokens (join " " (_tokens text)) = _tokens text)
    by apply tokens_of_joined_words, tokens_are_words.
  split; [| split; [exact H |]].
  - rewrite !tokens_normalize. unfold normalize. now rewrite lower_idempotent.
  - unfold _top_keywords. now rewrite H.
Qed.

End TokenLaws.

(** *** The range of the cosine similarity *)

Section CosineRange.
Import Main Spec VectorSpec.
Local Open Scope R_scope.

(** The inequality of Cauchy and Schwarz for two families of numbers
    that are not negative, indexed by a list. *)
Lemma cauchy_schwarz {X : Type} (f g : X -> R) (l : list X) :
  (forall x, 0 <= f x) -> (forall x, 0 <= g x) ->
  0 <= Rsum (map (fun x => f x * g x) l) /\
  0 <= Rsum (map (fun x => f x * f x) l) /\
  0 <= Rsum (map (fun x => g x * g x) l) /\
  Rsum (map (fun x => f x * g x) l) * Rsum (map (fun x => f x * g x) l)
  <= Rsum (map (fun x => f x * f x) l) * Rsum (map (fun x => g x * g x) l).
Proof.
  intros Hf Hg. unfold Rsum. induction l as [|t l (HS & HA & HB & IH)]; simpl.
  - repeat split; lra.
  - set (S := fold_right Rplus 0 (map (fun x => f x * g x) l)) in *.
    set (A := fold_right Rplus 0 (map (fun x => f x * f x) l)) in *.
    set (B := fold_right Rplus 0 (map (fun x => g x * g x) l)) in *.
    pose proof (Hf t) as Hx. pose proof (Hg t) as Hy.
    set (x := f t) in *. set (y := g t) in *.
    assert (Hxy : 0 <= x * y) by nra.
    split; [nra |]. split; [nra |]. split; [nra |].
    assert (Hmid : 2 * (x * y) * S <= x * x * B + y * y * A).
    { assert (H0 : 0 <= 2 * (x * y) * S) by nra.
      assert (H1 : 0 <= x * x * B + y * y * A) by nra.
      assert (H2 : (2 * (x * y) * S) * (2 * (x * y) * S)
                   <= (x * x * B + y * y * A) * (x * x * B + y * y * A)).
      { pose proof (Rle_0_sqr (x * x * B - y * y * A)) as Hd. unfold Rsqr in Hd.
        assert (He : 0 <= (x * y) * (x * y) * (A * B - S * S)).
        { apply Rmult_le_pos; [apply Rmult_le_pos; exact Hxy | lra]. }
        nra. }
      destruct (Rle_lt_dec (2 * (x * y) * S) (x * x * B + y * y * A)) as [Hle | Hgt];
        [exact Hle | exfalso].
      assert (Hlt : (x * x * B + y * y * A) * (x * x * B + y * y * A)
                    < (2 * (x * y) * S) * (2 * (x * y) * S)).
      { apply Rmult_le_0_lt_compat; trivial. }
      lra. }
    nra.
Qed.

Lemma Rsum_app (xs ys : list R) : Rsum (xs ++ ys) = Rsum xs + Rsum ys.
Proof. unfold Rsum. induction xs as [|x xs IH]; simpl; lra. Qed.

Lemma dict_get_nonneg (q : list (string * R)) (t : string) :
  term_vector q -> 0 <= dict_get q t 0.
Proof.
  intros [Hnd Hpos]. destruct (in_dec string_dec t (dict_keys q)) as [Hin | Hout].
  - apply in_map_iff in Hin. destruct Hin as ([k v] & Hk & Hin). simpl in Hk. subst k.
    rewrite (dict_get_entry q t v 0 Hnd Hin). specialize (Hpos t v Hin). lra.
  - rewrite (dict_get_absent q t 0 Hout). lra.
Qed.

(** Summed over the keys of both vectors, the squares of the weights of
    [q] are those of its own entries: a key that [q] lacks weighs zero. *)
Lemma squares_over_union (q d : list (string * R)) :
  NoDup (dict_keys q) ->
  Rsum (map (fun t => dict_get q t 0 * dict_get q t 0) (key_union (A := Exact) q d))
  = Rsum (map (fun v => v * v) (dict_values q)).
Proof.
  intros Hnd. unfold key_union. change (num Exact) with R.
  rewrite map_app, Rsum_app, (self_products q Hnd).
  rewrite (Rsum_all_zero (map _ (filter _ _))); [unfold Rsum; lra |].
  rewrite Forall_forall. intros x Hx. apply in_map_iff in Hx.
  destruct Hx as (t & <- & Ht). apply filter_In in Ht. destruct Ht as [_ Ht].
  apply negb_true_iff in Ht. change (num Exact) with R in Ht.
  rewrite (dict_get_absent q t 0); [lra |].
  intros Hin. apply (dict_mem_In q t) in Hin. congruence.
Qed.

Lemma magnitude_exact (x : list (string * R)) :
  let n := R_sqrt.sqrt (Rsum (map (fun v => v * v) (dict_values x))) in
  magnitude (A := Exact) x = if Req_dec_T n 0 then 1 else n.
Proof.
  unfold magnitude. cbn [sqrt mul is_zero one Exact]. rewrite sum_exact.
  unfold Rsum. now destruct (Req_dec_T _ 0).
Qed.



End CosineRange.

(** *** Dates and years of the normalised records *)

Section DateAndYear.
Import Fetcher DateSpec.

(** One step of the matcher: the alternative taken for the first
    directive, what it matched, and the match of the rest. *)
Lemma regex_match_step (d : directive) (ds : list directive) (s rest : string)
    (acc f : fields) :
  regex_match (d :: ds) s acc = Some (f, rest) ->
  exists alt m r,
    In alt (alternatives d) /\
    match_alt alt s = Some (m, r) /\
    regex_match ds r (store d m acc) = Some (f, rest).
Proof.
  cbn [regex_match]. intros H. apply first_some_In in H.
  destruct H as (alt & Hin & H).
  destruct (match_alt alt s) as [[m r] |] eqn:Hm; [| discriminate].
  now exists alt, m, r.
Qed.

Lemma match_alt_cons (p : ascii -> bool) (alt : alternative) (s m r : string) :
  match_alt (p :: alt) s = Some (m, r) ->
  exists c s' m',
    s = String c s' /\ p c = true /\ match_alt alt s' = Some (m', r) /\ m = String c m'.
Proof.
  simpl. destruct s as [|c s]; [discriminate |].
  destruct (p c) eqn:Hp; [| discriminate].
  destruct (match_alt alt s) as [[m' r'] |] eqn:Hm; [| discriminate].
  intros [= <- <-]. now exists c, s, m'.
Qed.

Lemma match_alt_nil (s m r : string) :
  match_alt [] s = Some (m, r) -> m = "" /\ r = s.
Proof. simpl. now intros [= <- <-]. Qed.

Lemma regex_match_nil (s rest : string) (acc f : fields) :
  regex_match [] s acc = Some (f, rest) -> f = acc /\ rest = s.
Proof. simpl. now intros [= <- <-]. Qed.

Lemma take_cons (n : nat) (s t : string) (c : ascii) :
  take (S n) s = String c t -> exists s', s = String c s' /\ take n s' = t.
Proof.
  destruct s as [|x s]; simpl; [discriminate |]. intros [= -> <-]. now exists s.
Qed.

(** Characters: a decimal digit is its own lower case and is none of the
    punctuation marks of the patterns. *)
Lemma digit_lower (c : ascii) : is_digit c = true -> lower_char c = c.
Proof. destruct c as [[] [] [] [] [] [] [] []]; (reflexivity || discriminate). Qed.

Lemma lower_char_mark (l c : ascii) :
  (code l <? 65) = true -> lower_char c = l -> c = l.
Proof.
  intros Hl H. subst l. revert Hl.
  destruct c as [[] [] [] [] [] [] [] []]; vm_compute; congruence.
Qed.

(** A literal of a pattern that is a punctuation mark matches that mark
    only. *)
Lemma literal_mark (l c : ascii) :
  (code l <? 65) = true ->
  Ascii.eqb (lower_char c) (lower_char l) = true -> c = l.
Proof.
  intros Hl H. apply Ascii.eqb_eq in H. apply lower_char_mark; [exact Hl |].
  rewrite H. revert Hl. clear.
  destruct l as [[] [] [] [] [] [] [] []]; vm_compute; congruence.
Qed.

Lemma digit_in_digit (lo hi : Z) (c : ascii) :
  0 <= lo -> hi <= 9 -> digit_in lo hi c = true -> is_digit c = true.
Proof.
  unfold digit_in, is_digit, between. intros Hlo Hhi H.
  apply andb_true_iff in H. destruct H as [H1 H2].
  apply Z.leb_le in H1, H2. apply andb_true_iff. split; apply Z.leb_le; lia.
Qed.

Lemma digits_only_digits (m : string) :
  all_chars is_digit m = true -> digits_only m = m.
Proof.
  induction m as [|c m IH]; simpl; [reflexivity |]. intros H.
  apply andb_true_iff in H. destruct H as [-> Hm]. now rewrite (IH Hm).
Qed.

(** A pattern without [%Y] leaves the year as it found it. *)
Lemma regex_match_keeps_year (ds : list directive) (s rest : string) (acc f : fields) :
  ~ In DirY ds ->
  regex_match ds s acc = Some (f, rest) -> f_year f = f_year acc.
Proof.
  revert s acc. induction ds as [|d ds IH]; intros s acc Hno H.
  - apply regex_match_nil in H. now destruct H as [-> _].
  - apply regex_match_step in H. destruct H as (alt & m & r & _ & _ & H).
    apply IH in H; [| intros Hin; apply Hno; now right].
    rewrite H. destruct d; try reflexivity. exfalso. apply Hno. now left.
Qed.

Lemma make_datetime_year (f : fields) (d : datetime) :
  make_datetime f = Some d -> dt_year d = f_year f.
Proof.
  unfold make_datetime. destruct (_ && _); [| discriminate]. now intros [= <-].
Qed.

(** The year that [_extract_year] reads from a string that starts with
    four digits. *)
Lemma extract_year_leading (a b c e : ascii) (s : string) :
  is_digit a = true -> is_digit b = true -> is_digit c = true -> is_digit e = true ->
  let y := int_of (String a (String b (String c (String e "")))) in
  _extract_year (Some (String a (String b (String c (String e s)))))
  = if (1900 <=? y) && (y <=? 2030) then Some y else None.
Proof.
  intros Ha Hb Hc He y. subst y. unfold _extract_year, int_of.
  cbn [truthy negb search_4_digits four_digits_here].
  rewrite Ha, Hb, Hc, He. cbn [andb take].
  rewrite digits_only_digits; [reflexivity |].
  simpl. now rewrite Ha, Hb, Hc, He.
Qed.

(** The same when the four digits stand behind a one-digit month and a
    one-digit day, each followed by a stroke. *)
Lemma extract_year_trailing (m d a b c e : ascii) (s : string) :
  is_digit a = true -> is_digit b = true -> is_digit c = true -> is_digit e = true ->
  let y := int_of (String a (String b (String c (String e "")))) in
  _extract_year
    (Some (String m (String "/" (String d (String "/"
       (String a (String b (String c (String e s)))))))))
  = if (1900 <=? y) && (y <=? 2030) then Some y else None.
Proof.
  intros Ha Hb Hc He y. subst y. unfold _extract_year, int_of.
  cbn [truthy negb].
  assert (Hs : is_digit "/" = false) by reflexivity.
  cbn [search_4_digits four_digits_here]. rewrite Hs, Ha, Hb, Hc, He.
  rewrite !andb_false_r, !andb_false_l. cbn [andb take].
  rewrite digits_only_digits; [reflexivity |].
  simpl. now rewrite Ha, Hb, Hc, He.
Qed.

Lemma strptime_inv (t fmt : string) (d : datetime) :
  strptime t fmt = Some d ->
  exists ds f,
    parse_format fmt = Some ds /\
    regex_match ds t default_fields = Some (f, "") /\
    make_datetime f = Some d.
Proof.
  unfold strptime. destruct (parse_format fmt) as [ds |]; [| discriminate].
  destruct (regex_match ds t default_fields) as [[f [|c rest]] |] eqn:Hm;
    try discriminate.
  intros H. now exists ds, f.
Qed.

(** A pattern that starts with [%Y] and has no other [%Y]: the text
    starts with four digits, and they are the year of the result. *)
Lemma year_first (s fmt : string) (ds : list directive) (n : nat) (d : datetime) :
  parse_format fmt = Some (DirY :: ds) ->
  ~ In DirY ds ->
  String.length (replace_pct_f fmt) = S (S (S (S n))) ->
  try_format s fmt = Some d ->
  exists a b c e s',
    s = String a (String b (String c (String e s'))) /\
    is_digit a = true /\ is_digit b = true /\ is_digit c = true /\ is_digit e = true /\
    dt_year d = int_of (String a (String b (String c (String e "")))).
Proof.
  intros Hfmt Hno Hlen H. unfold try_format in H. rewrite Hlen in H.
  apply strptime_inv in H. destruct H as (ds0 & f & Hds & Hm & Hd).
  rewrite Hfmt in Hds. injection Hds as <-.
  apply regex_match_step in Hm. destruct Hm as (alt & m & r & Hin & Halt & Hm).
  destruct Hin as [<- | []].
  apply match_alt_cons in Halt. destruct Halt as (a & t1 & m1 & Ht & Ha & Halt & ->).
  apply match_alt_cons in Halt. destruct Halt as (b & t2 & m2 & -> & Hb & Halt & ->).
  apply match_alt_cons in Halt. destruct Halt as (c & t3 & m3 & -> & Hc & Halt & ->).
  apply match_alt_cons in Halt. destruct Halt as (e & t4 & m4 & -> & He & Halt & ->).
  apply match_alt_nil in Halt. destruct Halt as [-> ->].
  apply take_cons in Ht. destruct Ht as (s1 & -> & Ht).
  apply take_cons in Ht. destruct Ht as (s2 & -> & Ht).
  apply take_cons in Ht. destruct Ht as (s3 & -> & Ht).
  apply take_cons in Ht. destruct Ht as (s4 & -> & Ht).
  exists a, b, c, e, s4. repeat split; trivial.
  rewrite (make_datetime_year f d Hd).
  now rewrite (regex_match_keeps_year ds _ _ _ _ Hno Hm).
Qed.

(** The pattern [%m/%d/%Y] on eight characters: one digit, a stroke, one
    digit, a stroke and the four digits of the year. *)
Lemma month_day_year (s : string) (d : datetime) :
  try_format s "%m/%d/%Y" = Some d ->
  exists m dd a b c e s',
    s = String m (String "/" (String dd (String "/"
          (String a (String b (String c (String e s'))))))) /\
    is_digit a = true /\ is_digit b = true /\ is_digit c = true /\ is_digit e = true /\
    dt_year d = int_of (String a (String b (String c (String e "")))).
Proof.
  unfold try_format. change (String.length (replace_pct_f "%m/%d/%Y")) with 8%nat.
  intros H. apply strptime_inv in H. destruct H as (ds & f & Hds & Hm & Hd).
  vm_compute in Hds. injection Hds as <-.
  pose proof (take_length 8 s) as Hlen. set (t := take 8 s) in *.
  assert (Ht : take 8 s = t) by reflexivity. clearbody t.
  (* the month *)
  apply regex_match_step in Hm. destruct Hm as (alt & m & r & Hin & Halt & Hm).
  pose proof (match_alt_length _ _ _ _ Halt) as Hl1.
  pose proof (regex_match_width _ _ _ _ _ Hm) as Hw1.
  change (Spec.min_total_width _) with 7%nat in Hw1.
  cbn [alternatives In] in Hin.
  destruct Hin as [<- | [<- | [<- | []]]]; cbn [List.length] in Hl1; try lia.
  apply match_alt_cons in Halt. destruct Halt as (c1 & t1 & m1 & -> & H1 & Halt & ->).
  apply match_alt_nil in Halt. destruct Halt as [-> ->].
  (* the first stroke *)
  apply regex_match_step in Hm. destruct Hm as (alt & m & r & Hin & Halt & Hm).
  destruct Hin as [<- | []].
  apply match_alt_cons in Halt. destruct Halt as (c2 & t2 & m2 & -> & H2 & Halt & ->).
  apply match_alt_nil in Halt. destruct Halt as [-> ->].
  apply (literal_mark "/") in H2; [subst c2 | reflexivity].
  (* the day *)
  apply regex_match_step in Hm. destruct Hm as (alt & m & r & Hin & Halt & Hm).
  pose proof (match_alt_length _ _ _ _ Halt) as Hl3.
  pose proof (regex_match_width _ _ _ _ _ Hm) as Hw3.
  change (Spec.min_total_width _) with 5%nat in Hw3.
  cbn [alternatives In] in Hin. cbn [String.length] in Hlen.
  destruct Hin as [<- | [<- | [<- | [<- | [<- | []]]]]]; cbn [List.length] in Hl3; try lia.
  apply match_alt_cons in Halt. destruct Halt as (c3 & t3 & m3 & -> & H3 & Halt & ->).
  apply match_alt_nil in Halt. destruct Halt as [-> ->].
  (* the second stroke *)
  apply regex_match_step in Hm. destruct Hm as (alt & m & r & Hin & Halt & Hm).
  destruct Hin as [<- | []].
  apply match_alt_cons in Halt. destruct Halt as (c4 & t4 & m4 & -> & H4 & Halt & ->).
  apply match_alt_nil in Halt. destruct Halt as [-> ->].
  apply (literal_mark "/") in H4; [subst c4 | reflexivity].
  (* the year *)
  apply regex_match_step in Hm. destruct Hm as (alt & m & r & Hin & Halt & Hm).
  destruct Hin as [<- | []].
  apply match_alt_cons in Halt. destruct Halt as (a & t5 & m5 & -> & Ha & Halt & ->).
  apply match_alt_cons in Halt. destruct Halt as (b & t6 & m6 & -> & Hb & Halt & ->).
  apply match_alt_cons in Halt. destruct Halt as (c & t7 & m7 & -> & Hc & Halt & ->).
  apply match_alt_cons in Halt. destruct Halt as (e & t8 & m8 & -> & He & Halt & ->).
  apply match_alt_nil in Halt. destruct Halt as [-> ->].
  apply regex_match_nil in Hm. destruct Hm as [-> Hrest]. subst t8.
  do 8 (apply take_cons in Ht; destruct Ht as (? & -> & Ht)).
  do 7 eexists. split; [reflexivity |]. repeat split; trivial.
  now rewrite (make_datetime_year _ d Hd).
Qed.

(** X7: the date and the year that the normalisers store for a record
    come from the same string and never disagree: whenever the date
    parses, the year extracted is the year of that date, or null when
    that year lies outside 1900..2030. *)
Theorem parsed_date_agrees_with_year (s : string) (d : datetime) :
  _parse_date (Some s) = Some d ->
  _extract_year (Some s)
  = if (1900 <=? dt_year d) && (dt_year d <=? 2030) then Some (dt_year d) else None.
Proof.
  rewrite parse_date_five_formats. destruct (truthy s); [| discriminate].
  intros H. apply first_some_In in H. destruct H as (fmt & Hin & H).
  cbn [date_formats firstn In] in Hin.
  destruct Hin as [<- | [<- | [<- | [<- | [<- | []]]]]].
  1-4: (eapply year_first in H;
        [| vm_compute; reflexivity
         | intros Hy; cbn [In] in Hy; intuition discriminate
         | vm_compute; reflexivity ];
        destruct H as (a & b & c & e & s' & -> & Ha & Hb & Hc & He & ->);
        now apply extract_year_leading).
  apply month_day_year in H.
  destruct H as (m & dd & a & b & c & e & s' & -> & Ha & Hb & Hc & He & ->).
  now apply extract_year_trailing.
Qed.

Lemma parsed_date_agrees_with_year_witness :
  _parse_date (Some "3/1/2015")
    = Some {| dt_year := 2015; dt_month := 3; dt_day := 1; dt_hour := 0;
              dt_minute := 0; dt_second := 0; dt_microsecond := 0 |} /\
  _extract_year (Some "3/1/2015") = Some 2015.
Proof.
  assert (H : _parse_date (Some "3/1/2015")
    = Some {| dt_year := 2015; dt_month := 3; dt_day := 1; dt_hour := 0;
              dt_minute := 0; dt_second := 0; dt_microsecond := 0 |})
    by (vm_compute; reflexivity).
  split; [exact H |].
  exact (parsed_date_agrees_with_year _ _ H).
Defined.

Lemma lower_char_digit (c : ascii) : is_digit (lower_char c) = is_digit c.
Proof. destruct c as [[] [] [] [] [] [] [] []]; reflexivity. Qed.

(** A digit is not matched by a literal that is no digit. *)
Lemma digit_not_literal (l c : ascii) :
  is_digit c = true -> is_digit l = false ->
  Ascii.eqb (lower_char c) (lower_char l) = true -> False.
Proof.
  intros Hc Hl H. apply Ascii.eqb_eq in H.
  rewrite <- lower_char_digit, H, lower_char_digit in Hc. congruence.
Qed.

Lemma digit_not_char (l c : ascii) :
  is_digit c = true -> is_digit l = false -> is_char l c = true -> False.
Proof.
  unfold is_char. intros Hc Hl H. apply Ascii.eqb_eq in H. subst. congruence.
Qed.

Lemma literal_T (c : ascii) :
  Ascii.eqb (lower_char c) (lower_char "T") = true -> c = "T"%char \/ c = "t"%char.
Proof.
  destruct c as [[] [] [] [] [] [] [] []]; vm_compute; intros H;
    first [discriminate H | now left | now right].
Qed.

Ltac regex_step Hm Halt :=
  let alt := fresh "alt" in
  let m := fresh "m" in
  let r := fresh "r" in
  let Hin := fresh "Hin" in
  apply regex_match_step in Hm; destruct Hm as (alt & m & r & Hin & Halt & Hm);
  cbn [alternatives In] in Hin;
  repeat (destruct Hin as [<- | Hin]); [ .. | destruct Hin ].

Ltac match_chars Halt :=
  repeat (apply match_alt_cons in Halt;
          let c := fresh "c" in
          let s' := fresh "s" in
          let m' := fresh "m" in
          let Heq := fresh "Heq" in
          let Hp := fresh "Hp" in
          destruct Halt as (c & s' & m' & Heq & Hp & Halt & ->);
          first [ discriminate Heq | injection Heq as <- <-
                | match type of Heq with ?v = _ => is_var v; subst v end ]);
  try (apply match_alt_nil in Halt; destruct Halt as [-> ->]).

Ltac absurd_char :=
  match goal with
  | Hp : Ascii.eqb (lower_char ?c) (lower_char ?l) = true, Hd : is_digit ?c = true |- _ =>
      exact (False_ind _ (digit_not_literal l c Hd eq_refl Hp))
  | Hp : is_char ?l ?c = true, Hd : is_digit ?c = true |- _ =>
      exact (False_ind _ (digit_not_char l c Hd eq_refl Hp))
  | Hp : Ascii.eqb (lower_char ?c) (lower_char ?l) = true |- _ =>
      vm_compute in Hp; discriminate Hp
  end.

Lemma iso_date_format_fails
    (y1 y2 y3 y4 m1 m2 d1 d2 : ascii) (rest fmt : string) :
  is_digit y1 = true -> is_digit y2 = true -> is_digit y3 = true -> is_digit y4 = true ->
  is_digit m1 = true -> is_digit m2 = true -> is_digit d1 = true -> is_digit d2 = true ->
  no_time_of_day rest = true ->
  In fmt (firstn 5 date_formats) ->
  try_format
    (String y1 (String y2 (String y3 (String y4 (String "-"
       (String m1 (String m2 (String "-" (String d1 (String d2 rest))))))))))
    fmt = None.
Proof.
  intros Hy1 Hy2 Hy3 Hy4 Hm1 Hm2 Hd1 Hd2 Hrest Hin.
  destruct (try_format _ fmt) as [d |] eqn:H; [exfalso | reflexivity].
  unfold try_format in H. apply strptime_inv in H.
  destruct H as (ds & f & Hds & Hm & _).
  cbn [date_formats firstn In] in Hin.
  destruct Hin as [<- | [<- | [<- | [<- | [<- | []]]]]];
    vm_compute in Hds; injection Hds as <-;
    match type of Hm with
    | context [take (String.length ?x) _] =>
        let n := eval vm_compute in (String.length x) in
        change (String.length x) with n in Hm
    end;
    cbn [take] in Hm.
  - (* %Y-%m-%dT%H:%M:%S.%fZ *)
    regex_step Hm Ha; match_chars Ha. cbn beta in *.
    regex_step Hm Ha; match_chars Ha.
    regex_step Hm Ha; match_chars Ha; cbn beta in *;
      (regex_step Hm Hb; match_chars Hb; cbn beta in *; try absurd_char);
      (regex_step Hm Hb; match_chars Hb; cbn beta in *; try absurd_char);
      (regex_step Hm Hb; match_chars Hb; cbn beta in *; try absurd_char).
    all: destruct rest as [|x rest]; cbn [take] in Hb; match_chars Hb; cbn beta in *;
      cbn [no_time_of_day] in Hrest;
      match goal with
      | Hp : Ascii.eqb (lower_char x) (lower_char "T") = true |- _ =>
          change (lower_char "T") with "t"%char in Hp; rewrite Hp in Hrest;
          discriminate Hrest
      end.
  - (* %Y-%m-%dT%H:%M:%SZ *)
    regex_step Hm Ha; match_chars Ha. cbn beta in *.
    regex_step Hm Ha; match_chars Ha.
    regex_step Hm Ha; match_chars Ha; cbn beta in *;
      (regex_step Hm Hb; match_chars Hb; cbn beta in *; try absurd_char);
      (regex_step Hm Hb; match_chars Hb; cbn beta in *; try absurd_char);
      (regex_step Hm Hb; match_chars Hb; cbn beta in *; try absurd_char).
    all: destruct rest as [|x rest]; cbn [take] in Hb; match_chars Hb; cbn beta in *;
      cbn [no_time_of_day] in Hrest;
      match goal with
      | Hp : Ascii.eqb (lower_char x) (lower_char "T") = true |- _ =>
          change (lower_char "T") with "t"%char in Hp; rewrite Hp in Hrest;
          discriminate Hrest
      end.
  - (* %Y-%m-%d *)
    regex_step Hm Ha; match_chars Ha. cbn beta in *.
    regex_step Hm Ha; match_chars Ha.
    regex_step Hm Ha; match_chars Ha; cbn beta in *;
      (regex_step Hm Hb; match_chars Hb; cbn beta in *; try absurd_char);
      (regex_step Hm Hb; match_chars Hb; cbn beta in *; try absurd_char).
  - (* %Y/%m/%d *)
    regex_step Hm Ha; match_chars Ha. cbn beta in *.
    regex_step Hm Ha; match_chars Ha. cbn beta in *. absurd_char.
  - (* %m/%d/%Y *)
    regex_step Hm Ha; match_chars Ha; cbn beta in *;
      (regex_step Hm Hb; match_chars Hb; cbn beta in *; absurd_char).
Qed.

Lemma first_some_none {X Y : Type} (f : X -> option Y) (l : list X) :
  (forall x, In x l -> f x = None) -> first_some f l = None.
Proof.
  induction l as [|x l IH]; intros H; simpl; [reflexivity |].
  rewrite (H x (or_introl eq_refl)). apply IH. intros y Hy. apply H. now right.
Qed.

(** X8: a calendar date in the ISO form, four digits of year, two of month
    and two of day with hyphens between them, is never parsed, whatever
    the digits, alone or followed by anything but the letter T: each
    attempt sees the date cut to the length of its pattern. *)
Theorem iso_calendar_date_never_parses
    (y1 y2 y3 y4 m1 m2 d1 d2 : ascii) (rest : string) :
  is_digit y1 = true -> is_digit y2 = true -> is_digit y3 = true -> is_digit y4 = true ->
  is_digit m1 = true -> is_digit m2 = true -> is_digit d1 = true -> is_digit d2 = true ->
  no_time_of_day rest = true ->
  _parse_date
    (Some (String y1 (String y2 (String y3 (String y4 (String "-"
       (String m1 (String m2 (String "-" (String d1 (String d2 rest)))))))))))
  = None.
Proof.
  intros. rewrite parse_date_five_formats. cbn [truthy].
  apply first_some_none. intros fmt Hin. now apply iso_date_format_fails.
Qed.

Lemma iso_calendar_date_never_parses_witness :
  _parse_date (Some "2015-12-31 23:59:59") = None.
Proof.
  exact (iso_calendar_date_never_parses "2" "0" "1" "5" "1" "2" "3" "1" " 23:59:59"
           eq_refl eq_refl eq_refl eq_refl eq_refl eq_refl eq_refl eq_refl eq_refl).
Defined.

Lemma make_datetime_fields (f : fields) (d : datetime) :
  make_datetime f = Some d ->
  d = {| dt_year := f_year f; dt_month := f_month f; dt_day := f_day f;
         dt_hour := f_hour f; dt_minute := f_minute f; dt_second := f_second f;
         dt_microsecond := f_fraction f |}.
Proof.
  unfold make_datetime. destruct (_ && _); [| discriminate]. now intros [= <-].
Qed.

Lemma int_of_digit (c : ascii) :
  digit_in 1 9 c = true -> 1 <= int_of (String c "") <= 9.
Proof.
  intros H. pose proof (digit_in_digit 1 9 c ltac:(lia) ltac:(lia) H) as Hd.
  unfold int_of. simpl. rewrite Hd. unfold int_of_digits. simpl.
  unfold digit_in, between in H. apply andb_true_iff in H. destruct H as [H1 H2].
  apply Z.leb_le in H1, H2. lia.
Qed.

(** A pattern of a year, a month and a day on at most eight characters:
    the month and the day have one digit each. *)
Lemma year_month_day (l : ascii) (t : string) (f : fields) :
  (String.length t <= 8)%nat ->
  regex_match [DirY; Lit l; Dirm; Lit l; Dird] t default_fields = Some (f, "") ->
  1 <= f_month f <= 9 /\ 1 <= f_day f <= 9 /\
  f_hour f = 0 /\ f_minute f = 0 /\ f_second f = 0 /\ f_fraction f = 0.
Proof.
  intros Hlen Hm.
  regex_step Hm Ha. match_chars Ha. cbn [String.length] in Hlen.
  regex_step Hm Ha. match_chars Ha.
  apply regex_match_step in Hm. destruct Hm as (alt & m & r & Hin & Halt & Hm).
  pose proof (match_alt_length _ _ _ _ Halt) as Hl1.
  pose proof (regex_match_width _ _ _ _ _ Hm) as Hw1.
  change (Spec.min_total_width _) with 2%nat in Hw1.
  cbn [alternatives In] in Hin.
  destruct Hin as [<- | [<- | [<- | []]]]; cbn [List.length] in Hl1;
    try (cbn [String.length] in *; lia).
  match_chars Halt.
  regex_step Hm Ha. match_chars Ha.
  apply regex_match_step in Hm. destruct Hm as (alt & m & r & Hin & Halt & Hm).
  pose proof (match_alt_length _ _ _ _ Halt) as Hl2.
  apply regex_match_nil in Hm. destruct Hm as [-> Hr].
  cbn [alternatives In] in Hin. cbn [String.length] in Hlen.
  destruct Hin as [<- | [<- | [<- | [<- | [<- | []]]]]];
    cbn [List.length] in Hl2; try (cbn [String.length] in *; lia).
  match_chars Halt. symmetry in Hr. subst. cbn beta in *.
  cbn [store f_month f_day f_hour f_minute f_second f_fraction default_fields].
  repeat split; try reflexivity;
    match goal with H : digit_in 1 9 ?c = true |- context [int_of (String ?c "")] =>
      apply (int_of_digit c H) end.
Qed.

Lemma month_day_then_year (l : ascii) (t : string) (f : fields) :
  (String.length t <= 8)%nat ->
  regex_match [Dirm; Lit l; Dird; Lit l; DirY] t default_fields = Some (f, "") ->
  1 <= f_month f <= 9 /\ 1 <= f_day f <= 9 /\
  f_hour f = 0 /\ f_minute f = 0 /\ f_second f = 0 /\ f_fraction f = 0.
Proof.
  intros Hlen Hm.
  apply regex_match_step in Hm. destruct Hm as (alt & m & r & Hin & Halt & Hm).
  pose proof (match_alt_length _ _ _ _ Halt) as Hl1.
  pose proof (regex_match_width _ _ _ _ _ Hm) as Hw1.
  change (Spec.min_total_width _) with 7%nat in Hw1.
  cbn [alternatives In] in Hin.
  destruct Hin as [<- | [<- | [<- | []]]]; cbn [List.length] in Hl1;
    try (cbn [String.length] in *; lia).
  match_chars Halt. cbn [String.length] in Hlen.
  regex_step Hm Ha. match_chars Ha. cbn [String.length] in Hlen.
  apply regex_match_step in Hm. destruct Hm as (alt & m & r & Hin & Halt & Hm).
  pose proof (match_alt_length _ _ _ _ Halt) as Hl2.
  pose proof (regex_match_width _ _ _ _ _ Hm) as Hw2.
  change (Spec.min_total_width _) with 5%nat in Hw2.
  cbn [alternatives In] in Hin.
  destruct Hin as [<- | [<- | [<- | [<- | [<- | []]]]]];
    cbn [List.length] in Hl2; try (cbn [String.length] in *; lia).
  match_chars Halt.
  regex_step Hm Ha. match_chars Ha.
  regex_step Hm Ha. match_chars Ha.
  apply regex_match_nil in Hm. destruct Hm as [-> _]. cbn beta in *.
  cbn [store f_month f_day f_hour f_minute f_second f_fraction default_fields].
  repeat split; try reflexivity;
    match goal with H : digit_in 1 9 ?c = true |- context [int_of (String ?c "")] =>
      apply (int_of_digit c H) end.
Qed.

(** X9: a date without a time of day is parsed only when its month and its
    day have one digit each: a result obtained from a string too short
    for the two timestamp patterns (fewer than 15 characters) lies in the
    first nine days of one of the first nine months, at midnight. *)
Theorem date_only_results_have_single_digits (s : string) (d : datetime) :
  (String.length s < 15)%nat ->
  _parse_date (Some s) = Some d ->
  1 <= dt_month d <= 9 /\ 1 <= dt_day d <= 9 /\
  dt_hour d = 0 /\ dt_minute d = 0 /\ dt_second d = 0 /\ dt_microsecond d = 0.
Proof.
  intros Hshort. rewrite parse_date_five_formats. destruct (truthy s); [| discriminate].
  intros H. apply first_some_In in H. destruct H as (fmt & Hin & H).
  unfold try_format in H. apply strptime_inv in H.
  destruct H as (ds & f & Hds & Hm & Hd).
  apply make_datetime_fields in Hd. subst d. cbn [dt_month dt_day dt_hour dt_minute
    dt_second dt_microsecond].
  cbn [date_formats firstn In] in Hin.
  destruct Hin as [<- | [<- | [<- | [<- | [<- | []]]]]];
    vm_compute in Hds; injection Hds as <-.
  - apply regex_match_width in Hm.
    pose proof (take_length (String.length (replace_pct_f "%Y-%m-%dT%H:%M:%S.%fZ")) s).
    assert (String.length (take (String.length (replace_pct_f "%Y-%m-%dT%H:%M:%S.%fZ")) s)
            <= String.length s)%nat.
    { generalize (String.length (replace_pct_f "%Y-%m-%dT%H:%M:%S.%fZ")). intros n.
      clear. revert s. induction n as [|n IH]; intros [|c s]; simpl; try lia.
      specialize (IH s). lia. }
    change (Spec.min_total_width _) with 17%nat in Hm. simpl String.length in Hm at 1. lia.
  - apply regex_match_width in Hm.
    assert (String.length (take (String.length (replace_pct_f "%Y-%m-%dT%H:%M:%SZ")) s)
            <= String.length s)%nat.
    { generalize (String.length (replace_pct_f "%Y-%m-%dT%H:%M:%SZ")). intros n.
      clear. revert s. induction n as [|n IH]; intros [|c s]; simpl; try lia.
      specialize (IH s). lia. }
    change (Spec.min_total_width _) with 15%nat in Hm. simpl String.length in Hm at 1. lia.
  - refine (year_month_day "-" _ f _ Hm). apply (take_length 8 s).
  - refine (year_month_day "/" _ f _ Hm). apply (take_length 8 s).
  - refine (month_day_then_year "/" _ f _ Hm). apply (take_length 8 s).
Qed.

Lemma date_only_results_have_single_digits_witness :
  (String.length "2015-3-10" < 15)%nat /\
  _parse_date (Some "2015-3-10")
    = Some {| dt_year := 2015; dt_month := 3; dt_day := 1; dt_hour := 0;
              dt_minute := 0; dt_second := 0; dt_microsecond := 0 |} /\
  1 <= 1 <= 9.
Proof.
  assert (Hs : (String.length "2015-3-10" < 15)%nat) by (simpl; lia).
  assert (H : _parse_date (Some "2015-3-10")
    = Some {| dt_year := 2015; dt_month := 3; dt_day := 1; dt_hour := 0;
              dt_minute := 0; dt_second := 0; dt_microsecond := 0 |})
    by (vm_compute; reflexivity).
  split; [exact Hs |]. split; [exact H |].
  exact (proj1 (proj2 (date_only_results_have_single_digits _ _ Hs H))).
Defined.

End DateAndYear.

(** *** Invariants of the store *)

Section StoreInvariants.
Import Fetcher Service Spec StoreSpec.

Lemma next_id_above (ids : list Z) (x : Z) : In x ids -> x < next_id ids.
Proof.
  unfold next_id. induction ids as [|y ids IH]; [intros [] |].
  cbn [fold_right In]. intros [-> | H]; [lia | specialize (IH H); lia].
Qed.

Lemma next_id_fresh (ids : list Z) : ~ In (next_id ids) ids.
Proof. intros H. apply next_id_above in H. lia. Qed.

Lemma NoDup_snoc {X : Type} (l : list X) (x : X) :
  NoDup l -> ~ In x l -> NoDup (l ++ [x]).
Proof.
  intros Hl Hx. apply (Permutation_NoDup (Permutation_cons_append l x)).
  now constructor.
Qed.

Lemma is_linked_In (assoc : list (Z * Z)) (pid x : Z) :
  is_linked assoc pid x = true <-> In (pid, x) assoc.
Proof.
  unfold is_linked, linked. rewrite existsb_exists. split.
  - intros (y & Hy & Heq). apply Z.eqb_eq in Heq. subst y.
    apply in_map_iff in Hy. destruct Hy as ([p a] & Ha & Hin). simpl in Ha. subst a.
    apply filter_In in Hin. destruct Hin as [Hin Hp]. simpl in Hp.
    apply Z.eqb_eq in Hp. now subst.
  - intros Hin. exists x. split; [| apply Z.eqb_refl].
    apply in_map_iff. exists (pid, x). split; [reflexivity |].
    apply filter_In. split; [exact Hin | apply Z.eqb_refl].
Qed.

Lemma is_linked_false (assoc : list (Z * Z)) (pid x : Z) :
  is_linked assoc pid x = false -> ~ In (pid, x) assoc.
Proof. intros H Hin. apply is_linked_In in Hin. congruence. Qed.

Lemma find_name_none (l : list Author) (n : string) :
  find (fun a => String.eqb (name a) n) l = None -> ~ In n (map name l).
Proof.
  intros H Hin. apply in_map_iff in Hin. destruct Hin as (a & Ha & Hin).
  apply (find_none _ _ H) in Hin. simpl in Hin. rewrite Ha, String.eqb_refl in Hin.
  discriminate.
Qed.

Lemma find_term_none (l : list Keyword) (n : string) :
  find (fun k => String.eqb (term k) n) l = None -> ~ In n (map term l).
Proof.
  intros H Hin. apply in_map_iff in Hin. destruct Hin as (a & Ha & Hin).
  apply (find_none _ _ H) in Hin. simpl in Hin. rewrite Ha, String.eqb_refl in Hin.
  discriminate.
Qed.

(** What one turn of the author loop does to the tables. *)
Lemma add_author_effect (pid : Z) (db : DB) (author_name : string) :
  let db' := add_author pid db author_name in
  publications db' = publications db /\
  keywords db' = keywords db /\
  publication_keywords db' = publication_keywords db /\
  search_index db' = search_index db /\
  data_sources db' = data_sources db /\
  session_active db' = session_active db /\
  ((db' = db) \/
   exists aid news,
     In aid (map author_id (authors db')) /\
     authors db' = (authors db ++ news)%list /\
     (news = [] \/
      (news = [{| author_id := aid; name := strip author_name |}] /\
       ~ In aid (map author_id (authors db)) /\
       ~ In (strip author_name) (map name (authors db)))) /\
     (publication_authors db' = publication_authors db \/
      (publication_authors db' = (publication_authors db ++ [(pid, aid)])%list /\
       ~ In (pid, aid) (publication_authors db)))).
Proof.
  unfold add_author. destruct (truthy (strip author_name)); cbn [negb];
    [| repeat split; trivial; now left].
  destruct (find _ (authors db)) as [a |] eqn:Hfind.
  - destruct (is_linked (publication_authors db) pid (author_id a)) eqn:Hl; cbn [negb].
    + repeat split; trivial. now left.
    + repeat split; trivial. right. exists (author_id a), [].
      apply find_some in Hfind. destruct Hfind as [Hin _].
      split; [now apply in_map |]. split; [now rewrite app_nil_r |].
      split; [now left |]. right. split; [reflexivity |]. now apply is_linked_false.
  - set (aid := next_id (map author_id (authors db))).
    set (db1 := set_authors db _).
    assert (Hrest : In aid (map author_id (authors db1)) /\
        authors db1 = (authors db ++ [{| author_id := aid; name := strip author_name |}])%list /\
        ~ In aid (map author_id (authors db)) /\
        ~ In (strip author_name) (map name (authors db))).
    { split; [| split; [reflexivity | split]].
      - subst db1. simpl. rewrite map_app. apply in_or_app. right. now left.
      - apply next_id_fresh.
      - now apply find_name_none. }
    destruct Hrest as (H1 & H2 & H3 & H4).
    destruct (is_linked (publication_authors db1) pid aid) eqn:Hl; cbn [negb].
    + repeat split; trivial. right. exists aid, [{| author_id := aid; name := strip author_name |}].
      split; [exact H1 |]. split; [exact H2 |]. split; [right; now repeat split |].
      now left.
    + repeat split; trivial. right. exists aid, [{| author_id := aid; name := strip author_name |}].
      split; [exact H1 |]. split; [exact H2 |]. split; [right; now repeat split |].
      right. split; [reflexivity |]. now apply is_linked_false.
Qed.

Lemma bump_usage_id (kid : Z) (k : Keyword) : keyword_id (bump_usage kid k) = keyword_id k.
Proof. unfold bump_usage. now destruct (keyword_id k =? kid). Qed.

Lemma bump_usage_term (kid : Z) (k : Keyword) : term (bump_usage kid k) = term k.
Proof. unfold bump_usage. now destruct (keyword_id k =? kid). Qed.

Lemma map_bump_ids (kid : Z) (l : list Keyword) :
  map keyword_id (map (bump_usage kid) l) = map keyword_id l.
Proof. rewrite map_map. apply map_ext. apply bump_usage_id. Qed.

Lemma map_bump_terms (kid : Z) (l : list Keyword) :
  map term (map (bump_usage kid) l) = map term l.
Proof. rewrite map_map. apply map_ext. apply bump_usage_term. Qed.

(** What one turn of the keyword loop does to the tables. *)
Lemma add_keyword_effect (pid : Z) (db : DB) (keyword_term : string) :
  let db' := add_keyword pid db keyword_term in
  publications db' = publications db /\
  authors db' = authors db /\
  publication_authors db' = publication_authors db /\
  search_index db' = search_index db /\
  data_sources db' = data_sources db /\
  session_active db' = session_active db /\
  ((db' = db) \/
   exists kid news,
     In kid (map keyword_id (keywords db ++ news)) /\
     keywords db' = map (bump_usage kid) (keywords db ++ news) /\
     (news = [] \/
      (news = [{| keyword_id := kid; term := strip keyword_term; usage_count := 0 |}] /\
       ~ In kid (map keyword_id (keywords db)) /\
       ~ In (strip keyword_term) (map term (keywords db)))) /\
     (publication_keywords db' = publication_keywords db \/
      (publication_keywords db' = (publication_keywords db ++ [(pid, kid)])%list /\
       ~ In (pid, kid) (publication_keywords db)))).
Proof.
  unfold add_keyword. destruct (truthy (strip keyword_term)); cbn [negb];
    [| repeat split; trivial; now left].
  destruct (find _ (keywords db)) as [k |] eqn:Hfind.
  - apply find_some in Hfind. destruct Hfind as [Hin _].
    cbn [keywords set_keywords publication_keywords].
    destruct (is_linked (publication_keywords db) pid (keyword_id k)) eqn:Hl; cbn [negb];
      (repeat split; trivial; right; exists (keyword_id k), [];
       rewrite app_nil_r;
       split; [now apply in_map |]; split; [reflexivity |];
       split; [now left |]).
    + now left.
    + right. split; [reflexivity |]. now apply is_linked_false.
  - set (kid := next_id (map keyword_id (keywords db))).
    set (new := {| keyword_id := kid; term := strip keyword_term; usage_count := 0 |}).
    cbn [keywords set_keywords publication_keywords].
    assert (Hin : In kid (map keyword_id (keywords db ++ [new]))).
    { rewrite map_app. apply in_or_app. right. now left. }
    assert (Hfresh : ~ In kid (map keyword_id (keywords db))) by apply next_id_fresh.
    assert (Hterm : ~ In (strip keyword_term) (map term (keywords db)))
      by now apply find_term_none.
    destruct (is_linked (publication_keywords db) pid kid) eqn:Hl; cbn [negb];
      (repeat split; trivial; right; exists kid, [new];
       split; [exact Hin |]; split; [reflexivity |];
       split; [right; now repeat split |]).
    + now left.
    + right. split; [reflexivity |]. now apply is_linked_false.
Qed.

Lemma add_author_consistent (pid : Z) (db : DB) (author_name : string) :
  In pid (map id (publications db)) ->
  consistent db -> consistent (add_author pid db author_name).
Proof.
  intros Hpid Hc. pose proof Hc as ((Kp & Ka & Kk) & (Na & Nk) & (La & Lk) & (Ua & Uk)).
  destruct (add_author_effect pid db author_name)
    as (Hp & Hk & Hpk & _ & _ & _ & [-> | (aid & news & Hin & Hau & Hnews & Hlink)]).
  { exact Hc. }
  set (db' := add_author pid db author_name) in *.
  assert (Hsub : forall a, In a (map author_id (authors db)) ->
                           In a (map author_id (authors db'))).
  { intros a Ha. rewrite Hau, map_app. apply in_or_app. now left. }
  unfold consistent, keys_unique, names_unique, links_resolve, links_unique.
  rewrite Hp, Hk, Hpk.
  assert (Hkeys : NoDup (map author_id (authors db')) /\ NoDup (map name (authors db'))).
  { rewrite Hau. destruct Hnews as [-> | (-> & Hf & Hn)].
    - now rewrite app_nil_r.
    - rewrite !map_app. simpl. split; now apply NoDup_snoc. }
  destruct Hkeys as [Ka' Na'].
  assert (Hres : forall p a, In (p, a) (publication_authors db') ->
                 In p (map id (publications db)) /\ In a (map author_id (authors db'))).
  { intros p a Hpa. destruct Hlink as [Heq | [Heq _]]; rewrite Heq in Hpa.
    - destruct (La p a Hpa). auto.
    - apply in_app_or in Hpa. destruct Hpa as [Hpa | [[= <- <-] | []]].
      + destruct (La p a Hpa). auto.
      + auto. }
  assert (Hun : NoDup (publication_authors db')).
  { destruct Hlink as [-> | [-> Hni]]; [exact Ua | now apply NoDup_snoc]. }
  split; [now repeat split |]. split; [now split |]. split; [| now split].
  split; [exact Hres | exact Lk].
Qed.

Lemma add_keyword_consistent (pid : Z) (db : DB) (keyword_term : string) :
  In pid (map id (publications db)) ->
  consistent db -> consistent (add_keyword pid db keyword_term).
Proof.
  intros Hpid Hc. pose proof Hc as ((Kp & Ka & Kk) & (Na & Nk) & (La & Lk) & (Ua & Uk)).
  destruct (add_keyword_effect pid db keyword_term)
    as (Hp & Ha & Hpa & _ & _ & _ & [-> | (kid & news & Hin & Hkw & Hnews & Hlink)]).
  { exact Hc. }
  set (db' := add_keyword pid db keyword_term) in *.
  assert (Hids : map keyword_id (keywords db') = map keyword_id (keywords db ++ news))
    by (rewrite Hkw; apply map_bump_ids).
  assert (Hterms : map term (keywords db') = map term (keywords db ++ news))
    by (rewrite Hkw; apply map_bump_terms).
  assert (Hsub : forall a, In a (map keyword_id (keywords db)) ->
                           In a (map keyword_id (keywords db'))).
  { intros a Hx. rewrite Hids, map_app. apply in_or_app. now left. }
  unfold consistent, keys_unique, names_unique, links_resolve, links_unique.
  rewrite Hp, Ha, Hpa.
  assert (Hkeys : NoDup (map keyword_id (keywords db')) /\ NoDup (map term (keywords db'))).
  { rewrite Hids, Hterms. destruct Hnews as [-> | (-> & Hf & Hn)].
    - now rewrite app_nil_r.
    - rewrite !map_app. simpl. split; now apply NoDup_snoc. }
  destruct Hkeys as [Kk' Nk'].
  assert (Hres : forall p a, In (p, a) (publication_keywords db') ->
                 In p (map id (publications db)) /\ In a (map keyword_id (keywords db'))).
  { intros p a Hx. destruct Hlink as [Heq | [Heq _]]; rewrite Heq in Hx.
    - destruct (Lk p a Hx). auto.
    - apply in_app_or in Hx. destruct Hx as [Hx | [[= <- <-] | []]].
      + destruct (Lk p a Hx). auto.
      + split; [exact Hpid |]. now rewrite Hids. }
  assert (Hun : NoDup (publication_keywords db')).
  { destruct Hlink as [-> | [-> Hni]]; [exact Uk | now apply NoDup_snoc]. }
  split; [now repeat split |]. split; [now split |]. split; [| now split].
  split; [exact La | exact Hres].
Qed.

(** The three ways a call of [create_publication] can go: the store is
    left as it was (the record exists, or the session is unusable); the
    insert is refused; or a new last row is stored and linked. *)
Lemma create_publication_cases (db : DB) (pub_data : PubData) :
  (fst (create_publication db pub_data) = db /\
   (snd (create_publication db pub_data) = Raise PendingRollbackError \/
    exists p, snd (create_publication db pub_data) = Return p /\
              find (nasa_id_is (pd_nasa_id pub_data)) (publications db) = Some p)) \/
  (fst (create_publication db pub_data) = fail_flush db /\
   session_active db = true /\
   snd (create_publication db pub_data) = Raise IntegrityError) \/
  (exists p,
     snd (create_publication db pub_data) = Return p /\
     session_active db = true /\
     find (nasa_id_is (pd_nasa_id pub_data)) (publications db) = None /\
     id p = next_id (map id (publications db)) /\
     nasa_id p = pd_nasa_id pub_data /\
     organism_type p = classify_organism_type (pd_title pub_data) (pd_abstract pub_data) /\
     research_domain p
       = classify_research_domain (pd_title pub_data) (pd_abstract pub_data) /\
     fst (create_publication db pub_data)
     = _create_search_index
         (_add_keywords_to_publication
            (_add_authors_to_publication
               (set_publications db (publications db ++ [p])) (id p) (pd_authors pub_data))
            (id p) (pd_keywords pub_data))
         p).
Proof.
  unfold create_publication.
  destruct (session_active db) eqn:Hact; cbn [negb]; [| left; split; [reflexivity | now left]].
  destruct (find _ (publications db)) as [existing |] eqn:Hfind.
  { left. split; [reflexivity |]. right. now exists existing. }
  destruct (text_column (pd_title pub_data) "") as [the_title |];
    [| right; left; now repeat split].
  destruct (doi_taken db (pd_doi pub_data)); [right; left; now repeat split |].
  right. right. eexists. cbn [fst snd].
  split; [reflexivity |]. now repeat split.
Qed.

Lemma fold_authors_consistent (pid : Z) (names : list string) (db : DB) :
  In pid (map id (publications db)) ->
  consistent db -> consistent (_add_authors_to_publication db pid names).
Proof.
  unfold _add_authors_to_publication. revert db.
  induction names as [|n names IH]; intros db Hpid Hc; [exact Hc |].
  cbn [fold_left]. apply IH; [| now apply add_author_consistent].
  destruct (add_author_effect pid db n) as (-> & _). exact Hpid.
Qed.

Lemma fold_keywords_consistent (pid : Z) (kws : list string) (db : DB) :
  In pid (map id (publications db)) ->
  consistent db -> consistent (_add_keywords_to_publication db pid kws).
Proof.
  unfold _add_keywords_to_publication. revert db.
  induction kws as [|n kws IH]; intros db Hpid Hc; [exact Hc |].
  cbn [fold_left]. apply IH; [| now apply add_keyword_consistent].
  destruct (add_keyword_effect pid db n) as (-> & _). exact Hpid.
Qed.

Lemma new_row_consistent (db : DB) (p : Publication) :
  id p = next_id (map id (publications db)) ->
  consistent db -> consistent (set_publications db (publications db ++ [p])).
Proof.
  intros Hid ((Kp & Ka & Kk) & Hn & (La & Lk) & Hu).
  assert (Hsub : forall x, In x (map id (publications db)) ->
                           In x (map id (publications db ++ [p]))).
  { intros x Hx. rewrite map_app. apply in_or_app. now left. }
  split; [| split; [exact Hn | split; [| exact Hu]]].
  - split; [| now split]. cbn [publications set_publications].
    rewrite map_app. apply NoDup_snoc; [exact Kp |]. simpl. rewrite Hid. apply next_id_fresh.
  - split; intros x y Hxy; cbn [publications set_publications authors keywords].
    + destruct (La x y Hxy). auto.
    + destruct (Lk x y Hxy). auto.
Qed.

Lemma helpers_publications (db : DB) (pid : Z) (names kws : list string) (p : Publication) :
  publications
    (_create_search_index
       (_add_keywords_to_publication (_add_authors_to_publication db pid names) pid kws) p)
  = publications db.
Proof. now destruct (helpers_same_publications db pid names kws p). Qed.

Lemma fold_authors_publications (pid : Z) (names : list string) (db : DB) :
  publications (_add_authors_to_publication db pid names) = publications db.
Proof.
  unfold _add_authors_to_publication. revert db.
  induction names as [|n names IH]; intros db; [reflexivity |].
  cbn [fold_left]. rewrite IH. now destruct (add_author_effect pid db n).
Qed.

Lemma create_publication_consistent (db : DB) (pub_data : PubData) :
  consistent db -> consistent (fst (create_publication db pub_data)).
Proof.
  intros Hc.
  destruct (create_publication_cases db pub_data)
    as [[-> _] | [[-> _] | (p & _ & _ & _ & Hid & _ & _ & _ & ->)]]; trivial.
  set (db1 := set_publications db (publications db ++ [p])).
  assert (Hin : In (id p) (map id (publications db1))).
  { subst db1. cbn [publications set_publications]. rewrite map_app.
    apply in_or_app. right. now left. }
  assert (H1 : consistent db1) by now apply new_row_consistent.
  assert (H2 : consistent (_add_authors_to_publication db1 (id p) (pd_authors pub_data)))
    by now apply fold_authors_consistent.
  assert (H3 : consistent
            (_add_keywords_to_publication
               (_add_authors_to_publication db1 (id p) (pd_authors pub_data))
               (id p) (pd_keywords pub_data))).
  { apply fold_keywords_consistent; [| exact H2].
    now rewrite fold_authors_publications. }
  exact H3.
Qed.

(** The store after one turn of the ingestion loop is the store after
    [create_publication]. *)
Lemma store_one_db (st : DB * Z * list IngestError) (pub_data : PubData) :
  fst (fst (store_one st pub_data)) = fst (create_publication (fst (fst st)) pub_data).
Proof.
  destruct st as [[db n] errs]. unfold store_one. cbn [fst].
  now destruct (create_publication db pub_data) as [db' [p | e]].
Qed.

(** A property of the tables that [create_publication] keeps, and that
    does not look at the data sources, is kept by the ingestion. *)
Lemma store_publications_keeps (P : DB -> Prop) :
  (forall db pub_data, P db -> P (fst (create_publication db pub_data))) ->
  (forall db rows, P db -> P (set_data_sources db rows)) ->
  forall db source_name pubs,
    P db -> P (fst (store_publications db source_name pubs)).
Proof.
  intros Hcreate Hsources db source_name pubs HP. unfold store_publications.
  assert (Hfold : forall st, P (fst (fst st)) ->
                             P (fst (fst (fold_left store_one pubs st)))).
  { induction pubs as [|pd pubs IH]; intros st Hst; [exact Hst |].
    cbn [fold_left]. apply IH. rewrite store_one_db. now apply Hcreate. }
  specialize (Hfold (db, 0, []) HP).
  destruct (fold_left store_one pubs (db, 0, [])) as [[db1 n] errs]. cbn [fst] in Hfold.
  unfold _update_data_source. destruct (session_active db1); cbn [negb fst].
  - cbn. now apply Hsources.
  - exact Hfold.
Qed.

(** X10: the service keeps the store consistent.  Whatever record is
    submitted, and whatever the sources deliver, [create_publication] and
    [ingest_nasa_data] leave primary keys distinct, author names and
    keyword terms without duplicates, every link pointing to a stored
    publication and a stored author or keyword, and no link stored
    twice. *)
Theorem service_keeps_store_consistent `{NasaSources}
    (db : DB) (pub_data : PubData) (source_name : string) (limit : Z) :
  consistent db ->
  consistent (fst (create_publication db pub_data)) /\
  consistent (fst (ingest_nasa_data db source_name limit)).
Proof.
  intros Hc. split; [now apply create_publication_consistent |].
  unfold ingest_nasa_data.
  apply (store_publications_keeps consistent); trivial.
  intros d pd Hd. now apply create_publication_consistent.
Qed.

Lemma filter_snoc_length {X : Type} (f : X -> bool) (l : list X) (x : X) :
  List.length (filter f (l ++ [x]))
  = (List.length (filter f l) + if f x then 1 else 0)%nat.
Proof. rewrite filter_app, length_app. simpl. now destruct (f x). Qed.

Lemma link_count_unused (db : DB) (kid : Z) :
  links_resolve db -> ~ In kid (map keyword_id (keywords db)) -> link_count db kid = 0.
Proof.
  intros [_ Lk] Hk. unfold link_count.
  replace (filter _ (publication_keywords db)) with (@nil (Z * Z)); [reflexivity |].
  symmetry.
  induction (publication_keywords db) as [|[p k] l IH]; [reflexivity |].
  simpl. destruct (Z.eqb_spec k kid) as [-> | Hne].
  - exfalso. apply Hk. now apply (Lk p kid); left.
  - apply IH. intros x y Hxy. apply Lk. now right.
Qed.

Lemma add_keyword_counters (pid : Z) (db : DB) (keyword_term : string) :
  links_resolve db -> counters_cover db ->
  counters_cover (add_keyword pid db keyword_term).
Proof.
  intros Hres Hcov.
  destruct (add_keyword_effect pid db keyword_term)
    as (_ & _ & _ & _ & _ & _ & [-> | (kid & news & Hin & Hkw & Hnews & Hlink)]); trivial.
  set (db' := add_keyword pid db keyword_term) in *.
  assert (Hcount : forall x, link_count db' x
                             <= link_count db x + (if x =? kid then 1 else 0)).
  { intros x. unfold link_count. destruct Hlink as [-> | [-> _]].
    - destruct (x =? kid); lia.
    - rewrite filter_snoc_length. cbn [snd]. rewrite (Z.eqb_sym kid x).
      destruct (x =? kid); lia. }
  intros k' Hk'. rewrite Hkw in Hk'. apply in_map_iff in Hk'.
  destruct Hk' as (k & <- & Hk). rewrite bump_usage_id.
  specialize (Hcount (keyword_id k)).
  assert (Hold : link_count db (keyword_id k) <= usage_count k).
  { apply in_app_or in Hk. destruct Hk as [Hk | Hk]; [now apply Hcov |].
    destruct Hnews as [-> | (-> & Hfresh & _)]; [destruct Hk |].
    destruct Hk as [<- | []]. cbn [keyword_id usage_count].
    rewrite (link_count_unused db kid Hres Hfresh). lia. }
  unfold bump_usage. destruct (keyword_id k =? kid); cbn [usage_count]; lia.
Qed.

Lemma fold_keywords_counters (pid : Z) (kws : list string) (db : DB) :
  In pid (map id (publications db)) ->
  consistent db -> counters_cover db ->
  counters_cover (_add_keywords_to_publication db pid kws).
Proof.
  unfold _add_keywords_to_publication. revert db.
  induction kws as [|n kws IH]; intros db Hpid Hc Hcov; [exact Hcov |].
  cbn [fold_left]. apply IH.
  - destruct (add_keyword_effect pid db n) as (-> & _). exact Hpid.
  - now apply add_keyword_consistent.
  - apply add_keyword_counters; [apply Hc | exact Hcov].
Qed.

Lemma fold_authors_keywords (pid : Z) (names : list string) (db : DB) :
  keywords (_add_authors_to_publication db pid names) = keywords db /\
  publication_keywords (_add_authors_to_publication db pid names) = publication_keywords db /\
  search_index (_add_authors_to_publication db pid names) = search_index db.
Proof.
  unfold _add_authors_to_publication. revert db.
  induction names as [|n names IH]; intros db; [now repeat split |].
  cbn [fold_left]. destruct (IH (add_author pid db n)) as (-> & -> & ->).
  destruct (add_author_effect pid db n) as (_ & -> & -> & -> & _). now repeat split.
Qed.

Lemma fold_keywords_index (pid : Z) (kws : list string) (db : DB) :
  search_index (_add_keywords_to_publication db pid kws) = search_index db /\
  publications (_add_keywords_to_publication db pid kws) = publications db.
Proof.
  unfold _add_keywords_to_publication. revert db.
  induction kws as [|n kws IH]; intros db; [now split |].
  cbn [fold_left]. destruct (IH (add_keyword pid db n)) as (-> & ->).
  destruct (add_keyword_effect pid db n) as (-> & _ & _ & -> & _). now split.
Qed.

Lemma create_publication_counters (db : DB) (pub_data : PubData) :
  consistent db -> counters_cover db ->
  counters_cover (fst (create_publication db pub_data)).
Proof.
  intros Hc Hcov.
  destruct (create_publication_cases db pub_data)
    as [[-> _] | [[-> _] | (p & _ & _ & _ & Hid & _ & _ & _ & ->)]]; trivial.
  set (db1 := set_publications db (publications db ++ [p])).
  assert (Hin : In (id p) (map id (publications db1))).
  { subst db1. cbn [publications set_publications]. rewrite map_app.
    apply in_or_app. right. now left. }
  assert (H1 : consistent db1) by now apply new_row_consistent.
  set (db2 := _add_authors_to_publication db1 (id p) (pd_authors pub_data)).
  assert (H2 : consistent db2) by now apply fold_authors_consistent.
  assert (Hcov2 : counters_cover db2).
  { destruct (fold_authors_keywords (id p) (pd_authors pub_data) db1) as (Hk & Hpk & _).
    fold db2 in Hk, Hpk. intros k Hk'. rewrite Hk in Hk'. unfold link_count.
    rewrite Hpk. now apply Hcov. }
  assert (H3 : counters_cover (_add_keywords_to_publication db2 (id p) (pd_keywords pub_data))).
  { apply fold_keywords_counters; trivial. subst db2.
    now rewrite fold_authors_publications. }
  exact H3.
Qed.

(** X11: a usage counter never falls below the number of publications its
    keyword is linked to: in a consistent store where this holds it still
    holds after [create_publication] and after [ingest_nasa_data]. *)
Theorem usage_counters_cover_links `{NasaSources}
    (db : DB) (pub_data : PubData) (source_name : string) (limit : Z) :
  consistent db -> counters_cover db ->
  counters_cover (fst (create_publication db pub_data)) /\
  counters_cover (fst (ingest_nasa_data db source_name limit)).
Proof.
  intros Hc Hcov. split; [now apply create_publication_counters |].
  unfold ingest_nasa_data.
  apply (store_publications_keeps (fun d => consistent d /\ counters_cover d)).
  - intros d pd [Hd Hcd]. split.
    + now apply create_publication_consistent.
    + now apply create_publication_counters.
  - trivial.
  - now split.
Qed.

Lemma create_publication_indexed (db : DB) (pub_data : PubData) :
  indexed db -> indexed (fst (create_publication db pub_data)).
Proof.
  intros Hix.
  destruct (create_publication_cases db pub_data)
    as [[-> _] | [[-> _] | (p & _ & _ & _ & Hid & _ & _ & _ & ->)]]; trivial.
  unfold indexed. rewrite helpers_publications.
  unfold _create_search_index. cbn [search_index set_search_index].
  destruct (fold_keywords_index (id p) (pd_keywords pub_data)
              (_add_authors_to_publication
                 (set_publications db (publications db ++ [p])) (id p) (pd_authors pub_data)))
    as [-> _].
  destruct (fold_authors_keywords (id p) (pd_authors pub_data)
              (set_publications db (publications db ++ [p]))) as (_ & _ & ->).
  cbn [search_index set_publications publications]. rewrite !map_app.
  unfold indexed in Hix. now rewrite Hix.
Qed.

(** X12: the search index follows the publication table: when the two list
    the same publications in the same order, they still do after
    [create_publication] and after [ingest_nasa_data], one index row per
    stored publication. *)
Theorem search_index_follows_publications `{NasaSources}
    (db : DB) (pub_data : PubData) (source_name : string) (limit : Z) :
  indexed db ->
  indexed (fst (create_publication db pub_data)) /\
  indexed (fst (ingest_nasa_data db source_name limit)).
Proof.
  intros Hix. split; [now apply create_publication_indexed |].
  unfold ingest_nasa_data. apply (store_publications_keeps indexed); trivial.
  intros d pd Hd. now apply create_publication_indexed.
Qed.

Lemma first_match_label (rules : list (string * list string)) (default text : string) :
  In (first_match rules default text) (map fst rules ++ [default]).
Proof.
  induction rules as [|[label words] rules IH]; simpl; [now left |].
  destruct (any_in words text); [now left | now right].
Qed.

Lemma create_publication_labelled (db : DB) (pub_data : PubData) :
  labelled db -> labelled (fst (create_publication db pub_data)).
Proof.
  intros Hl.
  destruct (create_publication_cases db pub_data)
    as [[-> _] | [[-> _] | (p & _ & _ & _ & _ & _ & Ho & Hd & ->)]]; trivial.
  unfold labelled. rewrite helpers_publications.
  cbn [publications set_publications]. apply Forall_app. split; [exact Hl |].
  constructor; [| constructor]. rewrite Ho, Hd.
  split; apply first_match_label.
Qed.

Lemma find_by_id (l : list Publication) (p : Publication) :
  NoDup (map id l) -> In p l -> find (fun q => id q =? id p) l = Some p.
Proof.
  induction l as [|q l IH]; [intros _ [] |]. simpl. intros Hnd Hin.
  inversion Hnd as [|? ? Hq Hnd']; subst.
  destruct Hin as [-> | Hin]; [now rewrite Z.eqb_refl |].
  destruct (Z.eqb_spec (id q) (id p)) as [Heq | _]; [| now apply IH].
  exfalso. apply Hq. rewrite Heq. now apply in_map.
Qed.

Lemma find_by_id_absent (l : list Publication) (x : Z) :
  ~ In x (map id l) -> find (fun q => id q =? x) l = None.
Proof.
  induction l as [|q l IH]; [reflexivity |]. simpl. intros Hx.
  destruct (Z.eqb_spec (id q) x) as [Heq | _]; [tauto | apply IH; tauto].
Qed.

End StoreInvariants.

(** *** Reading a publication back *)

Section LookUp.
Import Fetcher Service Spec StoreSpec Queries.

Lemma get_created_publication (db db1 : DB) (pub_data : PubData) (p : Publication) :
  NoDup (map id (publications db)) ->
  create_publication db pub_data = (db1, Return p) ->
  get_publication db1 (id p) = Return (Some p) /\
  (forall x, ~ In x (map id (publications db1)) -> get_publication db1 x = Return None).
Proof.
  intros Hnd Hcreate.
  destruct (create_publication_returns db db1 pub_data p Hcreate)
    as (_ & Hact1 & _ & Hcases).
  unfold get_publication. rewrite Hact1. cbn [negb].
  split; [| intros x Hx; now rewrite find_by_id_absent].
  f_equal. destruct Hcases as [[-> Hfind] | [Hfind Hpubs]].
  - apply find_by_id; [exact Hnd |]. now apply find_some in Hfind.
  - assert (Hid : id p = next_id (map id (publications db))).
    { destruct (create_publication_cases db pub_data)
        as [[_ [Hr | (q & Hr & Hq)]] | [[_ [_ Hr]] | (q & Hr & _ & _ & Hid & _)]];
        rewrite Hcreate in Hr; cbn [snd] in Hr; try discriminate.
      - injection Hr as <-. congruence.
      - now injection Hr as <-. }
    rewrite Hpubs. apply find_by_id.
    + rewrite map_app. apply NoDup_snoc; [exact Hnd |].
      simpl. rewrite Hid. apply next_id_fresh.
    + apply in_or_app. right. now left.
Qed.


End LookUp.

Section CreatedAuthors.
Import Fetcher Service Spec StoreSpec Queries.

Lemma truthy_nonempty (s : string) : truthy s = true <-> s <> "".
Proof. destruct s; simpl; split; congruence. Qed.

Lemma linked_snoc (assoc : list (Z * Z)) (pid p x : Z) :
  linked (assoc ++ [(p, x)]) pid
  = (linked assoc pid ++ if p =? pid then [x] else [])%list.
Proof.
  unfold linked. rewrite filter_app, map_app. simpl.
  destruct (p =? pid); reflexivity.
Qed.

Lemma linked_In (assoc : list (Z * Z)) (pid x : Z) :
  In x (linked assoc pid) <-> In (pid, x) assoc.
Proof.
  rewrite <- is_linked_In. unfold is_linked. rewrite existsb_exists. split.
  - intros H. exists x. split; [exact H | apply Z.eqb_refl].
  - intros (y & Hy & Heq). apply Z.eqb_eq in Heq. now subst.
Qed.

Lemma filter_id_absent (l : list Author) (x : Z) :
  ~ In x (map author_id l) -> filter (fun b => author_id b =? x) l = [].
Proof.
  induction l as [|b l IH]; [reflexivity |]. simpl. intros Hx.
  destruct (Z.eqb_spec (author_id b) x) as [Heq | _]; [tauto | apply IH; tauto].
Qed.

Lemma filter_id_one (l : list Author) (a : Author) :
  NoDup (map author_id l) -> In a l ->
  filter (fun b => author_id b =? author_id a) l = [a].
Proof.
  induction l as [|b l IH]; [intros _ [] |]. simpl. intros Hnd Hin.
  inversion Hnd as [|? ? Hb Hnd']; subst.
  destruct Hin as [-> | Hin].
  - rewrite Z.eqb_refl. f_equal. now apply filter_id_absent.
  - destruct (Z.eqb_spec (author_id b) (author_id a)) as [Heq | _]; [| now apply IH].
    exfalso. apply Hb. rewrite Heq. now apply in_map.
Qed.

Lemma same_name_same_author (l : list Author) (a b : Author) :
  NoDup (map name l) -> In a l -> In b l -> name a = name b -> a = b.
Proof.
  induction l as [|c l IH]; [intros _ [] |]. simpl. intros Hnd Ha Hb Heq.
  inversion Hnd as [|? ? Hc Hnd']; subst.
  destruct Ha as [-> | Ha], Hb as [-> | Hb]; trivial.
  - exfalso. apply Hc. rewrite Heq. now apply in_map.
  - exfalso. apply Hc. rewrite <- Heq. now apply in_map.
  - now apply IH.
Qed.

Lemma authors_of_In (db : DB) (pid : Z) (a : Author) :
  In a (authors_of db pid) <->
  In a (authors db) /\ In (pid, author_id a) (publication_authors db).
Proof.
  unfold authors_of. rewrite in_flat_map. split.
  - intros (aid & Hl & Hf). apply filter_In in Hf. destruct Hf as [Ha Heq].
    apply Z.eqb_eq in Heq. subst aid. split; [exact Ha | now apply linked_In].
  - intros [Ha Hl]. exists (author_id a). split; [now apply linked_In |].
    apply filter_In. split; [exact Ha | apply Z.eqb_refl].
Qed.

Lemma flat_map_ext_mem {X Y : Type} (f g : X -> list Y) (l : list X) :
  (forall x, In x l -> f x = g x) -> flat_map f l = flat_map g l.
Proof.
  induction l as [|x l IH]; intros H; simpl; [reflexivity |].
  rewrite (H x (or_introl eq_refl)), IH; [reflexivity |].
  intros y Hy. apply H. now right.
Qed.

(** The authors of a publication after a link to [a] has been added, the
    author table having grown by [news]. *)
Lemma authors_of_new_link (db db' : DB) (pid : Z) (a : Author) (news : list Author) :
  links_resolve db ->
  NoDup (map author_id (authors db')) ->
  authors db' = (authors db ++ news)%list ->
  (forall b, In b news -> ~ In (author_id b) (map author_id (authors db))) ->
  In a (authors db') ->
  publication_authors db' = (publication_authors db ++ [(pid, author_id a)])%list ->
  authors_of db' pid = (authors_of db pid ++ [a])%list.
Proof.
  intros [La _] Hnd Hau Hnews Ha Hpa. unfold authors_of.
  rewrite Hpa, linked_snoc, Z.eqb_refl, flat_map_app. cbn [flat_map].
  rewrite app_nil_r, (filter_id_one _ a Hnd Ha). f_equal.
  apply flat_map_ext_mem. intros x Hx. apply linked_In in Hx.
  destruct (La pid x Hx) as [_ Hid].
  rewrite Hau, filter_app.
  replace (filter (fun b => author_id b =? x) news) with (@nil Author);
    [now rewrite app_nil_r |].
  symmetry. apply filter_id_absent. intros Hin.
  apply in_map_iff in Hin. destruct Hin as (b & Hb & Hin).
  apply (Hnews b Hin). now rewrite Hb.
Qed.

(** One turn of the author loop, seen from the publication: a blank name
    and a name already listed change nothing, any other name is added
    last. *)
Lemma add_author_names (pid : Z) (db : DB) (author_name : string) :
  consistent db ->
  let db' := add_author pid db author_name in
  let names := map name (authors_of db pid) in
  (strip author_name = "" /\ db' = db) \/
  (strip author_name <> "" /\ In (strip author_name) names /\ db' = db) \/
  (strip author_name <> "" /\ ~ In (strip author_name) names /\
   map name (authors_of db' pid) = (names ++ [strip author_name])%list).
Proof.
  intros Hc db' names. pose proof Hc as ((_ & Ka & _) & (Na & _) & Hres & _).
  subst db' names. unfold add_author in *.
  destruct (truthy (strip author_name)) eqn:Ht; cbn [negb] in *.
  2:{ left. split; [| reflexivity]. destruct (strip author_name); [reflexivity | discriminate]. }
  apply truthy_nonempty in Ht. right.
  destruct (find _ (authors db)) as [a |] eqn:Hfind.
  - apply find_some in Hfind. destruct Hfind as [Hin Hname].
    apply String.eqb_eq in Hname.
    destruct (is_linked (publication_authors db) pid (author_id a)) eqn:Hl;
      cbn [negb] in *.
    + left. split; [exact Ht |]. split; [| reflexivity].
      rewrite <- Hname. apply in_map. apply authors_of_In.
      split; [exact Hin | now apply is_linked_In].
    + right. split; [exact Ht |]. split.
      * intros Hx. apply in_map_iff in Hx. destruct Hx as (b & Hb & Hx).
        apply authors_of_In in Hx. destruct Hx as [Hbin Hbl].
        assert (b = a) by (apply (same_name_same_author (authors db)); congruence).
        subst b. apply is_linked_In in Hbl. congruence.
      * rewrite (authors_of_new_link db _ pid a []); trivial.
        -- rewrite map_app. simpl. now rewrite Hname.
        -- now rewrite app_nil_r.
        -- intros b [].
  - right. split; [exact Ht |].
    set (aid := next_id (map author_id (authors db))) in *.
    set (new := {| author_id := aid; name := strip author_name |}) in *.
    assert (Hfresh : ~ In aid (map author_id (authors db))) by apply next_id_fresh.
    assert (Hnl : is_linked (publication_authors db) pid aid = false).
    { destruct (is_linked _ pid aid) eqn:Hl; [| reflexivity].
      apply is_linked_In in Hl. destruct Hres as [La _].
      destruct (La pid aid Hl). contradiction. }
    cbn [publication_authors set_authors] in *. rewrite Hnl in *. cbn [negb] in *.
    split.
    + intros Hx. apply in_map_iff in Hx. destruct Hx as (b & Hb & Hx).
      apply authors_of_In in Hx. destruct Hx as [Hbin _].
      apply (find_name_none _ _ Hfind). rewrite <- Hb. now apply in_map.
    + rewrite (authors_of_new_link db _ pid new [new]); trivial.
      * now rewrite map_app.
      * cbn [authors set_authors set_publication_authors]. rewrite map_app.
        now apply NoDup_snoc.
      * intros b [<- | []]. exact Hfresh.
      * cbn. apply in_or_app. right. now left.
Qed.

Lemma fold_authors_names (pid : Z) (names seen : list string) (db : DB) :
  consistent db ->
  In pid (map id (publications db)) ->
  NoDup (map name (authors_of db pid)) ->
  (forall n, In n (map name (authors_of db pid)) <-> n <> "" /\ In n (map strip seen)) ->
  let db' := _add_authors_to_publication db pid names in
  NoDup (map name (authors_of db' pid)) /\
  (forall n, In n (map name (authors_of db' pid))
             <-> n <> "" /\ In n (map strip (seen ++ names))).
Proof.
  unfold _add_authors_to_publication. revert db seen.
  induction names as [|x names IH]; intros db seen Hc Hpid Hnd Hiff.
  - cbn [fold_left]. rewrite app_nil_r. now split.
  - cbn [fold_left].
    replace (seen ++ x :: names)%list with ((seen ++ [x]) ++ names)%list
      by now rewrite <- app_assoc.
    assert (Hstep : forall n, n <> "" /\ In n (map strip (seen ++ [x]))
                              <-> (n <> "" /\ In n (map strip seen)) \/
                                  (n <> "" /\ n = strip x)).
    { intros n. rewrite map_app, in_app_iff. simpl. intuition congruence. }
    apply IH.
    + now apply add_author_consistent.
    + destruct (add_author_effect pid db x) as (-> & _). exact Hpid.
    + destruct (add_author_names pid db x Hc) as [[_ ->] | [(_ & _ & ->) | (_ & Hni & ->)]];
        trivial.
      now apply NoDup_snoc.
    + intros n. rewrite Hstep.
      destruct (add_author_names pid db x Hc) as [[Hb ->] | [(Hs & Hin & ->) | (Hs & Hni & ->)]].
      * rewrite Hiff. intuition congruence.
      * rewrite Hiff. split; [tauto |]. intros [H | [_ ->]]; [exact H |].
        now apply Hiff.
      * rewrite in_app_iff, Hiff. simpl. intuition congruence.
Qed.

Lemma fold_keywords_authors (pid : Z) (kws : list string) (db : DB) :
  authors (_add_keywords_to_publication db pid kws) = authors db /\
  publication_authors (_add_keywords_to_publication db pid kws) = publication_authors db.
Proof.
  unfold _add_keywords_to_publication. revert db.
  induction kws as [|n kws IH]; intros db; [now split |].
  cbn [fold_left]. destruct (IH (add_keyword pid db n)) as (-> & ->).
  destruct (add_keyword_effect pid db n) as (_ & -> & -> & _). now split.
Qed.

Lemma authors_of_unlinked (db : DB) (pid : Z) :
  links_resolve db -> ~ In pid (map id (publications db)) -> authors_of db pid = [].
Proof.
  intros [La _] Hpid. unfold authors_of.
  replace (linked (publication_authors db) pid) with (@nil Z); [reflexivity |].
  symmetry. destruct (linked _ pid) as [|x l] eqn:Hl; [reflexivity |].
  assert (Hx : In x (linked (publication_authors db) pid)) by (rewrite Hl; now left).
  apply linked_In in Hx. destruct (La pid x Hx). contradiction.
Qed.

(** X14: a new publication shows the authors of its record: after
    [create_publication] has stored a record in a consistent store, the
    route that reads the publication back answers with its identifier and
    title, and lists as authors exactly the names of the record, stripped
    of outer whitespace, the blank ones left out, each name once. *)
Theorem created_publication_lists_its_authors
    (db db1 : DB) (pub_data : PubData) (p : Publication) :
  consistent db ->
  find (nasa_id_is (pd_nasa_id pub_data)) (publications db) = None ->
  create_publication db pub_data = (db1, Return p) ->
  exists r,
    Api.get_publication db1 (id p) = Api.Ok r /\
    Api.pr_id r = id p /\
    Api.pr_title r = title p /\
    NoDup (Api.pr_authors r) /\
    (forall n, In n (Api.pr_authors r)
               <-> n <> "" /\ In n (map strip (pd_authors pub_data))).
Proof.
  intros Hc Hnew Hcreate.
  pose proof Hc as ((Kp & _) & _ & Hres & _).
  destruct (get_created_publication db db1 pub_data p Kp Hcreate) as [Hget _].
  exists (Api.publication_response db1 p).
  split; [unfold Api.get_publication; now rewrite Hget |].
  split; [reflexivity |]. split; [reflexivity |].
  cbn [Api.pr_authors Api.publication_response].
  destruct (create_publication_cases db pub_data)
    as [[_ [Hr | (q & _ & Hq)]] | [[_ [_ Hr]] | (q & Hr & _ & _ & Hid & _ & _ & _ & Hdb)]];
    try (rewrite Hcreate in Hr; cbn [snd] in Hr; discriminate); [congruence |].
  rewrite Hcreate in Hr, Hdb. cbn [fst snd] in Hr, Hdb. injection Hr as <-.
  set (db0 := set_publications db (publications db ++ [p])) in *.
  set (db2 := _add_authors_to_publication db0 (id p) (pd_authors pub_data)) in *.
  assert (Hsame : authors_of db1 (id p) = authors_of db2 (id p)).
  { unfold authors_of. rewrite Hdb. unfold _create_search_index.
    cbn [authors publication_authors set_search_index].
    now destruct (fold_keywords_authors (id p) (pd_keywords pub_data) db2) as [-> ->]. }
  rewrite Hsame.
  assert (Hempty : authors_of db0 (id p) = []).
  { assert (H0 : authors_of db0 (id p) = authors_of db (id p)) by reflexivity.
    rewrite H0. apply authors_of_unlinked; [exact Hres |].
    rewrite Hid. apply next_id_fresh. }
  apply (fold_authors_names (id p) (pd_authors pub_data) [] db0).
  - now apply new_row_consistent.
  - subst db0. cbn [publications set_publications]. rewrite map_app.
    apply in_or_app. right. now left.
  - rewrite Hempty. constructor.
  - intros n. rewrite Hempty. simpl. tauto.
Qed.

End CreatedAuthors.

(** *** Usage counters *)

Section UsageCounters.
Import Fetcher Service Spec StoreSpec.

Lemma find_map_bump (kid : Z) (t : string) (l : list Keyword) :
  find (fun k => String.eqb (term k) t) (map (bump_usage kid) l)
  = option_map (bump_usage kid) (find (fun k => String.eqb (term k) t) l).
Proof.
  induction l as [|k l IH]; [reflexivity |]. cbn [map find].
  rewrite bump_usage_term. destruct (String.eqb (term k) t); [reflexivity | exact IH].
Qed.

Lemma same_id_same_keyword (l : list Keyword) (a b : Keyword) :
  NoDup (map keyword_id l) -> In a l -> In b l -> keyword_id a = keyword_id b -> a = b.
Proof.
  induction l as [|c l IH]; [intros _ [] |]. simpl. intros Hnd Ha Hb Heq.
  inversion Hnd as [|? ? Hc Hnd']; subst.
  destruct Ha as [-> | Ha], Hb as [-> | Hb]; trivial.
  - exfalso. apply Hc. rewrite Heq. now apply in_map.
  - exfalso. apply Hc. rewrite <- Heq. now apply in_map.
  - now apply IH.
Qed.

Lemma find_app_none {X : Type} (f : X -> bool) (l : list X) (x : X) :
  find f l = None -> find f (l ++ [x]) = if f x then Some x else None.
Proof.
  induction l as [|y l IH]; simpl; [reflexivity |].
  destruct (f y); [discriminate | exact IH].
Qed.

Lemma find_app_some {X : Type} (f : X -> bool) (l l' : list X) (y : X) :
  find f l = Some y -> find f (l ++ l') = Some y.
Proof.
  induction l as [|z l IH]; simpl; [discriminate |].
  destruct (f z); [trivial | exact IH].
Qed.

(** One turn of the keyword loop raises the counter of its term by one
    and leaves the other counters alone. *)
Lemma add_keyword_usage (pid : Z) (db : DB) (keyword_term t : string) :
  NoDup (map keyword_id (keywords db)) ->
  usage (add_keyword pid db keyword_term) t
  = usage db t
    + if truthy (strip keyword_term) && String.eqb (strip keyword_term) t then 1 else 0.
Proof.
  intros Hnd. unfold add_keyword.
  destruct (truthy (strip keyword_term)) eqn:Ht; cbn [negb andb]; [| lia].
  assert (Hlink : forall d kid,
            usage (if negb (is_linked (publication_keywords d) pid kid)
                   then set_publication_keywords d (publication_keywords d ++ [(pid, kid)])
                   else d) t = usage d t).
  { intros d kid. now destruct (negb _). }
  destruct (find _ (keywords db)) as [k |] eqn:Hfind.
  - rewrite Hlink. unfold usage. cbn [keywords set_keywords].
    rewrite find_map_bump.
    pose proof (find_some _ _ Hfind) as [Hin Hterm]. apply String.eqb_eq in Hterm.
    destruct (String.eqb_spec (strip keyword_term) t) as [<- | Hne].
    + rewrite Hfind. cbn [option_map]. unfold bump_usage. rewrite Z.eqb_refl. reflexivity.
    + destruct (find (fun k0 => String.eqb (term k0) t) (keywords db)) as [k' |] eqn:Hf';
        cbn [option_map]; [| lia].
      pose proof (find_some _ _ Hf') as [Hin' Hterm']. apply String.eqb_eq in Hterm'.
      unfold bump_usage. destruct (Z.eqb_spec (keyword_id k') (keyword_id k)) as [Heq | _];
        [| lia].
      exfalso. apply Hne.
      rewrite <- Hterm, <- Hterm'.
      now rewrite (same_id_same_keyword (keywords db) k' k Hnd Hin' Hin Heq).
  - set (kid := next_id (map keyword_id (keywords db))).
    set (new := {| keyword_id := kid; term := strip keyword_term; usage_count := 0 |}).
    rewrite Hlink. unfold usage. cbn [keywords set_keywords].
    rewrite find_map_bump.
    destruct (String.eqb_spec (strip keyword_term) t) as [<- | Hne].
    + rewrite Hfind, (find_app_none _ _ new Hfind). cbn [term new].
      rewrite String.eqb_refl. cbn [option_map]. unfold bump_usage. cbn [keyword_id new].
      rewrite Z.eqb_refl. reflexivity.
    + destruct (find (fun k0 => String.eqb (term k0) t) (keywords db)) as [k' |] eqn:Hf'.
      * rewrite (find_app_some _ _ [new] k' Hf'). cbn [option_map].
        pose proof (find_some _ _ Hf') as [Hin' _].
        unfold bump_usage. destruct (Z.eqb_spec (keyword_id k') kid) as [Heq | _]; [| lia].
        exfalso. apply (next_id_fresh (map keyword_id (keywords db))).
        fold kid. rewrite <- Heq. now apply in_map.
      * rewrite (find_app_none _ _ new Hf'). cbn [term new].
        destruct (String.eqb_spec (strip keyword_term) t); [contradiction |].
        cbn [option_map]. lia.
Qed.

Lemma fold_keywords_usage (pid : Z) (kws : list string) (db : DB) (t : string) :
  In pid (map id (publications db)) ->
  consistent db ->
  t <> "" ->
  usage (_add_keywords_to_publication db pid kws) t
  = usage db t + occurrences (map strip kws) t.
Proof.
  unfold _add_keywords_to_publication. revert db.
  induction kws as [|k kws IH]; intros db Hpid Hc Ht.
  - cbn. unfold occurrences. cbn. lia.
  - cbn [fold_left]. rewrite IH; trivial.
    + rewrite add_keyword_usage by apply Hc.
      unfold occurrences. cbn [map count_occ].
      destruct (string_dec (strip k) t) as [Heq | Hne].
      * rewrite Heq, String.eqb_refl.
        assert (Htr : truthy t = true) by (destruct t; [congruence | reflexivity]).
        rewrite Htr. cbn [andb]. lia.
      * apply String.eqb_neq in Hne. rewrite Hne, andb_false_r. lia.
    + destruct (add_keyword_effect pid db k) as (-> & _). exact Hpid.
    + now apply add_keyword_consistent.
Qed.

(** X15: how the usage counters move.  When [create_publication] stores a
    new record in a consistent store, the usage counter of every term
    grows by the number of times the term stands in the record's keyword
    list, outer whitespace aside: once per occurrence, not once per
    publication. *)
Theorem usage_counter_grows_by_occurrences
    (db db1 : DB) (pub_data : PubData) (p : Publication) (t : string) :
  consistent db ->
  find (nasa_id_is (pd_nasa_id pub_data)) (publications db) = None ->
  create_publication db pub_data = (db1, Return p) ->
  t <> "" ->
  usage db1 t = usage db t + occurrences (map strip (pd_keywords pub_data)) t.
Proof.
  intros Hc Hnew Hcreate Ht.
  destruct (create_publication_cases db pub_data)
    as [[_ [Hr | (q & _ & Hq)]] | [[_ [_ Hr]] | (q & Hr & _ & _ & Hid & _ & _ & _ & Hdb)]];
    try (rewrite Hcreate in Hr; cbn [snd] in Hr; discriminate); [congruence |].
  rewrite Hcreate in Hr, Hdb. cbn [fst snd] in Hr, Hdb. injection Hr as <-.
  set (db0 := set_publications db (publications db ++ [p])) in *.
  set (db2 := _add_authors_to_publication db0 (id p) (pd_authors pub_data)) in *.
  assert (Hin0 : In (id p) (map id (publications db0))).
  { subst db0. cbn [publications set_publications]. rewrite map_app.
    apply in_or_app. right. now left. }
  assert (H0 : consistent db0) by now apply new_row_consistent.
  assert (H2 : consistent db2) by now apply fold_authors_consistent.
  assert (Hin2 : In (id p) (map id (publications db2))).
  { subst db2. now rewrite fold_authors_publications. }
  assert (Hu2 : usage db2 t = usage db t).
  { unfold usage. subst db2.
    now destruct (fold_authors_keywords (id p) (pd_authors pub_data) db0) as (-> & _). }
  rewrite <- Hu2, <- (fold_keywords_usage (id p) (pd_keywords pub_data) db2 t Hin2 H2 Ht).
  rewrite Hdb. reflexivity.
Qed.

End UsageCounters.

(** *** Ingestion: refused records, repeated runs *)

Section FailedRecords.
Import Fetcher Service Spec StoreSpec.

(** With a session that a failed flush has left unusable, every turn of
    the ingestion loop fails and stores nothing. *)
Lemma store_with_dead_session (pubs : list PubData) (db : DB) (n : Z)
    (errors : list IngestError) :
  session_active db = false ->
  fold_left store_one pubs (db, n, errors)
  = (db, n,
     (errors ++ map (fun pd => ErrorProcessing (title_for_message (pd_title pd))
                                               PendingRollbackError) pubs)%list).
Proof.
  intros Hdead. revert errors.
  induction pubs as [|pd pubs IH]; intros errors; cbn [fold_left map].
  - now rewrite app_nil_r.
  - unfold store_one at 2. unfold create_publication. rewrite Hdead. cbn [negb].
    rewrite IH, <- app_assoc. reflexivity.
Qed.

Lemma integrity_error_kills_session (db db' : DB) (pub_data : PubData) :
  create_publication db pub_data = (db', Raise IntegrityError) ->
  db' = fail_flush db /\ session_active db' = false.
Proof.
  intros H.
  destruct (create_publication_cases db pub_data)
    as [[_ [Hr | (q & Hr & _)]] | [[Hdb _] | (q & Hr & _)]];
    rewrite H in *; cbn [fst snd] in *; try discriminate.
  now subst db'.
Qed.

(** X16: one refused record ends an ingestion.  When the database refuses
    a record of the batch (a null title, a DOI already taken), the
    records before it stay stored and counted, the refused record and
    every record behind it are reported as errors and are not stored,
    the final update of the data source fails as well and is reported,
    and the tables are left as they were before the refused record. *)
Theorem refused_record_ends_ingestion
    (db db1 db2 : DB) (source_name : string) (good rest : list PubData) (bad : PubData)
    (n : Z) (errors : list IngestError) :
  fold_left store_one good (db, 0, []) = (db1, n, errors) ->
  create_publication db1 bad = (db2, Raise IntegrityError) ->
  store_publications db source_name (good ++ bad :: rest)
  = (db2,
     {| ir_source := source_name;
        ir_ingested := n;
        ir_errors :=
          (errors
           ++ [ErrorProcessing (title_for_message (pd_title bad)) IntegrityError]
           ++ map (fun pd => ErrorProcessing (title_for_message (pd_title pd))
                                              PendingRollbackError) rest
           ++ [ErrorFetching source_name PendingRollbackError])%list |}) /\
  publications db2 = publications db1 /\
  authors db2 = authors db1 /\
  keywords db2 = keywords db1 /\
  search_index db2 = search_index db1 /\
  data_sources db2 = data_sources db1.
Proof.
  intros Hgood Hbad.
  destruct (integrity_error_kills_session db1 db2 bad Hbad) as [Hdb Hdead].
  split; [| subst db2; now repeat split].
  unfold store_publications. rewrite fold_left_app, Hgood. cbn [fold_left].
  unfold store_one at 2. rewrite Hbad.
  rewrite (store_with_dead_session rest db2 n _ Hdead).
  unfold _update_data_source. rewrite Hdead. cbn [negb].
  now rewrite <- !app_assoc.
Qed.

End FailedRecords.

Section Reingestion.
Import Fetcher Service Spec StoreSpec.

Lemma create_stored_record (db : DB) (pub_data : PubData) :
  session_active db = true -> stored db pub_data ->
  exists p, create_publication db pub_data = (db, Return p).
Proof.
  intros Hact Hst. unfold create_publication. rewrite Hact. cbn [negb].
  unfold stored in Hst. destruct (find _ (publications db)) as [p |]; [| congruence].
  now exists p.
Qed.

Lemma store_stored_records (pubs : list PubData) (db : DB) (n : Z) :
  session_active db = true ->
  (forall pd, In pd pubs -> stored db pd) ->
  fold_left store_one pubs (db, n, []) = (db, n + Z.of_nat (List.length pubs), []).
Proof.
  intros Hact. revert n. induction pubs as [|pd pubs IH]; intros n Hst.
  - cbn. f_equal. f_equal. lia.
  - cbn [fold_left]. unfold store_one at 2.
    destruct (create_stored_record db pd Hact (Hst pd (or_introl eq_refl))) as (p & ->).
    rewrite IH by (intros x Hx; apply Hst; now right).
    f_equal. f_equal. cbn [List.length]. lia.
Qed.

Lemma find_app_found {X : Type} (f : X -> bool) (l l' : list X) :
  find f l <> None -> find f (l ++ l') <> None.
Proof.
  induction l as [|x l IH]; simpl; [congruence |].
  destruct (f x); [congruence | exact IH].
Qed.

Lemma stored_after_create (db : DB) (pd other : PubData) :
  stored db pd -> stored (fst (create_publication db other)) pd.
Proof.
  intros Hst.
  destruct (create_publication_cases db other)
    as [[-> _] | [[-> _] | (p & _ & _ & _ & _ & _ & _ & _ & ->)]]; trivial.
  unfold stored. rewrite helpers_publications.
  cbn [publications set_publications]. now apply find_app_found.
Qed.

Lemma stored_by_create (db db' : DB) (pd : PubData) (p : Publication) :
  create_publication db pd = (db', Return p) -> stored db' pd.
Proof.
  intros H. unfold stored.
  destruct (create_publication_returns db db' pd p H)
    as (_ & _ & Hid & [[-> Hfind] | [Hfind Hpubs]]); [congruence |].
  rewrite Hpubs, (find_app_last _ _ p Hfind); [discriminate |].
  unfold nasa_id_is. rewrite Hid. apply opt_string_eqb_refl.
Qed.

Lemma store_all_stored (pubs : list PubData) (db : DB) (n : Z) :
  session_active db = true ->
  (forall pd, In pd pubs -> pd_title pd <> PyNone /\ pd_doi pd = None) ->
  exists db',
    fold_left store_one pubs (db, n, []) = (db', n + Z.of_nat (List.length pubs), []) /\
    session_active db' = true /\
    (forall pd, In pd pubs \/ stored db pd -> stored db' pd).
Proof.
  revert db n. induction pubs as [|pd pubs IH]; intros db n Hact Hok.
  - exists db. cbn. split; [f_equal; f_equal; lia |]. split; [exact Hact |].
    intros pd [[] | H]. exact H.
  - destruct (Hok pd (or_introl eq_refl)) as [Ht Hd].
    destruct (create_publication_succeeds db pd Hact Ht Hd) as (db1 & p & Hc & Hact1).
    destruct (IH db1 (n + 1) Hact1) as (db' & Hfold & Hact' & Hst).
    { intros x Hx. apply Hok. now right. }
    exists db'. split; [| split; [exact Hact' |]].
    + cbn [fold_left]. unfold store_one at 2. rewrite Hc, Hfold.
      f_equal. f_equal. cbn [List.length]. lia.
    + intros x [[<- | Hx] | Hx]; apply Hst.
      * right. now apply (stored_by_create db db1 pd p).
      * now left.
      * right. pose proof (stored_after_create db x pd Hx) as H. now rewrite Hc in H.
Qed.

(** What [_update_data_source] does to the tally of its source. *)
Lemma update_data_source_tally (db : DB) (source_name : string) (count : Z) :
  session_active db = true ->
  snd (_update_data_source db source_name count) = Return tt /\
  tally (fst (_update_data_source db source_name count)) source_name
  = tally db source_name + count /\
  publications (fst (_update_data_source db source_name count)) = publications db /\
  session_active (fst (_update_data_source db source_name count)) = true.
Proof.
  intros Hact. unfold _update_data_source. rewrite Hact. cbn [negb fst snd].
  split; [reflexivity |]. split; [| now split].
  unfold tally. cbn [data_sources set_data_sources].
  induction (data_sources db) as [|d rows IH].
  - cbn. rewrite String.eqb_refl. cbn. rewrite String.eqb_refl. reflexivity.
  - cbn [find]. destruct (String.eqb (ds_name d) source_name) eqn:Hd.
    + cbn. rewrite Hd. cbn. now rewrite Hd.
    + destruct (find _ rows) as [r |] eqn:Hf.
      * cbn. rewrite Hd. cbn. rewrite Hd. cbn in IH. exact IH.
      * cbn. rewrite Hd. cbn. rewrite Hd. cbn in IH. exact IH.
Qed.

Lemma store_publications_clean (db db1 : DB) (source_name : string)
    (pubs : list PubData) (k : Z) :
  fold_left store_one pubs (db, 0, []) = (db1, k, []) ->
  session_active db1 = true ->
  store_publications db source_name pubs
  = (fst (_update_data_source db1 source_name k),
     {| ir_source := source_name; ir_ingested := k; ir_errors := [] |}).
Proof.
  intros Hfold Hact. unfold store_publications. rewrite Hfold.
  unfold _update_data_source. rewrite Hact. reflexivity.
Qed.

Lemma update_data_source_tables (db : DB) (source_name : string) (count : Z) :
  let db' := fst (_update_data_source db source_name count) in
  publications db' = publications db /\
  authors db' = authors db /\
  keywords db' = keywords db /\
  publication_authors db' = publication_authors db /\
  publication_keywords db' = publication_keywords db /\
  search_index db' = search_index db.
Proof.
  unfold _update_data_source. destruct (session_active db); now repeat split.
Qed.

Lemma store_one_sources (st : DB * Z * list IngestError) (pd : PubData) :
  data_sources (fst (fst (store_one st pd))) = data_sources (fst (fst st)).
Proof.
  rewrite store_one_db.
  destruct (create_publication_cases (fst (fst st)) pd)
    as [[-> _] | [[-> _] | (p & _ & _ & _ & _ & _ & _ & _ & ->)]]; trivial.
  unfold _create_search_index. cbn [data_sources set_search_index].
  generalize (id p). intros pid.
  assert (Hk : forall kws d, data_sources (_add_keywords_to_publication d pid kws)
                             = data_sources d).
  { unfold _add_keywords_to_publication.
    induction kws as [|k kws IH]; intros d; [reflexivity |].
    cbn [fold_left]. rewrite IH. now destruct (add_keyword_effect pid d k) as (_ & _ & _ & _ & -> & _). }
  assert (Ha : forall names d, data_sources (_add_authors_to_publication d pid names)
                               = data_sources d).
  { unfold _add_authors_to_publication.
    induction names as [|k names IH]; intros d; [reflexivity |].
    cbn [fold_left]. rewrite IH. now destruct (add_author_effect pid d k) as (_ & _ & _ & _ & -> & _). }
  now rewrite Hk, Ha.
Qed.

Lemma fold_store_sources (pubs : list PubData) (st : DB * Z * list IngestError) :
  data_sources (fst (fst (fold_left store_one pubs st))) = data_sources (fst (fst st)).
Proof.
  revert st. induction pubs as [|pd pubs IH]; intros st; [reflexivity |].
  cbn [fold_left]. rewrite IH. apply store_one_sources.
Qed.

(** X17: ingesting the same records again stores nothing and still counts
    them: when the records of a source can all be stored, a second
    ingestion of that source reports as many records ingested as the
    first, without an error, although the publication, author and
    keyword tables and the links are left as the first ingestion left
    them; and the tally of the source grows by that number both times. *)
Theorem reingestion_counts_stored_records `{NasaSources}
    (db : DB) (source_name : string) (limit : Z) :
  session_active db = true ->
  (forall pd, In pd (fetch_for source_name limit) ->
     pd_title pd <> PyNone /\ pd_doi pd = None) ->
  let fetched := Z.of_nat (List.length (fetch_for source_name limit)) in
  let first := ingest_nasa_data db source_name limit in
  let second := ingest_nasa_data (fst first) source_name limit in
  ir_ingested (snd first) = fetched /\
  ir_ingested (snd second) = fetched /\
  ir_errors (snd second) = [] /\
  publications (fst second) = publications (fst first) /\
  authors (fst second) = authors (fst first) /\
  keywords (fst second) = keywords (fst first) /\
  publication_authors (fst second) = publication_authors (fst first) /\
  publication_keywords (fst second) = publication_keywords (fst first) /\
  tally (fst second) source_name = tally db source_name + 2 * fetched.
Proof.
  intros Hact Hok. cbv zeta. unfold ingest_nasa_data.
  set (pubs := fetch_for source_name limit) in *.
  set (k := Z.of_nat (List.length pubs)).
  destruct (store_all_stored pubs db 0 Hact Hok) as (db1 & Hfold & Hact1 & Hst).
  change (0 + Z.of_nat (List.length pubs)) with k in Hfold.
  rewrite (store_publications_clean db db1 source_name pubs k Hfold Hact1).
  cbn [fst snd ir_ingested].
  set (db2 := fst (_update_data_source db1 source_name k)) in *.
  destruct (update_data_source_tally db1 source_name k Hact1)
    as (_ & Ht2 & Hp2 & Hact2). fold db2 in Ht2, Hp2, Hact2.
  assert (Hst2 : forall pd, In pd pubs -> stored db2 pd).
  { intros pd Hpd. unfold stored. rewrite Hp2. apply Hst. now left. }
  pose proof (store_stored_records pubs db2 0 Hact2 Hst2) as Hfold2.
  change (0 + Z.of_nat (List.length pubs)) with k in Hfold2.
  rewrite (store_publications_clean db2 db2 source_name pubs k Hfold2 Hact2).
  cbn [fst snd ir_ingested ir_errors].
  destruct (update_data_source_tally db2 source_name k Hact2) as (_ & Ht3 & _ & _).
  destruct (update_data_source_tables db2 source_name k) as (-> & -> & -> & -> & -> & _).
  repeat (split; [reflexivity |]).
  rewrite Ht3, Ht2.
  assert (Htally1 : tally db1 source_name = tally db source_name).
  { unfold tally. pose proof (fold_store_sources pubs (db, 0, [])) as Hs.
    rewrite Hfold in Hs. cbn [fst] in Hs. now rewrite Hs. }
  rewrite Htally1. lia.
Qed.

End Reingestion.

(** *** The search route *)

Section SearchRoute.
Import Fetcher Service Spec StoreSpec Queries.

Lemma sql_limit_subset {X : Type} (n : Z) (l : list X) (x : X) :
  In x (sql_limit n l) -> In x l.
Proof.
  unfold sql_limit. destruct (n <? 0); [trivial |].
  intros H. rewrite <- (firstn_skipn (Z.to_nat n) l). apply in_or_app. now left.
Qed.

Lemma sql_offset_subset {X : Type} (n : Z) (l : list X) (x : X) :
  In x (sql_offset n l) -> In x l.
Proof.
  unfold sql_offset. intros H. rewrite <- (firstn_skipn (Z.to_nat n) l).
  apply in_or_app. now right.
Qed.

Lemma page_subset `{YearOrdering} (limit offset : Z) (l : list Publication)
    (p : Publication) :
  In p (sql_limit limit (sql_offset offset (order_by_year_desc l))) -> In p l.
Proof.
  intros Hp. apply sql_limit_subset, sql_offset_subset in Hp.
  exact (Permutation_in _ (Permutation_sym (order_by_permutes l)) Hp).
Qed.

Lemma order_by_nil `{YearOrdering} : order_by_year_desc [] = [].
Proof. apply Permutation_nil. apply order_by_permutes. Qed.

Lemma filter_none {X : Type} (f : X -> bool) (l : list X) :
  (forall x, In x l -> f x = false) -> filter f l = [].
Proof.
  induction l as [|x l IH]; intros H; simpl; [reflexivity |].
  rewrite (H x (or_introl eq_refl)). apply IH. intros y Hy. apply H. now right.
Qed.


End SearchRoute.

(** *** Statistics *)

Section StatisticsFacts.
Import Fetcher Service Spec Statistics Main.

Lemma total_dict_set (d : list (string * Z)) (k : string) :
  total (dict_set d k (dict_get d k 0 + 1)) = total d + 1.
Proof.
  unfold total. induction d as [|[k' v] d IH]; cbn [dict_set dict_get]; [cbn; lia |].
  destruct (String.eqb k' k); cbn [fold_right map snd] in *; lia.
Qed.

Lemma group_count_total (values : list string) :
  total (group_count values) = Z.of_nat (List.length values).
Proof.
  unfold group_count. induction values as [|v values IH] using rev_ind; [reflexivity |].
  rewrite fold_left_app. cbn [fold_left]. rewrite total_dict_set, IH, length_app.
  cbn [List.length]. lia.
Qed.

Lemma group_count_tokens (values : list string) : group_count values = count_tokens values.
Proof. reflexivity. Qed.

Lemma group_count_entry (values : list string) (v : string) :
  dict_get (group_count values) v 0 = occurrences values v.
Proof.
  rewrite group_count_tokens.
  destruct (count_tokens_invariant values) as (Hnd & Hkeys & Hcnt & _).
  destruct (in_dec string_dec v (dict_keys (count_tokens values))) as [Hin | Hout].
  - apply in_map_iff in Hin. destruct Hin as ([k c] & Hk & Hin). simpl in Hk. subst k.
    rewrite (dict_get_entry _ v c 0 Hnd Hin). now apply Hcnt.
  - rewrite (dict_get_absent _ v 0 Hout). symmetry. apply occurrences_absent.
    intros H. apply Hout. now apply Hkeys.
Qed.

Lemma total_count_year (y : Z) (groups : list (Z * Z)) :
  total (count_year y groups) = total groups + 1.
Proof.
  unfold total. induction groups as [|[k n] groups IH]; cbn [count_year]; [cbn; lia |].
  destruct (y <? k); [cbn [fold_right map snd]; lia |].
  destruct (y =? k); cbn [fold_right map snd] in *; lia.
Qed.

Lemma group_years_total (years : list Z) :
  total (group_years years) = Z.of_nat (List.length years).
Proof.
  unfold group_years. induction years as [|y years IH] using rev_ind; [reflexivity |].
  rewrite fold_left_app. cbn [fold_left]. rewrite total_count_year, IH, length_app.
  cbn [List.length]. lia.
Qed.

Lemma count_year_keys (y : Z) (groups : list (Z * Z)) (k : Z) :
  In k (map fst (count_year y groups)) <-> k = y \/ In k (map fst groups).
Proof.
  induction groups as [|[k' n] groups IH]; simpl; [intuition |].
  destruct (Z.ltb_spec y k'); [simpl; intuition |].
  destruct (Z.eqb_spec y k'); simpl; [intuition congruence |].
  rewrite IH. intuition.
Qed.

Lemma count_year_sorted (y : Z) (groups : list (Z * Z)) :
  StronglySorted Z.lt (map fst groups) ->
  StronglySorted Z.lt (map fst (count_year y groups)).
Proof.
  induction groups as [|[k n] groups IH]; intros Hs; simpl.
  - repeat constructor.
  - simpl in Hs. inversion Hs as [|? ? Hs' Hall]; subst.
    destruct (Z.ltb_spec y k).
    + simpl. constructor; [exact Hs |]. constructor; [exact H |].
      eapply Forall_impl; [| exact Hall]. intros z Hz. lia.
    + destruct (Z.eqb_spec y k); simpl; [exact Hs |].
      constructor; [now apply IH |].
      apply Forall_forall. intros z Hz. apply count_year_keys in Hz.
      destruct Hz as [-> | Hz]; [lia |].
      rewrite Forall_forall in Hall. now apply Hall.
Qed.

Lemma group_years_keys (years : list Z) :
  StronglySorted Z.lt (map fst (group_years years)) /\
  (forall k, In k (map fst (group_years years)) <-> In k years).
Proof.
  unfold group_years. induction years as [|y years IH] using rev_ind.
  - split; [constructor | simpl; tauto].
  - rewrite fold_left_app. cbn [fold_left]. destruct IH as [Hs Hk]. split.
    + now apply count_year_sorted.
    + intros k. rewrite count_year_keys, Hk, in_app_iff. simpl. intuition.
Qed.

Lemma recent_years_bound (current_year : Z) (rows : list Publication) :
  (List.length (recent_years current_year rows) <= List.length rows)%nat /\
  (forall y, In y (recent_years current_year rows) <->
             current_year - 10 <= y /\
             exists p, In p rows /\ publication_year p = Some y).
Proof.
  unfold recent_years. induction rows as [|p rows [IHl IHk]]; simpl.
  - split; [lia |]. intros y. split; [tauto |]. now intros (_ & q & [] & _).
  - split.
    + rewrite length_app. destruct (publication_year p) as [y |]; simpl; [| lia].
      destruct (current_year - 10 <=? y); simpl; lia.
    + intros y. rewrite in_app_iff, IHk. split.
      * intros [H | (Hy & q & Hq & Hqy)].
        -- destruct (publication_year p) as [z |] eqn:Hp; [| destruct H].
           destruct (Z.leb_spec (current_year - 10) z); [| destruct H].
           destruct H as [<- | []]. split; [lia |]. exists p. auto.
        -- split; [exact Hy |]. exists q. auto.
      * intros (Hy & q & [<- | Hq] & Hqy).
        -- left. rewrite Hqy. destruct (Z.leb_spec (current_year - 10) y); [now left | lia].
        -- right. split; [exact Hy |]. now exists q.
Qed.

(** X19: the statistics add up.  The counts by organism and the counts by
    research domain each sum to the total number of publications, every
    publication falling in exactly one group of each, and the count of a
    label is the number of publications that carry it; the counts by
    year cover only the publications dated in the last ten years, so
    they sum to at most the total, their years are listed in ascending
    order without repetition, none before the tenth year back. *)
Theorem publication_stats_add_up (current_year : Z) (db : DB) :
  session_active db = true ->
  exists stats,
    get_publication_stats current_year db = Return stats /\
    total_publications stats = Z.of_nat (List.length (publications db)) /\
    total (by_organism stats) = total_publications stats /\
    total (by_domain stats) = total_publications stats /\
    total (by_year stats) <= total_publications stats /\
    (forall label, dict_get (by_organism stats) label 0
                   = occurrences (map organism_type (publications db)) label) /\
    (forall label, dict_get (by_domain stats) label 0
                   = occurrences (map research_domain (publications db)) label) /\
    StronglySorted Z.lt (map fst (by_year stats)) /\
    (forall y, In y (map fst (by_year stats)) <->
               current_year - 10 <= y /\
               exists p, In p (publications db) /\ publication_year p = Some y).
Proof.
  intros Hact. unfold get_publication_stats. rewrite Hact. cbn [negb].
  eexists. split; [reflexivity |].
  cbn [total_publications by_organism by_domain by_year].
  destruct (recent_years_bound current_year (publications db)) as [Hlen Hkeys].
  destruct (group_years_keys (recent_years current_year (publications db))) as [Hs Hk].
  split; [reflexivity |].
  split; [now rewrite group_count_total, length_map |].
  split; [now rewrite group_count_total, length_map |].
  split; [rewrite group_years_total; lia |].
  split; [intros label; apply group_count_entry |].
  split; [intros label; apply group_count_entry |].
  split; [exact Hs |].
  intros y. now rewrite Hk, Hkeys.
Qed.

End StatisticsFacts.

(** *** Initialisation *)

Section Initialisation.
Import Fetcher Service Spec StoreSpec Init.

Lemma missing_after {X : Type} (key : X -> string) (table seeds : list X) :
  missing key (table ++ missing key table seeds) seeds = [].
Proof.
  unfold missing at 1. apply filter_none. intros x Hx.
  apply negb_false_iff. apply existsb_exists.
  destruct (existsb (fun r => String.eqb (key r) (key x)) table) eqn:He.
  - apply existsb_exists in He. destruct He as (r & Hr & Heq).
    exists r. split; [apply in_or_app; now left | exact Heq].
  - exists x. split; [| apply String.eqb_refl].
    apply in_or_app. right. unfold missing. apply filter_In. split; [exact Hx |].
    now rewrite He.
Qed.

Lemma seed_as_store (pubs : list PubData) (st : DB * Z * list IngestError) :
  fst (fst (fold_left store_one pubs st))
  = fold_left (fun d pub_data => fst (create_publication d pub_data)) pubs (fst (fst st)).
Proof.
  revert st. induction pubs as [|pd pubs IH]; intros st; [reflexivity |].
  cbn [fold_left]. now rewrite IH, store_one_db.
Qed.

Lemma sample_pubs_storable (pd : PubData) :
  In pd sample_pubs -> pd_title pd <> PyNone /\ pd_doi pd = None.
Proof.
  intros [<- | [<- | [<- | []]]]; (split; [discriminate | reflexivity]).
Qed.

Lemma seed_twice (db : DB) :
  session_active db = true ->
  session_active (seed_sample_publications db) = true /\
  seed_sample_publications (seed_sample_publications db) = seed_sample_publications db.
Proof.
  intros Hact. unfold seed_sample_publications.
  destruct (store_all_stored sample_pubs db 0 Hact sample_pubs_storable)
    as (db1 & Hfold & Hact1 & Hst).
  pose proof (seed_as_store sample_pubs (db, 0, [])) as H1.
  rewrite Hfold in H1. cbn [fst] in H1. rewrite <- H1.
  split; [exact Hact1 |].
  pose proof (seed_as_store sample_pubs (db1, 0, [])) as H2.
  rewrite (store_stored_records sample_pubs db1 0 Hact1) in H2
    by (intros pd Hpd; apply Hst; now left).
  cbn [fst] in H2. now rewrite <- H2.
Qed.

Lemma seed_sources (db : DB) :
  data_sources (seed_sample_publications db) = data_sources db.
Proof.
  unfold seed_sample_publications.
  pose proof (seed_as_store sample_pubs (db, 0, [])) as H.
  change (fst (fst (db, 0, @nil IngestError))) with db in H.
  rewrite <- H. apply (fold_store_sources sample_pubs (db, 0, [])).
Qed.

Lemma main_steps (s : Store) :
  main s
  = {| store_db :=
         seed_sample_publications
           (set_data_sources (open_session (store_db s))
              (data_sources (store_db s) ++
               missing ds_name (data_sources (store_db s))
                 (map (fun n => {| ds_name := n; total_records := 0 |}) sources)));
       store_missions :=
         (store_missions s ++ missing mission_name (store_missions s) missions)%list |}.
Proof. reflexivity. Qed.

Lemma open_active_session (db : DB) : session_active db = true -> open_session db = db.
Proof. destruct db. cbn. now intros ->. Qed.

(** X20: the initialisation script can be run again at no cost: a second
    run of [main] finds every mission, every data source and every
    sample publication of the first run and leaves the store exactly as
    the first run left it, whatever the store held before. *)
Theorem initialisation_is_idempotent (s : Store) : main (main s) = main s.
Proof.
  rewrite (main_steps (main s)). rewrite (main_steps s).
  cbn [store_db store_missions].
  set (db2 := set_data_sources (open_session (store_db s)) _).
  assert (Hact2 : session_active db2 = true) by reflexivity.
  destruct (seed_twice db2 Hact2) as [Hact3 Hseed].
  set (db3 := seed_sample_publications db2) in *.
  rewrite (open_active_session db3 Hact3).
  rewrite missing_after, app_nil_r. f_equal.
  assert (Hds : data_sources db3 = data_sources db2) by apply seed_sources.
  rewrite Hds. subst db2. cbn [data_sources set_data_sources open_session].
  rewrite missing_after, app_nil_r.
  cbn [data_sources set_data_sources open_session] in Hds. rewrite <- Hds.
  replace (set_data_sources db3 (data_sources db3)) with db3 by now destruct db3.
  exact Hseed.
Qed.

End Initialisation.

Section Tallies.
Import Fetcher Service Spec StoreSpec Init.

Lemma update_other_tally (db : DB) (source_name other : string) (count : Z) :
  other <> source_name ->
  tally (fst (_update_data_source db source_name count)) other = tally db other.
Proof.
  intros Hne. unfold _update_data_source.
  destruct (session_active db); cbn [negb fst]; [| reflexivity].
  unfold tally. cbn [data_sources set_data_sources].
  assert (Hother : String.eqb source_name other = false)
    by (apply String.eqb_neq; congruence).
  induction (data_sources db) as [|d rows IH].
  - cbn. rewrite String.eqb_refl. cbn. now rewrite Hother.
  - cbn [find]. destruct (String.eqb (ds_name d) source_name) eqn:Hd.
    + assert (Hdo : String.eqb (ds_name d) other = false).
      { apply String.eqb_eq in Hd. now rewrite Hd. }
      cbn. rewrite Hd. cbn. now rewrite Hdo.
    + destruct (find _ rows) as [r |] eqn:Hf; cbn; rewrite Hd; cbn;
        (destruct (String.eqb (ds_name d) other); [reflexivity |]);
        cbn in IH; exact IH.
Qed.

Lemma ingest_other_tally `{NasaSources} (db : DB) (source_name other : string) (limit : Z) :
  other <> source_name ->
  tally (fst (ingest_nasa_data db source_name limit)) other = tally db other.
Proof.
  intros Hne. unfold ingest_nasa_data, store_publications.
  pose proof (fold_store_sources (fetch_for source_name limit) (db, 0, [])) as Hs.
  destruct (fold_left store_one (fetch_for source_name limit) (db, 0, []))
    as [[db1 n] errors]. cbn [fst] in Hs.
  pose proof (update_other_tally db1 source_name other n Hne) as Hu.
  destruct (_update_data_source db1 source_name n) as [db2 [u | e]]; cbn [fst] in *;
    rewrite Hu; unfold tally; now rewrite Hs.
Qed.

(** X21: an ingestion adds to the tally kept under the very name it was
    given, and to no other: the names are compared as they are, while the
    choice of the source ignores case.  So the row that the
    initialisation script creates for the NASA Open Data portal is never
    updated by an ingestion of that source alone, whose name in lower
    case is open_data. *)
Theorem ingestion_tallies_under_its_own_name `{NasaSources}
    (db : DB) (source_name : string) (limit : Z) :
  (forall other, other <> source_name ->
     tally (fst (ingest_nasa_data db source_name limit)) other = tally db other) /\
  In "NASA Open Data" sources /\
  (lower source_name = "open_data" ->
   fetch_for source_name limit = search_nasa_open_data /\
   tally (fst (ingest_nasa_data db source_name limit)) "NASA Open Data"
   = tally db "NASA Open Data").
Proof.
  split; [intros other Hne; now apply ingest_other_tally |].
  split; [right; now left |].
  intros Hlow. split.
  - unfold fetch_for. now rewrite Hlow.
  - apply ingest_other_tally. intros <-. vm_compute in Hlow. discriminate.
Qed.

End Tallies.

(** *** Worked instances *)

Section WorkedInstances.
Import Fetcher Service Spec StoreSpec Queries Statistics.

Lemma empty_db_consistent : consistent empty_db.
Proof.
  unfold consistent, keys_unique, names_unique, links_resolve, links_unique. cbn.
  split; [repeat split; apply NoDup_nil |]. split; [split; apply NoDup_nil |].
  split; [split; intros ? ? [] | split; apply NoDup_nil].
Qed.

Lemma service_keeps_store_consistent_witness :
  consistent empty_db /\
  consistent (fst (create_publication empty_db Examples.bone_study)).
Proof.
  split; [exact empty_db_consistent |].
  exact (proj1 (service_keeps_store_consistent (H := Examples.sample_sources)
                  empty_db Examples.bone_study "ntrs" 5 empty_db_consistent)).
Defined.

Lemma usage_counters_cover_links_witness :
  counters_cover empty_db /\
  counters_cover (fst (create_publication empty_db Examples.bone_study)).
Proof.
  assert (H0 : counters_cover empty_db) by (intros k []).
  split; [exact H0 |].
  exact (proj1 (usage_counters_cover_links (H := Examples.sample_sources)
                  empty_db Examples.bone_study "ntrs" 5 empty_db_consistent H0)).
Defined.

Lemma search_index_follows_publications_witness :
  indexed empty_db /\
  indexed (fst (create_publication empty_db Examples.bone_study)).
Proof.
  split; [reflexivity |].
  exact (proj1 (search_index_follows_publications (H := Examples.sample_sources)
                  empty_db Examples.bone_study "ntrs" 5 eq_refl)).
Defined.


Lemma created_publication_lists_its_authors_witness :
  exists r,
    Api.get_publication Examples.after_bone_study 1 = Api.Ok r /\
    Api.pr_title r = "Bone loss in orbit" /\
    (In "Smith, J." (Api.pr_authors r)).
Proof.
  assert (Hc : create_publication empty_db Examples.bone_study
               = (Examples.after_bone_study, Return Examples.bone_row))
    by (vm_compute; reflexivity).
  destruct (created_publication_lists_its_authors _ _ _ _ empty_db_consistent eq_refl Hc)
    as (r & Hget & _ & Htitle & _ & Hauthors).
  exists r. split; [exact Hget |]. split; [exact Htitle |].
  apply Hauthors. split; [discriminate | now left].
Defined.

Lemma refused_record_ends_ingestion_witness :
  ir_ingested
    (snd (store_publications empty_db "ntrs"
            [Examples.bone_study; Samples.untitled; Samples.orbit_study])) = 1 /\
  List.length
    (ir_errors
       (snd (store_publications empty_db "ntrs"
               [Examples.bone_study; Samples.untitled; Samples.orbit_study]))) = 3%nat.
Proof.
  assert (Hgood : fold_left store_one [Examples.bone_study] (empty_db, 0, [])
                  = (Examples.after_bone_study, 1, [])) by (vm_compute; reflexivity).
  assert (Hbad : create_publication Examples.after_bone_study Samples.untitled
                 = (fail_flush Examples.after_bone_study, Raise IntegrityError))
    by (vm_compute; reflexivity).
  destruct (refused_record_ends_ingestion empty_db _ _ "ntrs" [Examples.bone_study]
              [Samples.orbit_study] Samples.untitled 1 [] Hgood Hbad) as [Heq _].
  cbn [app] in Heq. rewrite Heq. split; reflexivity.
Defined.

Lemma reingestion_counts_stored_records_witness :
  ir_ingested
    (snd (ingest_nasa_data (H := Examples.sample_sources)
            (fst (ingest_nasa_data (H := Examples.sample_sources) empty_db "ALL" 5))
            "ALL" 5)) = 2.
Proof.
  assert (Hok : forall pd,
             In pd (fetch_for (H := Examples.sample_sources) "ALL" 5) ->
             pd_title pd <> PyNone /\ pd_doi pd = None).
  { intros pd Hin. vm_compute in Hin.
    destruct Hin as [<- | [<- | []]]; split; (discriminate || reflexivity). }
  destruct (reingestion_counts_stored_records (H := Examples.sample_sources)
              empty_db "ALL" 5 eq_refl Hok) as (_ & H2 & _).
  exact H2.
Defined.


Lemma usage_counter_grows_by_occurrences_witness :
  usage Examples.after_bone_study "bone" = 2.
Proof.
  assert (Hc : create_publication empty_db Examples.bone_study
               = (Examples.after_bone_study, Return Examples.bone_row))
    by (vm_compute; reflexivity).
  rewrite (usage_counter_grows_by_occurrences _ _ _ _ "bone" empty_db_consistent
             eq_refl Hc ltac:(discriminate)).
  reflexivity.
Defined.

Lemma publication_stats_add_up_witness :
  exists stats,
    get_publication_stats 2024 Examples.corpus = Return stats /\
    total (by_organism stats) = 6 /\
    total (by_year stats) <= 6.
Proof.
  destruct (publication_stats_add_up 2024 Examples.corpus eq_refl)
    as (stats & Hs & Ht & Ho & _ & Hy & _).
  exists stats. split; [exact Hs |]. rewrite Ho, Ht in *. split; [reflexivity | exact Hy].
Defined.

End WorkedInstances.
